(** * NivoAdventure: a shallow embedding of the simulation core

    The JavaScript sources (utils.js, player.js, the Enemy and Camera
    classes, the Collectible, Platform, Game and Level classes) are
    embedded as Rocq functions over records.  Conventions:

    - a JavaScript number is a rational [Q]: arithmetic is exact and the
      values NaN and the infinities do not occur;
    - a method that mutates [this] is a function returning the new
      object; one that also returns a value returns a pair;
    - [getTimestamp()] (performance.now) is the argument [now];
    - [audioManager.play] and every render method are left out: they
      write no field of the simulation state;
    - a division by 0 yields 0; the divisors of the embedded code are
      halves, guarded magnitudes and the non-zero durations and ranges
      the constructors set. *)

From Stdlib Require Import QArith Qminmax Qabs Qround Lqa List Bool Lia.
Import ListNotations.
Open Scope Q_scope.

Set Implicit Arguments.

(** ** Record update

    [update_field e (f p) v] rebuilds the constructor application [e]
    (the eta-expansion of [p]) with the projection [f p] replaced by
    [v]: the assignment [this.f = v]. *)
Ltac update_field rebuilt proj v :=
  match eval pattern proj in rebuilt with
  | ?f _ => let r := eval cbv beta in (f v) in exact r
  end.

(** ** utils.js *)

Definition Qltb (a b : Q) : bool := negb (Qle_bool b a).
Definition Qgtb (a b : Q) : bool := negb (Qle_bool a b).
Definition Qgeb (a b : Q) : bool := Qle_bool b a.

Infix "<=?" := Qle_bool (at level 70, no associativity) : Q_scope.
Infix "<?" := Qltb (at level 70, no associativity) : Q_scope.
Infix ">?" := Qgtb (at level 70, no associativity) : Q_scope.
Infix ">=?" := Qgeb (at level 70, no associativity) : Q_scope.

(** The functions of the host's [Math] object that have no rational
    counterpart.  The development is parametric in them. *)
Class MathHost : Type := {
  Math_sqrt : Q -> Q;
  Math_sin : Q -> Q;
  Math_PI : Q
}.

(** The rectangle [{x, y, width, height}] every entity exposes. *)
Module Rect.
Record t : Type := make { x : Q; y : Q; width : Q; height : Q }.
End Rect.

(** [checkCollision] reads the four fields of whatever object it is
    handed; the class lists the objects that have them. *)
Class HasRect (A : Type) : Type := getRect : A -> Rect.t.

#[global] Instance Rect_HasRect : HasRect Rect.t := fun r => r.

Definition checkCollision {A B : Type} `{HasRect A} `{HasRect B}
    (rect1 : A) (rect2 : B) : bool :=
  let r1 := getRect rect1 in
  let r2 := getRect rect2 in
  (Rect.x r1 <? Rect.x r2 + Rect.width r2) &&
  (Rect.x r1 + Rect.width r1 >? Rect.x r2) &&
  (Rect.y r1 <? Rect.y r2 + Rect.height r2) &&
  (Rect.y r1 + Rect.height r1 >? Rect.y r2).

Definition Math_max : Q -> Q -> Q := Qmax.
Definition Math_min : Q -> Q -> Q := Qmin.
Definition Math_abs : Q -> Q := Qabs.
Definition Math_floor (v : Q) : Q := inject_Z (Qfloor v).

(** [Math.sign]: 1, -1 or 0. *)
Definition Math_sign (v : Q) : Q :=
  if v >? 0 then 1 else if v <? 0 then -1 else 0.

Definition clamp (value min max : Q) : Q :=
  Math_min (Math_max value min) max.

Definition lerp (start end_ factor : Q) : Q :=
  start + (end_ - start) * factor.

Definition distance {host : MathHost} (x1 y1 x2 y2 : Q) : Q :=
  Math_sqrt ((x2 - x1) ^ 2 + (y2 - y1) ^ 2).

Definition easeInOutQuad (t : Q) : Q :=
  if t <? 0.5 then 2 * t * t else -1 + (4 - 2 * t) * t.

(** ** player.js: class Player *)

Module Keys.
Record t : Type := make {
  left : bool; right : bool; jump : bool; jumpPressed : bool
}.
Definition eta (k : t) : t :=
  make (left k) (right k) (jump k) (jumpPressed k).
Ltac assign k proj v :=
  let e := eval cbv beta delta [eta] in (eta k) in update_field e proj v.
Definition set_left (v : bool) (k : t) : t := ltac:(assign k (left k) v).
Definition set_right (v : bool) (k : t) : t := ltac:(assign k (right k) v).
Definition set_jump (v : bool) (k : t) : t := ltac:(assign k (jump k) v).
Definition set_jumpPressed (v : bool) (k : t) : t :=
  ltac:(assign k (jumpPressed k) v).
End Keys.

Module Player.

Inductive Animation : Type := Idle | Walk | Jump | Fall.

(** The [frames] entry of [this.animations]. *)
Definition frames (a : Animation) : Q :=
  match a with Idle => 4 | Walk => 6 | Jump => 4 | Fall => 2 end.

Definition Animation_eqb (a b : Animation) : bool :=
  match a, b with
  | Idle, Idle | Walk, Walk | Jump, Jump | Fall, Fall => true
  | _, _ => false
  end.

Inductive Key : Type := KeyLeft | KeyRight | KeyJump.

Record t : Type := make {
  x : Q; y : Q; width : Q; height : Q;
  velocityX : Q; velocityY : Q;
  speed : Q; jumpPower : Q; gravity : Q; friction : Q; maxFallSpeed : Q;
  isGrounded : bool; canDoubleJump : bool; hasDoubleJumped : bool;
  facing : Q;
  maxHealth : Q; health : Q;
  invulnerable : bool; invulnerabilityTime : Q; lastDamageTime : Q;
  animationFrame : Q; animationSpeed : Q; animationTimer : Q;
  currentAnimation : Animation;
  keys : Keys.t;
  checkpointX : Q; checkpointY : Q; lastCheckpointHealth : Q
}.

Definition eta (p : t) : t :=
  make (x p) (y p) (width p) (height p) (velocityX p) (velocityY p)
    (speed p) (jumpPower p) (gravity p) (friction p) (maxFallSpeed p)
    (isGrounded p) (canDoubleJump p) (hasDoubleJumped p) (facing p)
    (maxHealth p) (health p) (invulnerable p) (invulnerabilityTime p)
    (lastDamageTime p) (animationFrame p) (animationSpeed p)
    (animationTimer p) (currentAnimation p) (keys p)
    (checkpointX p) (checkpointY p) (lastCheckpointHealth p).

Ltac assign p proj v :=
  let e := eval cbv beta delta [eta] in (eta p) in update_field e proj v.

Definition set_x (v : Q) (p : t) : t := ltac:(assign p (x p) v).
Definition set_y (v : Q) (p : t) : t := ltac:(assign p (y p) v).
Definition set_velocityX (v : Q) (p : t) : t :=
  ltac:(assign p (velocityX p) v).
Definition set_velocityY (v : Q) (p : t) : t :=
  ltac:(assign p (velocityY p) v).
Definition set_isGrounded (v : bool) (p : t) : t :=
  ltac:(assign p (isGrounded p) v).
Definition set_canDoubleJump (v : bool) (p : t) : t :=
  ltac:(assign p (canDoubleJump p) v).
Definition set_hasDoubleJumped (v : bool) (p : t) : t :=
  ltac:(assign p (hasDoubleJumped p) v).
Definition set_facing (v : Q) (p : t) : t := ltac:(assign p (facing p) v).
Definition set_health (v : Q) (p : t) : t := ltac:(assign p (health p) v).
Definition set_invulnerable (v : bool) (p : t) : t :=
  ltac:(assign p (invulnerable p) v).
Definition set_lastDamageTime (v : Q) (p : t) : t :=
  ltac:(assign p (lastDamageTime p) v).
Definition set_animationFrame (v : Q) (p : t) : t :=
  ltac:(assign p (animationFrame p) v).
Definition set_animationTimer (v : Q) (p : t) : t :=
  ltac:(assign p (animationTimer p) v).
Definition set_currentAnimation (v : Animation) (p : t) : t :=
  ltac:(assign p (currentAnimation p) v).
Definition set_keys (v : Keys.t) (p : t) : t := ltac:(assign p (keys p) v).
Definition set_checkpointX (v : Q) (p : t) : t :=
  ltac:(assign p (checkpointX p) v).
Definition set_checkpointY (v : Q) (p : t) : t :=
  ltac:(assign p (checkpointY p) v).
Definition set_lastCheckpointHealth (v : Q) (p : t) : t :=
  ltac:(assign p (lastCheckpointHealth p) v).

#[global] Instance Player_HasRect : HasRect t :=
  fun p => Rect.make (x p) (y p) (width p) (height p).

(** [new Player(x, y)]. *)
Definition new (x0 y0 : Q) : t :=
  {| x := x0; y := y0; width := 32; height := 48;
     velocityX := 0; velocityY := 0;
     speed := 5; jumpPower := 15; gravity := 0.8; friction := 0.85;
     maxFallSpeed := 15;
     isGrounded := false; canDoubleJump := false; hasDoubleJumped := false;
     facing := 1;
     maxHealth := 100; health := 100;
     invulnerable := false; invulnerabilityTime := 1000;
     lastDamageTime := 0;
     animationFrame := 0; animationSpeed := 0.15; animationTimer := 0;
     currentAnimation := Idle;
     keys := Keys.make false false false false;
     checkpointX := x0; checkpointY := y0; lastCheckpointHealth := 100 |}.

Definition jump (p : t) : t :=
  let p := set_velocityY (- jumpPower p) p in
  set_isGrounded false p.

Definition handleInput (p : t) : t :=
  let p :=
    if Keys.left (keys p) then
      let p := set_velocityX (velocityX p - speed p * 0.3) p in
      set_facing (-1) p
    else p in
  let p :=
    if Keys.right (keys p) then
      let p := set_velocityX (velocityX p + speed p * 0.3) p in
      set_facing 1 p
    else p in
  let p :=
    if Keys.jumpPressed (keys p) && negb (Keys.jump (keys p)) then
      if isGrounded p then
        let p := jump p in
        let p := set_canDoubleJump true p in
        set_hasDoubleJumped false p
      else if canDoubleJump p && negb (hasDoubleJumped p) then
        let p := jump p in
        let p := set_hasDoubleJumped true p in
        set_canDoubleJump false p
      else p
    else p in
  set_keys (Keys.set_jump (Keys.jumpPressed (keys p)) (keys p)) p.

Definition updatePhysics (deltaTime : Q) (p : t) : t :=
  let p :=
    if negb (isGrounded p) then set_velocityY (velocityY p + gravity p) p
    else p in
  let p :=
    if isGrounded p then set_velocityX (velocityX p * friction p) p
    else set_velocityX (velocityX p * 0.98) p in
  let p := set_velocityX (clamp (velocityX p) (- speed p) (speed p)) p in
  let p :=
    set_velocityY
      (clamp (velocityY p) (- jumpPower p * 1.2) (maxFallSpeed p)) p in
  let p := set_x (x p + velocityX p) p in
  set_y (y p + velocityY p) p.

(** The body of the loop of [handlePlatformCollisions], for one
    platform. *)
Definition resolvePlatform {A : Type} `{HasRect A} (p : t) (platform : A)
    : t :=
  let pl := getRect platform in
  if checkCollision p platform then
    let overlapX :=
      Math_min (x p + width p - Rect.x pl)
               (Rect.x pl + Rect.width pl - x p) in
    let overlapY :=
      Math_min (y p + height p - Rect.y pl)
               (Rect.y pl + Rect.height pl - y p) in
    if overlapX <? overlapY then
      if x p <? Rect.x pl then
        let p := set_x (Rect.x pl - width p) p in
        set_velocityX 0 p
      else
        let p := set_x (Rect.x pl + Rect.width pl) p in
        set_velocityX 0 p
    else
      if y p <? Rect.y pl then
        let p := set_y (Rect.y pl - height p) p in
        let p := set_velocityY 0 p in
        let p := set_isGrounded true p in
        let p := set_canDoubleJump false p in
        set_hasDoubleJumped false p
      else
        let p := set_y (Rect.y pl + Rect.height pl) p in
        set_velocityY 0 p
  else p.

Definition handlePlatformCollisions {A : Type} `{HasRect A}
    (platforms : list A) (p : t) : t :=
  let p := set_isGrounded false p in
  fold_left resolvePlatform platforms p.

Definition updateAnimation (deltaTime : Q) (p : t) : t :=
  let newAnimation :=
    if negb (isGrounded p) then
      if velocityY p <? 0 then Jump else Fall
    else if Math_abs (velocityX p) >? 0.5 then Walk
    else Idle in
  let p :=
    if negb (Animation_eqb newAnimation (currentAnimation p)) then
      let p := set_currentAnimation newAnimation p in
      let p := set_animationFrame 0 p in
      set_animationTimer 0 p
    else p in
  let p := set_animationTimer (animationTimer p + deltaTime) p in
  if animationTimer p >=? animationSpeed p then
    let p := set_animationFrame (animationFrame p + 1) p in
    let maxFrames := frames (currentAnimation p) in
    let p :=
      if animationFrame p >=? maxFrames then set_animationFrame 0 p
      else p in
    set_animationTimer 0 p
  else p.

Definition updateInvulnerability (now : Q) (p : t) : t :=
  if invulnerable p then
    let currentTime := now in
    if currentTime - lastDamageTime p >=? invulnerabilityTime p then
      set_invulnerable false p
    else p
  else p.

(** Returns whether the damage was applied, and the player. *)
Definition takeDamage (now damage : Q) (p : t) : bool * t :=
  if invulnerable p then (false, p)
  else
    let p := set_health (health p - damage) p in
    let p := set_health (Math_max 0 (health p)) p in
    let p :=
      if health p >? 0 then
        let p := set_invulnerable true p in
        set_lastDamageTime now p
      else p in
    (true, p).

Definition constrainToWorld (now : Q) (p : t) : t :=
  let p := set_x (clamp (x p) 0 (2000 - width p)) p in
  if y p >? 1000 then snd (takeDamage now (health p) p) else p.

Definition heal (amount : Q) (p : t) : t :=
  set_health (Math_min (maxHealth p) (health p + amount)) p.

Definition isDead (p : t) : bool := health p <=? 0.

Definition setCheckpoint (x0 y0 : Q) (p : t) : t :=
  let p := set_checkpointX x0 p in
  let p := set_checkpointY y0 p in
  set_lastCheckpointHealth (health p) p.

Definition respawn (now : Q) (p : t) : t :=
  let p := set_x (checkpointX p) p in
  let p := set_y (checkpointY p) p in
  let p := set_velocityX 0 p in
  let p := set_velocityY 0 p in
  let p := set_health (lastCheckpointHealth p) p in
  let p := set_invulnerable true p in
  let p := set_lastDamageTime now p in
  set_isGrounded false p.

Definition reset (x0 y0 : Q) (p : t) : t :=
  let p := set_x x0 p in
  let p := set_y y0 p in
  let p := set_velocityX 0 p in
  let p := set_velocityY 0 p in
  let p := set_health (maxHealth p) p in
  let p := set_invulnerable false p in
  let p := set_isGrounded false p in
  let p := set_facing 1 p in
  let p := set_checkpointX x0 p in
  let p := set_checkpointY y0 p in
  let p := set_lastCheckpointHealth (maxHealth p) p in
  let p := set_canDoubleJump false p in
  set_hasDoubleJumped false p.

Definition getCenter (p : t) : Q * Q :=
  (x p + width p / 2, y p + height p / 2).

Definition setInput (key : Key) (pressed : bool) (p : t) : t :=
  match key with
  | KeyJump => set_keys (Keys.set_jumpPressed pressed (keys p)) p
  | KeyLeft => set_keys (Keys.set_left pressed (keys p)) p
  | KeyRight => set_keys (Keys.set_right pressed (keys p)) p
  end.

(** [update(deltaTime, platforms)]; [now] is the clock the frame
    reads. *)
Definition update {A : Type} `{HasRect A} (now deltaTime : Q)
    (platforms : list A) (p : t) : t :=
  let p := handleInput p in
  let p := updatePhysics deltaTime p in
  let p := handlePlatformCollisions platforms p in
  let p := updateAnimation deltaTime p in
  let p := updateInvulnerability now p in
  constrainToWorld now p.

End Player.

(** ** class Platform *)

Module Particle.
(** A decay particle of a crumbling platform (its colour is left
    out). *)
Record t : Type := make {
  x : Q; y : Q; velocityX : Q; velocityY : Q; size : Q; life : Q; age : Q
}.
End Particle.

Module BounceAnimation.
Record t : Type := make {
  active : bool; scale : Q; timer : Q; duration : Q
}.
Definition eta (b : t) : t := make (active b) (scale b) (timer b) (duration b).
Ltac assign b proj v :=
  let e := eval cbv beta delta [eta] in (eta b) in update_field e proj v.
Definition set_active (v : bool) (b : t) : t := ltac:(assign b (active b) v).
Definition set_scale (v : Q) (b : t) : t := ltac:(assign b (scale b) v).
Definition set_timer (v : Q) (b : t) : t := ltac:(assign b (timer b) v).
End BounceAnimation.

Module Platform.

Inductive Kind : Type := Static | Moving | Crumbling | Bouncy.
Inductive Axis : Type := Horizontal | Vertical.
Inductive Side : Type := SideNone | SideLeft | SideRight | SideTop | SideBottom.

(** The fields [color], [texture] and [shadowOffset] are read by the
    render methods only and are left out. *)
Record t : Type := make {
  x : Q; y : Q; width : Q; height : Q;
  originalX : Q; originalY : Q;
  type : Kind;
  moveSpeed : Q; moveDistance : Q; moveDirection : Q; moveAxis : Axis;
  moveTimer : Q;
  crumbleTimer : Q; crumbleDelay : Q; isCrumbling : bool; isPlayerOn : bool;
  crumbleParticles : list Particle.t;
  bounceForce : Q;
  bounceAnimation : BounceAnimation.t
}.

Definition eta (pl : t) : t :=
  make (x pl) (y pl) (width pl) (height pl) (originalX pl) (originalY pl)
    (type pl) (moveSpeed pl) (moveDistance pl) (moveDirection pl)
    (moveAxis pl) (moveTimer pl) (crumbleTimer pl) (crumbleDelay pl)
    (isCrumbling pl) (isPlayerOn pl) (crumbleParticles pl) (bounceForce pl)
    (bounceAnimation pl).

Ltac assign pl proj v :=
  let e := eval cbv beta delta [eta] in (eta pl) in update_field e proj v.

Definition set_x (v : Q) (pl : t) : t := ltac:(assign pl (x pl) v).
Definition set_y (v : Q) (pl : t) : t := ltac:(assign pl (y pl) v).
Definition set_moveDirection (v : Q) (pl : t) : t :=
  ltac:(assign pl (moveDirection pl) v).
Definition set_crumbleTimer (v : Q) (pl : t) : t :=
  ltac:(assign pl (crumbleTimer pl) v).
Definition set_isCrumbling (v : bool) (pl : t) : t :=
  ltac:(assign pl (isCrumbling pl) v).
Definition set_isPlayerOn (v : bool) (pl : t) : t :=
  ltac:(assign pl (isPlayerOn pl) v).
Definition set_crumbleParticles (v : list Particle.t) (pl : t) : t :=
  ltac:(assign pl (crumbleParticles pl) v).
Definition set_bounceAnimation (v : BounceAnimation.t) (pl : t) : t :=
  ltac:(assign pl (bounceAnimation pl) v).

#[global] Instance Platform_HasRect : HasRect t :=
  fun pl => Rect.make (x pl) (y pl) (width pl) (height pl).

(** [new Platform(x, y, width, height, type)]. *)
Definition new (x0 y0 width0 height0 : Q) (type0 : Kind) : t :=
  {| x := x0; y := y0; width := width0; height := height0;
     originalX := x0; originalY := y0;
     type := type0;
     moveSpeed := 1; moveDistance := 100; moveDirection := 1;
     moveAxis := Horizontal; moveTimer := 0;
     crumbleTimer := 0; crumbleDelay := 1000; isCrumbling := false;
     isPlayerOn := false; crumbleParticles := [];
     bounceForce := 20;
     bounceAnimation := BounceAnimation.make false 1 0 200 |}.

Definition updateMovement (deltaTime : Q) (pl : t) : t :=
  match moveAxis pl with
  | Horizontal =>
      let pl := set_x (x pl + moveDirection pl * moveSpeed pl) pl in
      if x pl >=? originalX pl + moveDistance pl then
        let pl := set_x (originalX pl + moveDistance pl) pl in
        set_moveDirection (-1) pl
      else if x pl <=? originalX pl - moveDistance pl then
        let pl := set_x (originalX pl - moveDistance pl) pl in
        set_moveDirection 1 pl
      else pl
  | Vertical =>
      let pl := set_y (y pl + moveDirection pl * moveSpeed pl) pl in
      if y pl >=? originalY pl + moveDistance pl then
        let pl := set_y (originalY pl + moveDistance pl) pl in
        set_moveDirection (-1) pl
      else if y pl <=? originalY pl - moveDistance pl then
        let pl := set_y (originalY pl - moveDistance pl) pl in
        set_moveDirection 1 pl
      else pl
  end.

(** [createCrumbleParticles] pushes fifteen particles drawn with
    [Math.random]; the drawn particles are the argument [fresh]. *)
Definition createCrumbleParticles (fresh : list Particle.t) (pl : t) : t :=
  set_crumbleParticles (crumbleParticles pl ++ fresh) pl.

Definition startCrumbling (fresh : list Particle.t) (pl : t) : t :=
  let pl := set_isCrumbling true pl in
  createCrumbleParticles fresh pl.

Definition updateCrumbling (deltaTime : Q) (player : option Player.t)
    (fresh : list Particle.t) (pl : t) : t :=
  let wasPlayerOn := isPlayerOn pl in
  let pl := set_isPlayerOn false pl in
  let pl :=
    match player with
    | Some player =>
        if checkCollision player pl then
          let playerBottom := Player.y player + Player.height player in
          let platformTop := y pl in
          if (playerBottom <=? platformTop + 10)
             && (Player.velocityY player >=? 0)
          then set_isPlayerOn true pl
          else pl
        else pl
    | None => pl
    end in
  let pl :=
    if isPlayerOn pl && negb wasPlayerOn && negb (isCrumbling pl)
    then set_crumbleTimer 0 pl
    else pl in
  if isPlayerOn pl && negb (isCrumbling pl) then
    let pl := set_crumbleTimer (crumbleTimer pl + deltaTime) pl in
    if crumbleTimer pl >=? crumbleDelay pl then startCrumbling fresh pl
    else pl
  else pl.

Definition stepParticle (deltaTime : Q) (q : Particle.t) : Particle.t :=
  Particle.make
    (Particle.x q + Particle.velocityX q)
    (Particle.y q + Particle.velocityY q)
    (Particle.velocityX q)
    (Particle.velocityY q + 0.2)
    (Particle.size q) (Particle.life q)
    (Particle.age q + deltaTime).

(** Every particle ages; the ones whose age reached their life are
    spliced out. *)
Definition updateCrumbleParticles (deltaTime : Q) (pl : t) : t :=
  set_crumbleParticles
    (filter (fun q => negb (Particle.age q >=? Particle.life q))
            (map (stepParticle deltaTime) (crumbleParticles pl))) pl.

Definition updateBouncy {host : MathHost} (deltaTime : Q) (pl : t) : t :=
  let b := bounceAnimation pl in
  if BounceAnimation.active b then
    let b := BounceAnimation.set_timer (BounceAnimation.timer b + deltaTime) b in
    let progress := BounceAnimation.timer b / BounceAnimation.duration b in
    if progress >=? 1 then
      let b := BounceAnimation.set_active false b in
      set_bounceAnimation (BounceAnimation.set_scale 1 b) pl
    else
      set_bounceAnimation
        (BounceAnimation.set_scale
           (1 - Math_sin (progress * Math_PI) * 0.2) b) pl
  else pl.

Definition update {host : MathHost} (deltaTime : Q)
    (player : option Player.t) (fresh : list Particle.t) (pl : t) : t :=
  let pl :=
    match type pl with
    | Moving => updateMovement deltaTime pl
    | Crumbling => updateCrumbling deltaTime player fresh pl
    | Bouncy => updateBouncy deltaTime pl
    | Static => pl
    end in
  updateCrumbleParticles deltaTime pl.

Definition triggerBounce (pl : t) : t :=
  let b := bounceAnimation pl in
  let b := BounceAnimation.set_active true b in
  let b := BounceAnimation.set_timer 0 b in
  set_bounceAnimation (BounceAnimation.set_scale 1 b) pl.

(** [handlePlayerCollision(player)]: the side reported ([None] for
    [null]), the platform and the player. *)
Definition handlePlayerCollision (player : Player.t) (pl : t)
    : option Side * t * Player.t :=
  if negb (checkCollision pl player) then (None, pl, player)
  else
    let overlapX :=
      Math_min (Player.x player + Player.width player - x pl)
               (x pl + width pl - Player.x player) in
    let overlapY :=
      Math_min (Player.y player + Player.height player - y pl)
               (y pl + height pl - Player.y player) in
    if overlapX <? overlapY then
      if Player.x player <? x pl then
        let player := Player.set_x (x pl - Player.width player) player in
        (Some SideLeft, pl, Player.set_velocityX 0 player)
      else
        let player := Player.set_x (x pl + width pl) player in
        (Some SideRight, pl, Player.set_velocityX 0 player)
    else
      if Player.y player <? y pl then
        let player := Player.set_y (y pl - Player.height player) player in
        let '(pl, player) :=
          match type pl with
          | Bouncy =>
              (triggerBounce pl,
               Player.set_velocityY (- bounceForce pl) player)
          | _ => (pl, Player.set_velocityY 0 player)
          end in
        let player := Player.set_isGrounded true player in
        let player := Player.set_canDoubleJump false player in
        let player := Player.set_hasDoubleJumped false player in
        let player :=
          match type pl, moveAxis pl with
          | Moving, Horizontal =>
              Player.set_x
                (Player.x player + moveDirection pl * moveSpeed pl) player
          | _, _ => player
          end in
        (Some SideTop, pl, player)
      else
        let player := Player.set_y (y pl + height pl) player in
        (Some SideBottom, pl, Player.set_velocityY 0 player).


Definition providesCollision (pl : t) : bool := negb (isCrumbling pl).

Definition reset (pl : t) : t :=
  let pl := set_x (originalX pl) pl in
  let pl := set_y (originalY pl) pl in
  let pl := set_moveDirection 1 pl in
  let pl := set_crumbleTimer 0 pl in
  let pl := set_isCrumbling false pl in
  let pl := set_isPlayerOn false pl in
  let pl := set_crumbleParticles [] pl in
  let b := BounceAnimation.set_active false (bounceAnimation pl) in
  set_bounceAnimation (BounceAnimation.set_scale 1 b) pl.

End Platform.

(** ** class Enemy *)

Module Enemy.

Inductive Kind : Type := Patrol | Chase.
Inductive Animation : Type := AnimWalk | AnimChase | AnimIdle | AnimDeath.

(** The [frames] entry of [this.animations]. *)
Definition frames (a : Animation) : Q :=
  match a with
  | AnimWalk => 4 | AnimChase => 4 | AnimIdle => 2 | AnimDeath => 3
  end.

Record t : Type := make {
  x : Q; y : Q; width : Q; height : Q;
  velocityX : Q; velocityY : Q; gravity : Q; maxFallSpeed : Q;
  type : Kind;
  speed : Q; direction : Q; patrolDistance : Q; startX : Q;
  detectionRange : Q; chaseSpeed : Q; isChasing : bool;
  lastPlayerPosition : option (Q * Q);
  health : Q; maxHealth : Q; damage : Q; isAlive : bool;
  animationFrame : Q; animationSpeed : Q; animationTimer : Q;
  currentAnimation : Animation;
  isGrounded : bool; canTurnAround : bool;
  turnCooldown : Q; maxTurnCooldown : Q;
  deathTimer : Q; deathDuration : Q; shouldRemove : bool
}.

Definition eta (e : t) : t :=
  make (x e) (y e) (width e) (height e) (velocityX e) (velocityY e)
    (gravity e) (maxFallSpeed e) (type e) (speed e) (direction e)
    (patrolDistance e) (startX e) (detectionRange e) (chaseSpeed e)
    (isChasing e) (lastPlayerPosition e) (health e) (maxHealth e)
    (damage e) (isAlive e) (animationFrame e) (animationSpeed e)
    (animationTimer e) (currentAnimation e) (isGrounded e)
    (canTurnAround e) (turnCooldown e) (maxTurnCooldown e)
    (deathTimer e) (deathDuration e) (shouldRemove e).

Ltac assign e proj v :=
  let r := eval cbv beta delta [eta] in (eta e) in update_field r proj v.

Definition set_x (v : Q) (e : t) : t := ltac:(assign e (x e) v).
Definition set_y (v : Q) (e : t) : t := ltac:(assign e (y e) v).
Definition set_velocityX (v : Q) (e : t) : t :=
  ltac:(assign e (velocityX e) v).
Definition set_velocityY (v : Q) (e : t) : t :=
  ltac:(assign e (velocityY e) v).
Definition set_direction (v : Q) (e : t) : t :=
  ltac:(assign e (direction e) v).
Definition set_isChasing (v : bool) (e : t) : t :=
  ltac:(assign e (isChasing e) v).
Definition set_lastPlayerPosition (v : option (Q * Q)) (e : t) : t :=
  ltac:(assign e (lastPlayerPosition e) v).
Definition set_health (v : Q) (e : t) : t := ltac:(assign e (health e) v).
Definition set_isAlive (v : bool) (e : t) : t :=
  ltac:(assign e (isAlive e) v).
Definition set_animationFrame (v : Q) (e : t) : t :=
  ltac:(assign e (animationFrame e) v).
Definition set_animationTimer (v : Q) (e : t) : t :=
  ltac:(assign e (animationTimer e) v).
Definition set_currentAnimation (v : Animation) (e : t) : t :=
  ltac:(assign e (currentAnimation e) v).
Definition set_isGrounded (v : bool) (e : t) : t :=
  ltac:(assign e (isGrounded e) v).
Definition set_canTurnAround (v : bool) (e : t) : t :=
  ltac:(assign e (canTurnAround e) v).
Definition set_turnCooldown (v : Q) (e : t) : t :=
  ltac:(assign e (turnCooldown e) v).
Definition set_deathTimer (v : Q) (e : t) : t :=
  ltac:(assign e (deathTimer e) v).
Definition set_shouldRemove (v : bool) (e : t) : t :=
  ltac:(assign e (shouldRemove e) v).

#[global] Instance Enemy_HasRect : HasRect t :=
  fun e => Rect.make (x e) (y e) (width e) (height e).

(** [new Enemy(x, y, type)]. *)
Definition new (x0 y0 : Q) (type0 : Kind) : t :=
  {| x := x0; y := y0; width := 28; height := 32;
     velocityX := 0; velocityY := 0; gravity := 0.8; maxFallSpeed := 15;
     type := type0;
     speed := 1.5; direction := 1; patrolDistance := 100; startX := x0;
     detectionRange := 150; chaseSpeed := 2.5; isChasing := false;
     lastPlayerPosition := None;
     health := 50; maxHealth := 50; damage := 20; isAlive := true;
     animationFrame := 0; animationSpeed := 0.2; animationTimer := 0;
     currentAnimation := AnimWalk;
     isGrounded := false; canTurnAround := true;
     turnCooldown := 0; maxTurnCooldown := 500;
     deathTimer := 0; deathDuration := 1000; shouldRemove := false |}.

Definition changeDirection (e : t) : t :=
  if canTurnAround e then
    let e := set_direction (direction e * -1) e in
    let e := set_canTurnAround false e in
    set_turnCooldown (maxTurnCooldown e) e
  else e.

Definition patrol (e : t) : t :=
  let e := set_currentAnimation AnimWalk e in
  let currentSpeed := speed e in
  let distanceFromStart := x e - startX e in
  let e :=
    if (distanceFromStart >=? patrolDistance e) && (direction e >? 0)
    then changeDirection e
    else if (distanceFromStart <=? - patrolDistance e)
            && (direction e <? 0)
    then changeDirection e
    else e in
  set_velocityX (direction e * currentSpeed) e.

Definition chase (player : Player.t) (e : t) : t :=
  let e := set_currentAnimation AnimChase e in
  let playerCenter := Player.x player + Player.width player / 2 in
  let enemyCenter := x e + width e / 2 in
  let e :=
    if playerCenter <? enemyCenter then set_direction (-1) e
    else if playerCenter >? enemyCenter then set_direction 1 e
    else e in
  set_velocityX (direction e * chaseSpeed e) e.

(** The distance [updateAI] computes between the two centres. *)
Definition distanceToPlayer {host : MathHost} (player : Player.t) (e : t)
    : Q :=
  distance (x e + width e / 2) (y e + height e / 2)
           (Player.x player + Player.width player / 2)
           (Player.y player + Player.height player / 2).

Definition updateAI {host : MathHost} (player : option Player.t) (e : t)
    : t :=
  match player with
  | None => patrol (set_isChasing false e)
  | Some player =>
      if Player.isDead player then patrol (set_isChasing false e)
      else
        let distanceToPlayer := distanceToPlayer player e in
        let e :=
          if distanceToPlayer <=? detectionRange e then
            let e := set_isChasing true e in
            let e :=
              set_lastPlayerPosition
                (Some (Player.x player + Player.width player / 2,
                       Player.y player + Player.height player / 2)) e in
            chase player e
          else if isChasing e
                  && (distanceToPlayer >? detectionRange e * 1.5) then
            let e := set_isChasing false e in
            set_lastPlayerPosition None e
          else e in
        if negb (isChasing e) then patrol e else e
  end.

Definition updateTurnCooldown (deltaTime : Q) (e : t) : t :=
  if turnCooldown e >? 0 then
    let e := set_turnCooldown (turnCooldown e - deltaTime) e in
    if turnCooldown e <=? 0 then set_canTurnAround true e else e
  else e.

Definition updatePhysics (deltaTime : Q) (e : t) : t :=
  let e :=
    if negb (isGrounded e) then set_velocityY (velocityY e + gravity e) e
    else e in
  let e := set_velocityY (clamp (velocityY e) (-20) (maxFallSpeed e)) e in
  let e := set_x (x e + velocityX e) e in
  set_y (y e + velocityY e) e.

(** The body of the loop of [handlePlatformCollisions]; the boolean is
    the local [hitWall]. *)
Definition resolvePlatform {A : Type} `{HasRect A} (st : t * bool)
    (platform : A) : t * bool :=
  let '(e, hitWall) := st in
  let pl := getRect platform in
  if checkCollision e platform then
    let overlapX :=
      Math_min (x e + width e - Rect.x pl)
               (Rect.x pl + Rect.width pl - x e) in
    let overlapY :=
      Math_min (y e + height e - Rect.y pl)
               (Rect.y pl + Rect.height pl - y e) in
    if overlapX <? overlapY then
      let e :=
        if x e <? Rect.x pl then set_x (Rect.x pl - width e) e
        else set_x (Rect.x pl + Rect.width pl) e in
      (set_velocityX 0 e, true)
    else
      if y e <? Rect.y pl then
        let e := set_y (Rect.y pl - height e) e in
        let e := set_velocityY 0 e in
        (set_isGrounded true e, hitWall)
      else
        let e := set_y (Rect.y pl + Rect.height pl) e in
        (set_velocityY 0 e, hitWall)
  else (e, hitWall).

Definition checkForEdges {A : Type} `{HasRect A} (platforms : list A)
    (e : t) : t :=
  let futureX := x e + direction e * 20 in
  let futureY := y e + height e + 10 in
  let foundGround :=
    existsb (fun platform =>
      let pl := getRect platform in
      (futureX + width e >? Rect.x pl) &&
      (futureX <? Rect.x pl + Rect.width pl) &&
      (futureY >? Rect.y pl) &&
      (futureY <? Rect.y pl + Rect.height pl)) platforms in
  if negb foundGround then changeDirection e else e.

Definition handlePlatformCollisions {A : Type} `{HasRect A}
    (platforms : list A) (e : t) : t :=
  let e := set_isGrounded false e in
  let '(e, hitWall) := fold_left resolvePlatform platforms (e, false) in
  let e := if hitWall && negb (isChasing e) then changeDirection e else e in
  if isGrounded e && negb (isChasing e) then checkForEdges platforms e
  else e.

Definition updateAnimation (deltaTime : Q) (e : t) : t :=
  let e := set_animationTimer (animationTimer e + deltaTime) e in
  if animationTimer e >=? animationSpeed e then
    let e := set_animationFrame (animationFrame e + 1) e in
    let maxFrames := frames (currentAnimation e) in
    let e :=
      if animationFrame e >=? maxFrames then set_animationFrame 0 e
      else e in
    set_animationTimer 0 e
  else e.

Definition updateDeath (deltaTime : Q) (e : t) : t :=
  let e := set_currentAnimation AnimDeath e in
  let e := set_deathTimer (deathTimer e + deltaTime) e in
  if deathTimer e >=? deathDuration e then set_shouldRemove true e else e.

Definition die (e : t) : t :=
  let e := set_isAlive false e in
  let e := set_velocityX 0 e in
  set_deathTimer 0 e.

(** Returns whether the enemy died from this damage, and the enemy. *)
Definition takeDamage (damage : Q) (e : t) : bool * t :=
  if negb (isAlive e) then (false, e)
  else
    let e := set_health (health e - damage) e in
    let e := set_health (Math_max 0 (health e)) e in
    if health e <=? 0 then (true, die e) else (false, e).

(** [checkPlayerCollision(player)]: the boolean returned, the enemy and
    the player. *)
Definition checkPlayerCollision (now : Q) (player : option Player.t)
    (e : t) : bool * t * option Player.t :=
  match player with
  | None => (false, e, None)
  | Some player =>
      if negb (isAlive e) || Player.isDead player
      then (false, e, Some player)
      else if checkCollision e player then
        let playerBottom := Player.y player + Player.height player in
        let enemyTop := y e in
        if (playerBottom <=? enemyTop + 10)
           && (Player.velocityY player >? 0) then
          let e := snd (takeDamage (maxHealth e) e) in
          let player := Player.set_velocityY (-8) player in
          (false, e, Some player)
        else
          let '(applied, player) :=
            Player.takeDamage now (damage e) player in
          (applied, e, Some player)
      else (false, e, Some player)
  end.

Definition update {host : MathHost} {A : Type} `{HasRect A}
    (deltaTime : Q) (platforms : list A) (player : option Player.t)
    (e : t) : t :=
  if negb (isAlive e) then updateDeath deltaTime e
  else
    let e := updateAI player e in
    let e := updatePhysics deltaTime e in
    let e := handlePlatformCollisions platforms e in
    let e := updateAnimation deltaTime e in
    updateTurnCooldown deltaTime e.

Definition shouldBeRemoved (e : t) : bool := shouldRemove e.

Definition reset (e : t) : t :=
  let e := set_x (startX e) e in
  let e := set_velocityX 0 e in
  let e := set_velocityY 0 e in
  let e := set_health (maxHealth e) e in
  let e := set_isAlive true e in
  let e := set_isChasing false e in
  let e := set_direction 1 e in
  let e := set_deathTimer 0 e in
  let e := set_shouldRemove false e in
  let e := set_canTurnAround true e in
  let e := set_turnCooldown 0 e in
  set_lastPlayerPosition None e.

End Enemy.

(** ** class Collectible *)

Module CollectionAnimation.
Record t : Type := make {
  active : bool; scale : Q; alpha : Q; duration : Q; timer : Q
}.
Definition eta (a : t) : t :=
  make (active a) (scale a) (alpha a) (duration a) (timer a).
Ltac assign a proj v :=
  let e := eval cbv beta delta [eta] in (eta a) in update_field e proj v.
Definition set_active (v : bool) (a : t) : t := ltac:(assign a (active a) v).
Definition set_scale (v : Q) (a : t) : t := ltac:(assign a (scale a) v).
Definition set_alpha (v : Q) (a : t) : t := ltac:(assign a (alpha a) v).
Definition set_timer (v : Q) (a : t) : t := ltac:(assign a (timer a) v).
End CollectionAnimation.

Module Collectible.

Inductive Kind : Type := Coin | Gem | Health | Star.
Inductive Effect : Type := Score | HealthEffect | Special.

(** The [value] and [frames] entries of [this.types]. *)
Definition typeValue (k : Kind) : Q :=
  match k with Coin => 10 | Gem => 50 | Health => 25 | Star => 100 end.
Definition typeFrames (k : Kind) : Q :=
  match k with Coin => 8 | Gem => 6 | Health => 4 | Star => 8 end.

(** The object [collect] returns. *)
Record Collection : Type := mkCollection {
  collectionType : Kind; collectionValue : Q; collectionEffect : Effect
}.

Record t : Type := make {
  x : Q; y : Q; originalY : Q; width : Q; height : Q;
  type : Kind; value : Q; collected : bool;
  animationFrame : Q; animationSpeed : Q; animationTimer : Q;
  maxFrames : Q;
  bobOffset : Q; bobSpeed : Q; bobHeight : Q;
  rotation : Q; rotationSpeed : Q;
  glowIntensity : Q; glowDirection : Q; glowSpeed : Q;
  collectionAnimation : CollectionAnimation.t;
  magneticRange : Q; magneticSpeed : Q; isBeingAttracted : bool
}.

Definition eta (c : t) : t :=
  make (x c) (y c) (originalY c) (width c) (height c) (type c) (value c)
    (collected c) (animationFrame c) (animationSpeed c) (animationTimer c)
    (maxFrames c) (bobOffset c) (bobSpeed c) (bobHeight c) (rotation c)
    (rotationSpeed c) (glowIntensity c) (glowDirection c) (glowSpeed c)
    (collectionAnimation c) (magneticRange c) (magneticSpeed c)
    (isBeingAttracted c).

Ltac assign c proj v :=
  let e := eval cbv beta delta [eta] in (eta c) in update_field e proj v.

Definition set_x (v : Q) (c : t) : t := ltac:(assign c (x c) v).
Definition set_y (v : Q) (c : t) : t := ltac:(assign c (y c) v).
Definition set_collected (v : bool) (c : t) : t :=
  ltac:(assign c (collected c) v).
Definition set_animationFrame (v : Q) (c : t) : t :=
  ltac:(assign c (animationFrame c) v).
Definition set_animationTimer (v : Q) (c : t) : t :=
  ltac:(assign c (animationTimer c) v).
Definition set_bobOffset (v : Q) (c : t) : t :=
  ltac:(assign c (bobOffset c) v).
Definition set_rotation (v : Q) (c : t) : t :=
  ltac:(assign c (rotation c) v).
Definition set_glowIntensity (v : Q) (c : t) : t :=
  ltac:(assign c (glowIntensity c) v).
Definition set_glowDirection (v : Q) (c : t) : t :=
  ltac:(assign c (glowDirection c) v).
Definition set_collectionAnimation (v : CollectionAnimation.t) (c : t) : t :=
  ltac:(assign c (collectionAnimation c) v).
Definition set_isBeingAttracted (v : bool) (c : t) : t :=
  ltac:(assign c (isBeingAttracted c) v).

#[global] Instance Collectible_HasRect : HasRect t :=
  fun c => Rect.make (x c) (y c) (width c) (height c).

(** [new Collectible(x, y, type, value)]: [updateTypeProperties]
    replaces the [value] argument by the one of the type's table entry
    and sets [maxFrames]. *)
Definition new (x0 y0 : Q) (type0 : Kind) (value0 : Q) : t :=
  {| x := x0; y := y0; originalY := y0; width := 24; height := 24;
     type := type0; value := typeValue type0; collected := false;
     animationFrame := 0; animationSpeed := 0.15; animationTimer := 0;
     maxFrames := typeFrames type0;
     bobOffset := 0; bobSpeed := 0.05; bobHeight := 8;
     rotation := 0; rotationSpeed := 0.1;
     glowIntensity := 0; glowDirection := 1; glowSpeed := 0.03;
     collectionAnimation := CollectionAnimation.make false 1 1 500 0;
     magneticRange := 60; magneticSpeed := 3; isBeingAttracted := false |}.

Definition getCenter (c : t) : Q * Q :=
  (x c + width c / 2, y c + height c / 2).

Definition updateAnimation (deltaTime : Q) (c : t) : t :=
  let c := set_animationTimer (animationTimer c + deltaTime) c in
  if animationTimer c >=? animationSpeed c then
    let c := set_animationFrame (animationFrame c + 1) c in
    let c :=
      if animationFrame c >=? maxFrames c then set_animationFrame 0 c
      else c in
    set_animationTimer 0 c
  else c.

Definition updateBobbing {host : MathHost} (deltaTime : Q) (c : t) : t :=
  let c := set_bobOffset (bobOffset c + bobSpeed c) c in
  set_y (originalY c + Math_sin (bobOffset c) * bobHeight c) c.

Definition updateRotation {host : MathHost} (deltaTime : Q) (c : t) : t :=
  let c := set_rotation (rotation c + rotationSpeed c) c in
  if rotation c >=? Math_PI * 2 then set_rotation 0 c else c.

Definition updateGlow (deltaTime : Q) (c : t) : t :=
  let c :=
    set_glowIntensity (glowIntensity c + glowDirection c * glowSpeed c) c in
  if glowIntensity c >=? 1 then
    let c := set_glowIntensity 1 c in
    set_glowDirection (-1) c
  else if glowIntensity c <=? 0.3 then
    let c := set_glowIntensity 0.3 c in
    set_glowDirection 1 c
  else c.

Definition updateMagneticAttraction {host : MathHost} (player : Player.t)
    (deltaTime : Q) (c : t) : t :=
  let playerCenter := Player.getCenter player in
  let collectibleCenter := getCenter c in
  let dist :=
    distance (fst collectibleCenter) (snd collectibleCenter)
             (fst playerCenter) (snd playerCenter) in
  if dist <=? magneticRange c then
    let c := set_isBeingAttracted true c in
    let dx := fst playerCenter - fst collectibleCenter in
    let dy := snd playerCenter - snd collectibleCenter in
    let magnitude := Math_sqrt (dx * dx + dy * dy) in
    if magnitude >? 0 then
      let normalizedDx := dx / magnitude in
      let normalizedDy := dy / magnitude in
      let attractionMultiplier :=
        (magneticRange c - dist) / magneticRange c in
      let speed := magneticSpeed c * attractionMultiplier * 2 in
      let c := set_x (x c + normalizedDx * speed) c in
      set_y (y c + normalizedDy * speed) c
    else c
  else set_isBeingAttracted false c.

Definition updateCollectionAnimation (deltaTime : Q) (c : t) : t :=
  let a := collectionAnimation c in
  let a := CollectionAnimation.set_timer
             (CollectionAnimation.timer a + deltaTime) a in
  let progress :=
    CollectionAnimation.timer a / CollectionAnimation.duration a in
  if progress >=? 1 then
    set_collectionAnimation (CollectionAnimation.set_active false a) c
  else
    let a := CollectionAnimation.set_scale (1 + progress * 2) a in
    let a := CollectionAnimation.set_alpha (1 - progress) a in
    let c := set_collectionAnimation a c in
    set_y (y c - 2) c.

Definition update {host : MathHost} (deltaTime : Q)
    (player : option Player.t) (c : t) : t :=
  if collected c && negb (CollectionAnimation.active (collectionAnimation c))
  then c
  else
    let c := updateAnimation deltaTime c in
    let c := updateBobbing deltaTime c in
    let c := updateRotation deltaTime c in
    let c := updateGlow deltaTime c in
    let c :=
      match player with
      | Some player =>
          if negb (collected c)
          then updateMagneticAttraction player deltaTime c
          else c
      | None => c
      end in
    if CollectionAnimation.active (collectionAnimation c)
    then updateCollectionAnimation deltaTime c
    else c.

Definition getCollectionEffect (c : t) : Effect :=
  match type c with
  | Health => HealthEffect
  | Star => Special
  | _ => Score
  end.

(** [collect()]: the object returned ([None] for [null]) and the
    collectible. *)
Definition collect (c : t) : option Collection * t :=
  if collected c then (None, c)
  else
    let c := set_collected true c in
    let a := collectionAnimation c in
    let a := CollectionAnimation.set_active true a in
    let a := CollectionAnimation.set_timer 0 a in
    let a := CollectionAnimation.set_scale 1 a in
    let a := CollectionAnimation.set_alpha 1 a in
    let c := set_collectionAnimation a c in
    (Some (mkCollection (type c) (value c) (getCollectionEffect c)), c).

Definition checkPlayerCollision (player : option Player.t) (c : t)
    : option Collection * t :=
  match player with
  | None => (None, c)
  | Some player =>
      if collected c then (None, c)
      else if checkCollision c player then collect c
      else (None, c)
  end.


Definition reset (c : t) : t :=
  let c := set_collected false c in
  let c :=
    set_collectionAnimation
      (CollectionAnimation.set_active false (collectionAnimation c)) c in
  let c := set_y (originalY c) c in
  let c := set_bobOffset 0 c in
  let c := set_rotation 0 c in
  let c := set_glowIntensity 0.3 c in
  let c := set_glowDirection 1 c in
  set_isBeingAttracted false c.

End Collectible.

(** ** class Camera: target following *)

Module Vec.
Record t : Type := make { x : Q; y : Q }.
End Vec.

Module Target.
(** What [updateTargetFollowing] reads of [this.target]: [width],
    [height] and [velocityX] may be undefined. *)
Record t : Type := make {
  x : Q; y : Q;
  width : option Q; height : option Q; velocityX : option Q
}.
End Target.

Module Camera.

(** The fields [updateTargetFollowing] reads or writes. *)
Record t : Type := make {
  x : Q; y : Q; width : Q; height : Q;
  targetOffset : Vec.t;
  followSpeed : Q; lookahead : Q;
  deadzone : Vec.t;
  velocity : Vec.t; smoothing : Q
}.

Definition eta (c : t) : t :=
  make (x c) (y c) (width c) (height c) (targetOffset c) (followSpeed c)
    (lookahead c) (deadzone c) (velocity c) (smoothing c).

Ltac assign c proj v :=
  let e := eval cbv beta delta [eta] in (eta c) in update_field e proj v.

Definition set_x (v : Q) (c : t) : t := ltac:(assign c (x c) v).
Definition set_y (v : Q) (c : t) : t := ltac:(assign c (y c) v).
Definition set_velocity (v : Vec.t) (c : t) : t :=
  ltac:(assign c (velocity c) v).

(** [new Camera(canvasWidth, canvasHeight, worldWidth, worldHeight)]. *)
Definition new (canvasWidth canvasHeight worldWidth worldHeight : Q) : t :=
  {| x := 0; y := 0; width := canvasWidth; height := canvasHeight;
     targetOffset := Vec.make 0 0;
     followSpeed := 0.1; lookahead := 50;
     deadzone := Vec.make (canvasWidth * 0.3) (canvasHeight * 0.2);
     velocity := Vec.make 0 0; smoothing := 0.8 |}.

(** [v || 0] for a field that may be undefined. *)
Definition orZero (v : option Q) : Q :=
  match v with Some w => w | None => 0 end.

Definition updateTargetFollowing (deltaTime : Q) (target : Target.t)
    (c : t) : t :=
  let targetX :=
    Target.x target + orZero (Target.width target) / 2
    + Vec.x (targetOffset c) in
  let targetY :=
    Target.y target + orZero (Target.height target) / 2
    + Vec.y (targetOffset c) in
  let desiredX := targetX - width c / 2 in
  let desiredY := targetY - height c / 2 in
  let desiredX :=
    match Target.velocityX target with
    | Some velocityX =>
        let lookaheadX := velocityX * lookahead c in
        desiredX + lookaheadX
    | None => desiredX
    end in
  let currentCenterX := x c + width c / 2 in
  let currentCenterY := y c + height c / 2 in
  let deltaX := targetX - currentCenterX in
  let deltaY := targetY - currentCenterY in
  let desiredX :=
    if Math_abs deltaX >? Vec.x (deadzone c) then
      let moveX := deltaX - Math_sign deltaX * Vec.x (deadzone c) in
      x c + moveX
    else x c in
  let desiredY :=
    if Math_abs deltaY >? Vec.y (deadzone c) then
      let moveY := deltaY - Math_sign deltaY * Vec.y (deadzone c) in
      y c + moveY
    else y c in
  let c :=
    set_velocity
      (Vec.make
         (lerp (Vec.x (velocity c)) ((desiredX - x c) * followSpeed c)
               (smoothing c))
         (Vec.y (velocity c))) c in
  let c :=
    set_velocity
      (Vec.make
         (Vec.x (velocity c))
         (lerp (Vec.y (velocity c)) ((desiredY - y c) * followSpeed c)
               (smoothing c))) c in
  let c := set_x (x c + Vec.x (velocity c)) c in
  set_y (y c + Vec.y (velocity c)) c.

(** The reading of the specification: the same update with the
    lookahead term deleted.  It is compared with
    [updateTargetFollowing], never used in its place. *)
Definition updateTargetFollowing_no_lookahead (deltaTime : Q)
    (target : Target.t) (c : t) : t :=
  let targetX :=
    Target.x target + orZero (Target.width target) / 2
    + Vec.x (targetOffset c) in
  let targetY :=
    Target.y target + orZero (Target.height target) / 2
    + Vec.y (targetOffset c) in
  let deltaX := targetX - (x c + width c / 2) in
  let deltaY := targetY - (y c + height c / 2) in
  let desiredX :=
    if Math_abs deltaX >? Vec.x (deadzone c)
    then x c + (deltaX - Math_sign deltaX * Vec.x (deadzone c))
    else x c in
  let desiredY :=
    if Math_abs deltaY >? Vec.y (deadzone c)
    then y c + (deltaY - Math_sign deltaY * Vec.y (deadzone c))
    else y c in
  let vx :=
    lerp (Vec.x (velocity c)) ((desiredX - x c) * followSpeed c)
         (smoothing c) in
  let vy :=
    lerp (Vec.y (velocity c)) ((desiredY - y c) * followSpeed c)
         (smoothing c) in
  make (x c + vx) (y c + vy) (width c) (height c) (targetOffset c)
    (followSpeed c) (lookahead c) (deadzone c) (Vec.make vx vy)
    (smoothing c).


End Camera.

(** ** player.js: class Checkpoint

    Only the activation logic is embedded; the animation, glow, pulse and
    particle fields feed the render methods. *)

Module Checkpoint.

Record t : Type := make {
  x : Q; y : Q; width : Q; height : Q;
  activated : bool; wasPlayerNear : bool; activationRange : Q
}.

Definition new (x0 y0 : Q) : t := make x0 y0 32 64 false false 40.

Definition getCenter (c : t) : Q * Q :=
  (x c + width c / 2, y c + height c / 2).

Definition activate (player : Player.t) (c : t) : t * Player.t :=
  if activated c then (c, player)
  else
    let c := make (x c) (y c) (width c) (height c) true (wasPlayerNear c)
               (activationRange c) in
    (c, Player.setCheckpoint
          (x c + width c / 2 - Player.width player / 2)
          (y c + height c - Player.height player) player).

Definition checkPlayerActivation {host : MathHost} (player : Player.t)
    (c : t) : t * Player.t :=
  let playerCenter := Player.getCenter player in
  let checkpointCenter := getCenter c in
  let dist :=
    distance (fst playerCenter) (snd playerCenter)
             (fst checkpointCenter) (snd checkpointCenter) in
  let isPlayerNear := dist <=? activationRange c in
  let '(c, player) :=
    if isPlayerNear && negb (wasPlayerNear c) then activate player c
    else (c, player) in
  (make (x c) (y c) (width c) (height c) (activated c) isPlayerNear
     (activationRange c), player).

Definition update {host : MathHost} (deltaTime : Q) (player : Player.t)
    (c : t) : t * Player.t :=
  if negb (activated c) then checkPlayerActivation player c
  else (c, player).

Definition reset (c : t) : t :=
  make (x c) (y c) (width c) (height c) false false (activationRange c).

End Checkpoint.

(** ** class Level: the per-frame update *)

Module Level.

Record t : Type := make {
  platforms : list Platform.t;
  enemies : list Enemy.t;
  collectibles : list Collectible.t;
  checkpoints : list Checkpoint.t;
  goalX : Q; goalY : Q;
  completed : bool;
  timeLimit : option Q;
  startTime : Q
}.

Definition eta (l : t) : t :=
  make (platforms l) (enemies l) (collectibles l) (checkpoints l)
    (goalX l) (goalY l) (completed l) (timeLimit l) (startTime l).

Ltac assign l proj v :=
  let e := eval cbv beta delta [eta] in (eta l) in update_field e proj v.

Definition set_platforms (v : list Platform.t) (l : t) : t :=
  ltac:(assign l (platforms l) v).
Definition set_enemies (v : list Enemy.t) (l : t) : t :=
  ltac:(assign l (enemies l) v).
Definition set_collectibles (v : list Collectible.t) (l : t) : t :=
  ltac:(assign l (collectibles l) v).
Definition set_checkpoints (v : list Checkpoint.t) (l : t) : t :=
  ltac:(assign l (checkpoints l) v).
Definition set_completed (v : bool) (l : t) : t :=
  ltac:(assign l (completed l) v).
Definition set_startTime (v : Q) (l : t) : t :=
  ltac:(assign l (startTime l) v).

(** [fresh i] is the particle burst [Math.random] draws for the
    platform at index [i] should it start to crumble in this frame. *)
Fixpoint updatePlatforms {host : MathHost} (deltaTime : Q)
    (player : Player.t) (fresh : nat -> list Particle.t) (i : nat)
    (pls : list Platform.t) : list Platform.t :=
  match pls with
  | [] => []
  | pl :: rest =>
      Platform.update deltaTime (Some player) (fresh i) pl
      :: updatePlatforms deltaTime player fresh (S i) rest
  end.

(** The loop runs from the last enemy to the first and splices out the
    enemies flagged for removal; an enemy's update reads no other
    enemy. *)
Definition updateEnemies {host : MathHost} (deltaTime : Q)
    (pls : list Platform.t) (player : Player.t) (es : list Enemy.t)
    : list Enemy.t :=
  fold_right
    (fun enemy kept =>
       let enemy := Enemy.update deltaTime pls (Some player) enemy in
       if Enemy.shouldBeRemoved enemy then kept else enemy :: kept)
    [] es.

Fixpoint updateCheckpoints {host : MathHost} (deltaTime : Q)
    (player : Player.t) (cps : list Checkpoint.t)
    : list Checkpoint.t * Player.t :=
  match cps with
  | [] => ([], player)
  | cp :: rest =>
      let '(cp, player) := Checkpoint.update deltaTime player cp in
      let '(rest, player) := updateCheckpoints deltaTime player rest in
      (cp :: rest, player)
  end.

Definition checkLevelCompletion {host : MathHost} (player : Player.t)
    (l : t) : t :=
  if completed l then l
  else
    let playerCenter := Player.getCenter player in
    let goalDistance :=
      distance (fst playerCenter) (snd playerCenter) (goalX l) (goalY l) in
    if goalDistance <=? 50 then set_completed true l else l.

Definition update {host : MathHost} (deltaTime : Q) (player : Player.t)
    (fresh : nat -> list Particle.t) (l : t) : t * Player.t :=
  let l :=
    set_platforms (updatePlatforms deltaTime player fresh 0 (platforms l))
      l in
  let l :=
    set_enemies (updateEnemies deltaTime (platforms l) player (enemies l))
      l in
  let l :=
    set_collectibles
      (map (Collectible.update deltaTime (Some player)) (collectibles l))
      l in
  let '(cps, player) :=
    updateCheckpoints deltaTime player (checkpoints l) in
  let l := set_checkpoints cps l in
  (checkLevelCompletion player l, player).

(** A time limit of [null] (or 0) is no limit. *)
Definition hasTimeLimit (l : t) : option Q :=
  match timeLimit l with
  | Some limit => if Qeq_bool limit 0 then None else Some limit
  | None => None
  end.

Definition isTimeUp (now : Q) (l : t) : bool :=
  match hasTimeLimit l with
  | None => false
  | Some limit =>
      let elapsed := now - startTime l in
      elapsed >=? limit
  end.

Definition getRemainingTime (now : Q) (l : t) : option Q :=
  match hasTimeLimit l with
  | None => None
  | Some limit =>
      let elapsed := now - startTime l in
      Some (Math_max 0 (limit - elapsed))
  end.

Definition reset (now : Q) (l : t) : t :=
  let l := set_completed false l in
  let l := set_startTime now l in
  let l := set_platforms (map Platform.reset (platforms l)) l in
  let l := set_enemies (map Enemy.reset (enemies l)) l in
  let l := set_collectibles (map Collectible.reset (collectibles l)) l in
  set_checkpoints (map Checkpoint.reset (checkpoints l)) l.

End Level.

(** ** class Game: the playing update

    The camera, background, input manager and user interface are outside
    the embedded state; the keys the input manager reports for the frame
    are the argument [input]. *)

Module Input.
Record t : Type := make { left : bool; right : bool; jump : bool }.
End Input.

Module Game.

Inductive State : Type :=
  Loading | Menu | Playing | Paused | GameOver | LevelComplete.

Record t : Type := make {
  state : State;
  score : Q; lives : Q; totalScore : Q;
  player : Player.t;
  currentLevel : Level.t
}.

Definition eta (g : t) : t :=
  make (state g) (score g) (lives g) (totalScore g) (player g)
    (currentLevel g).

Ltac assign g proj v :=
  let e := eval cbv beta delta [eta] in (eta g) in update_field e proj v.

Definition set_state (v : State) (g : t) : t := ltac:(assign g (state g) v).
Definition set_score (v : Q) (g : t) : t := ltac:(assign g (score g) v).
Definition set_lives (v : Q) (g : t) : t := ltac:(assign g (lives g) v).
Definition set_totalScore (v : Q) (g : t) : t :=
  ltac:(assign g (totalScore g) v).
Definition set_player (v : Player.t) (g : t) : t :=
  ltac:(assign g (player g) v).
Definition set_currentLevel (v : Level.t) (g : t) : t :=
  ltac:(assign g (currentLevel g) v).

Definition updatePlayerInput (input : Input.t) (g : t) : t :=
  let p := player g in
  let p := Player.setInput Player.KeyLeft (Input.left input) p in
  let p := Player.setInput Player.KeyRight (Input.right input) p in
  let p := Player.setInput Player.KeyJump (Input.jump input) p in
  set_player p g.

Definition handleCollectibleCollection (collection : Collectible.Collection)
    (g : t) : t :=
  match Collectible.collectionEffect collection with
  | Collectible.Score =>
      set_score (score g + Collectible.collectionValue collection) g
  | Collectible.HealthEffect =>
      set_player
        (Player.heal (Collectible.collectionValue collection) (player g)) g
  | Collectible.Special =>
      set_score (score g + Collectible.collectionValue collection) g
  end.

(** The player-enemy loop of [handleCollisions]. *)
Fixpoint collideEnemies (now : Q) (es : list Enemy.t) (p : Player.t)
    : list Enemy.t * Player.t :=
  match es with
  | [] => ([], p)
  | enemy :: rest =>
      let '(_, enemy, q) := Enemy.checkPlayerCollision now (Some p) enemy in
      let p := match q with Some p' => p' | None => p end in
      let '(rest, p) := collideEnemies now rest p in
      (enemy :: rest, p)
  end.

(** The player-collectible loop of [handleCollisions]; the level's
    collectibles are replaced once the loop is over. *)
Fixpoint collideCollectibles (cs : list Collectible.t) (g : t)
    : list Collectible.t * t :=
  match cs with
  | [] => ([], g)
  | collectible :: rest =>
      let '(collection, collectible) :=
        Collectible.checkPlayerCollision (Some (player g)) collectible in
      let g :=
        match collection with
        | Some collection => handleCollectibleCollection collection g
        | None => g
        end in
      let '(rest, g) := collideCollectibles rest g in
      (collectible :: rest, g)
  end.

Definition handleCollisions (now : Q) (g : t) : t :=
  let '(es, p) :=
    collideEnemies now (Level.enemies (currentLevel g)) (player g) in
  let g := set_player p g in
  let g := set_currentLevel (Level.set_enemies es (currentLevel g)) g in
  let '(cs, g) :=
    collideCollectibles (Level.collectibles (currentLevel g)) g in
  set_currentLevel (Level.set_collectibles cs (currentLevel g)) g.

Definition gameOver (g : t) : t := set_state GameOver g.

Definition calculateTimeBonus (now : Q) (g : t) : Q :=
  match Level.hasTimeLimit (currentLevel g),
        Level.getRemainingTime now (currentLevel g) with
  | Some limit, Some remainingTime =>
      let timeRatio := remainingTime / limit in
      Math_floor (timeRatio * 1000)
  | _, _ => 0
  end.

Definition levelComplete (now : Q) (g : t) : t :=
  let g := set_state LevelComplete g in
  let g := set_totalScore (totalScore g + score g) g in
  let timeBonus := calculateTimeBonus now g in
  let healthBonus := Math_floor (Player.health (player g)) in
  let g := set_score (score g + (timeBonus + healthBonus)) g in
  set_totalScore (totalScore g + (timeBonus + healthBonus)) g.

Definition checkGameConditions (now : Q) (g : t) : t :=
  let g :=
    if Player.isDead (player g) then
      let g := set_lives (lives g - 1) g in
      if lives g <=? 0 then gameOver g
      else set_player (Player.respawn now (player g)) g
    else g in
  let g :=
    if Level.completed (currentLevel g) then levelComplete now g else g in
  if Level.isTimeUp now (currentLevel g) then gameOver g else g.

Definition updatePlaying {host : MathHost} (now deltaTime : Q)
    (input : Input.t) (fresh : nat -> list Particle.t) (g : t) : t :=
  let g := updatePlayerInput input g in
  let g :=
    set_player
      (Player.update now deltaTime (Level.platforms (currentLevel g))
         (player g)) g in
  let '(l, p) := Level.update deltaTime (player g) fresh (currentLevel g) in
  let g := set_player p (set_currentLevel l g) in
  let g := handleCollisions now g in
  checkGameConditions now g.

End Game.

(** ** input.js: class InputManager

    The states of the actions and of the on-screen buttons.  The mouse
    position feeds no game logic and is left out.  The list [touches] is
    read in [handleTouchGestures] only, right after [handleTouchStart]
    or [handleTouchMove] has set it from the event: it is an argument of
    these methods here.
    A state of [keys] that was never written reads as [undefined], which
    every test of the class treats as [false].  The key bindings are the
    table of the constructor; no code of the game rebinds a key. *)

Module ActionStates.
Record t : Type := make {
  left : bool; right : bool; jump : bool;
  confirm : bool; pause : bool; restart : bool
}.
Definition eta (k : t) : t :=
  make (left k) (right k) (jump k) (confirm k) (pause k) (restart k).
Ltac assign k proj v :=
  let e := eval cbv beta delta [eta] in (eta k) in update_field e proj v.
Definition set_left (v : bool) (k : t) : t := ltac:(assign k (left k) v).
Definition set_right (v : bool) (k : t) : t := ltac:(assign k (right k) v).
Definition set_jump (v : bool) (k : t) : t := ltac:(assign k (jump k) v).
Definition set_confirm (v : bool) (k : t) : t :=
  ltac:(assign k (confirm k) v).
Definition set_pause (v : bool) (k : t) : t := ltac:(assign k (pause k) v).
Definition set_restart (v : bool) (k : t) : t :=
  ltac:(assign k (restart k) v).
End ActionStates.

Module MobileControls.
Record t : Type := make { left : bool; right : bool; jump : bool }.
Definition eta (c : t) : t := make (left c) (right c) (jump c).
Ltac assign c proj v :=
  let e := eval cbv beta delta [eta] in (eta c) in update_field e proj v.
Definition set_left (v : bool) (c : t) : t := ltac:(assign c (left c) v).
Definition set_right (v : bool) (c : t) : t := ltac:(assign c (right c) v).
Definition set_jump (v : bool) (c : t) : t := ltac:(assign c (jump c) v).
End MobileControls.

(** A touch of a touch event, and what [handleTouchGestures] reads of
    the canvas: the corner of its bounding rectangle and its size. *)
Module Touch.
Record t : Type := make { clientX : Q; clientY : Q }.
End Touch.

Module Canvas.
Record t : Type := make { left : Q; top : Q; width : Q; height : Q }.
End Canvas.

Module InputManager.

Inductive Action : Type := Left | Right | Jump | Confirm | Pause | Restart.

(** The three on-screen buttons [setupMobileControls] wires. *)
Inductive Button : Type := LeftBtn | RightBtn | JumpBtn.

(** The values of [event.code] the key map binds, and any other one. *)
Inductive KeyCode : Type :=
| ArrowLeft | KeyA | ArrowRight | KeyD | ArrowUp | KeyW | Space
| Enter | Escape | KeyR | OtherKey.

Definition keyMap (code : KeyCode) : option Action :=
  match code with
  | ArrowLeft | KeyA => Some Left
  | ArrowRight | KeyD => Some Right
  | ArrowUp | KeyW | Space => Some Jump
  | Enter => Some Confirm
  | Escape => Some Pause
  | KeyR => Some Restart
  | OtherKey => None
  end.

(** [states[action]] and [states[action] = v]. *)
Definition get (action : Action) (k : ActionStates.t) : bool :=
  match action with
  | Left => ActionStates.left k
  | Right => ActionStates.right k
  | Jump => ActionStates.jump k
  | Confirm => ActionStates.confirm k
  | Pause => ActionStates.pause k
  | Restart => ActionStates.restart k
  end.

Definition set (action : Action) (v : bool) (k : ActionStates.t)
    : ActionStates.t :=
  match action with
  | Left => ActionStates.set_left v k
  | Right => ActionStates.set_right v k
  | Jump => ActionStates.set_jump v k
  | Confirm => ActionStates.set_confirm v k
  | Pause => ActionStates.set_pause v k
  | Restart => ActionStates.set_restart v k
  end.

Record t : Type := make {
  keys : ActionStates.t;
  previousKeys : ActionStates.t;
  mobileControls : MobileControls.t;
  touchActive : bool
}.

Definition eta (m : t) : t :=
  make (keys m) (previousKeys m) (mobileControls m) (touchActive m).

Ltac assign m proj v :=
  let e := eval cbv beta delta [eta] in (eta m) in update_field e proj v.

Definition set_keys (v : ActionStates.t) (m : t) : t :=
  ltac:(assign m (keys m) v).
Definition set_previousKeys (v : ActionStates.t) (m : t) : t :=
  ltac:(assign m (previousKeys m) v).
Definition set_mobileControls (v : MobileControls.t) (m : t) : t :=
  ltac:(assign m (mobileControls m) v).
Definition set_touchActive (v : bool) (m : t) : t :=
  ltac:(assign m (touchActive m) v).

(** [new InputManager()]. *)
Definition new : t :=
  {| keys := ActionStates.make false false false false false false;
     previousKeys := ActionStates.make false false false false false false;
     mobileControls := MobileControls.make false false false;
     touchActive := false |}.

Definition handleKeyDown (code : KeyCode) (m : t) : t :=
  match keyMap code with
  | Some action => set_keys (set action true (keys m)) m
  | None => m
  end.

Definition handleKeyUp (code : KeyCode) (m : t) : t :=
  match keyMap code with
  | Some action => set_keys (set action false (keys m)) m
  | None => m
  end.

(** The listeners of [setupMobileButton]: touchstart and mousedown
    press the button, touchend, mouseup and mouseleave release it. *)
Definition mobileButton (button : Button) (pressed : bool) (m : t) : t :=
  match button with
  | LeftBtn =>
      set_mobileControls
        (MobileControls.set_left pressed (mobileControls m)) m
  | RightBtn =>
      set_mobileControls
        (MobileControls.set_right pressed (mobileControls m)) m
  | JumpBtn =>
      set_mobileControls
        (MobileControls.set_jump pressed (mobileControls m)) m
  end.

Definition resetSwipeControls (m : t) : t :=
  let m :=
    if negb (MobileControls.left (mobileControls m))
       && negb (MobileControls.right (mobileControls m))
    then
      let m := set_keys (ActionStates.set_left false (keys m)) m in
      set_keys (ActionStates.set_right false (keys m)) m
    else m in
  if negb (MobileControls.jump (mobileControls m))
  then set_keys (ActionStates.set_jump false (keys m)) m
  else m.

(** [handleTouchGestures(event)], with the touches of the event and
    the canvas, if the document has one. *)
Definition handleTouchGestures (touches : list Touch.t)
    (canvas : option Canvas.t) (m : t) : t :=
  match touches with
  | [] => m
  | touch :: _ =>
      match canvas with
      | None => m
      | Some canvas =>
          let touchX := Touch.clientX touch - Canvas.left canvas in
          let touchY := Touch.clientY touch - Canvas.top canvas in
          let centerX := Canvas.width canvas / 2 in
          let centerY := Canvas.height canvas / 2 in
          let m :=
            if Math_abs (touchX - centerX) >? 50 then
              if touchX <? centerX - 50 then
                let m := set_keys (ActionStates.set_left true (keys m)) m in
                set_keys (ActionStates.set_right false (keys m)) m
              else if touchX >? centerX + 50 then
                let m := set_keys (ActionStates.set_right true (keys m)) m in
                set_keys (ActionStates.set_left false (keys m)) m
              else m
            else m in
          if touchY <? centerY
          then set_keys (ActionStates.set_jump true (keys m)) m
          else m
      end
  end.

Definition handleTouchStart (touches : list Touch.t)
    (canvas : option Canvas.t) (m : t) : t :=
  let m := set_touchActive true m in
  handleTouchGestures touches canvas m.

Definition handleTouchMove (touches : list Touch.t)
    (canvas : option Canvas.t) (m : t) : t :=
  handleTouchGestures touches canvas m.

(** [handleTouchEnd(event)]; [touches] is [event.touches.length]. *)
Definition handleTouchEnd (touches : nat) (m : t) : t :=
  if Nat.eqb touches 0 then
    let m := set_touchActive false m in
    resetSwipeControls m
  else m.

Definition update (m : t) : t :=
  let m := set_previousKeys (keys m) m in
  let m :=
    set_keys
      (ActionStates.set_left
         (ActionStates.left (keys m)
          || MobileControls.left (mobileControls m)) (keys m)) m in
  let m :=
    set_keys
      (ActionStates.set_right
         (ActionStates.right (keys m)
          || MobileControls.right (mobileControls m)) (keys m)) m in
  set_keys
    (ActionStates.set_jump
       (ActionStates.jump (keys m)
        || MobileControls.jump (mobileControls m)) (keys m)) m.

Definition isPressed (action : Action) (m : t) : bool :=
  get action (keys m).

Definition isJustPressed (action : Action) (m : t) : bool :=
  get action (keys m) && negb (get action (previousKeys m)).

Definition isJustReleased (action : Action) (m : t) : bool :=
  negb (get action (keys m)) && get action (previousKeys m).

Definition getMovementInput (m : t) : Q :=
  let movement := 0 in
  let movement := if isPressed Left m then movement - 1 else movement in
  if isPressed Right m then movement + 1 else movement.

Definition reset (m : t) : t := new.

End InputManager.

(** ** class Camera: zoom, shake, flash and the world bounds

    The part of the camera's state [updateTargetFollowing] does not
    touch.  The target is the player object the game hands over with
    [setTarget]; its state at the time of the update is the argument
    [target].  The two draws of [Math.random] in [updateShake] are the
    arguments [randomX] and [randomY]. *)

Module Shake.
Record t : Type := make {
  active : bool; intensity : Q; duration : Q; timer : Q; offset : Vec.t
}.
Definition eta (s : t) : t :=
  make (active s) (intensity s) (duration s) (timer s) (offset s).
Ltac assign s proj v :=
  let e := eval cbv beta delta [eta] in (eta s) in update_field e proj v.
Definition set_active (v : bool) (s : t) : t := ltac:(assign s (active s) v).
Definition set_intensity (v : Q) (s : t) : t :=
  ltac:(assign s (intensity s) v).
Definition set_duration (v : Q) (s : t) : t :=
  ltac:(assign s (duration s) v).
Definition set_timer (v : Q) (s : t) : t := ltac:(assign s (timer s) v).
Definition set_offset (v : Vec.t) (s : t) : t :=
  ltac:(assign s (offset s) v).
End Shake.

Module Bounds.
Record t : Type := make { left : Q; right : Q; top : Q; bottom : Q }.
End Bounds.

Module Flash.
(** [this.effects], without the colour. *)
Record t : Type := make {
  flashActive : bool; flashIntensity : Q; flashDuration : Q; flashTimer : Q
}.
End Flash.

Module CameraView.

Record t : Type := make {
  camera : Camera.t;
  worldWidth : Q; worldHeight : Q;
  shake : Shake.t;
  zoom : Q; targetZoom : Q; zoomSpeed : Q; minZoom : Q; maxZoom : Q;
  bounds : Bounds.t;
  effects : Flash.t
}.

Definition eta (c : t) : t :=
  make (camera c) (worldWidth c) (worldHeight c) (shake c) (zoom c)
    (targetZoom c) (zoomSpeed c) (minZoom c) (maxZoom c) (bounds c)
    (effects c).

Ltac assign c proj v :=
  let e := eval cbv beta delta [eta] in (eta c) in update_field e proj v.

Definition set_camera (v : Camera.t) (c : t) : t :=
  ltac:(assign c (camera c) v).
Definition set_worldWidth (v : Q) (c : t) : t :=
  ltac:(assign c (worldWidth c) v).
Definition set_worldHeight (v : Q) (c : t) : t :=
  ltac:(assign c (worldHeight c) v).
Definition set_shake (v : Shake.t) (c : t) : t :=
  ltac:(assign c (shake c) v).
Definition set_zoom (v : Q) (c : t) : t := ltac:(assign c (zoom c) v).
Definition set_targetZoom (v : Q) (c : t) : t :=
  ltac:(assign c (targetZoom c) v).
Definition set_bounds (v : Bounds.t) (c : t) : t :=
  ltac:(assign c (bounds c) v).
Definition set_effects (v : Flash.t) (c : t) : t :=
  ltac:(assign c (effects c) v).

(** [new Camera(canvasWidth, canvasHeight, worldWidth, worldHeight)]. *)
Definition new (canvasWidth canvasHeight worldWidth0 worldHeight0 : Q) : t :=
  {| camera := Camera.new canvasWidth canvasHeight worldWidth0 worldHeight0;
     worldWidth := worldWidth0; worldHeight := worldHeight0;
     shake := Shake.make false 0 0 0 (Vec.make 0 0);
     zoom := 1; targetZoom := 1; zoomSpeed := 0.05;
     minZoom := 0.5; maxZoom := 2;
     bounds := Bounds.make 0 worldWidth0 0 worldHeight0;
     effects := Flash.make false 0 0 0 |}.

Definition updateZoom (deltaTime : Q) (c : t) : t :=
  if Math_abs (zoom c - targetZoom c) >? 0.01
  then set_zoom (lerp (zoom c) (targetZoom c) (zoomSpeed c)) c
  else c.

Definition updateShake (deltaTime randomX randomY : Q) (c : t) : t :=
  let s := shake c in
  if negb (Shake.active s) then
    set_shake (Shake.set_offset (Vec.make 0 0) s) c
  else
    let s := Shake.set_timer (Shake.timer s + deltaTime) s in
    if Shake.timer s >=? Shake.duration s then
      let s := Shake.set_active false s in
      set_shake (Shake.set_offset (Vec.make 0 0) s) c
    else
      let progress := Shake.timer s / Shake.duration s in
      let currentIntensity := Shake.intensity s * (1 - progress) in
      set_shake
        (Shake.set_offset
           (Vec.make ((randomX - 0.5) * 2 * currentIntensity)
                     ((randomY - 0.5) * 2 * currentIntensity)) s) c.

Definition updateEffects (deltaTime : Q) (c : t) : t :=
  let e := effects c in
  if Flash.flashActive e then
    let timer := Flash.flashTimer e + deltaTime in
    if timer >=? Flash.flashDuration e then
      set_effects (Flash.make false 0 (Flash.flashDuration e) timer) c
    else
      let progress := timer / Flash.flashDuration e in
      set_effects
        (Flash.make true (1 - progress) (Flash.flashDuration e) timer) c
  else c.

Definition constrainToBounds (c : t) : t :=
  let offset := Shake.offset (shake c) in
  let finalX := Camera.x (camera c) + Vec.x offset in
  let finalY := Camera.y (camera c) + Vec.y offset in
  let finalX :=
    clamp finalX (Bounds.left (bounds c))
          (Bounds.right (bounds c) - Camera.width (camera c)) in
  let finalY :=
    clamp finalY (Bounds.top (bounds c))
          (Bounds.bottom (bounds c) - Camera.height (camera c)) in
  let c := set_camera (Camera.set_x (finalX - Vec.x offset) (camera c)) c in
  set_camera (Camera.set_y (finalY - Vec.y offset) (camera c)) c.


Definition startFlash (duration : Q) (c : t) : t :=
  set_effects (Flash.make true 1 duration 0) c.

Definition setZoom (zoom0 : Q) (immediate : bool) (c : t) : t :=
  let c := set_targetZoom (clamp zoom0 (minZoom c) (maxZoom c)) c in
  if immediate then set_zoom (targetZoom c) c else c.

Definition zoomIn (factor : Q) (c : t) : t :=
  setZoom (targetZoom c + factor) false c.

Definition zoomOut (factor : Q) (c : t) : t :=
  setZoom (targetZoom c - factor) false c.

Definition resetZoom (c : t) : t := setZoom 1 false c.

Definition setWorldBounds (width height : Q) (c : t) : t :=
  let c := set_worldWidth width c in
  let c := set_worldHeight height c in
  set_bounds
    (Bounds.make (Bounds.left (bounds c)) width (Bounds.top (bounds c))
       height) c.

Definition setBounds (left top right bottom : Q) (c : t) : t :=
  set_bounds (Bounds.make left right top bottom) c.

Definition isPointVisible (x y : Q) (c : t) : bool :=
  (x >=? Camera.x (camera c))
  && (x <=? Camera.x (camera c) + Camera.width (camera c))
  && (y >=? Camera.y (camera c))
  && (y <=? Camera.y (camera c) + Camera.height (camera c)).

Definition isRectVisible (rect : Rect.t) (c : t) : bool :=
  (Rect.x rect <? Camera.x (camera c) + Camera.width (camera c))
  && (Rect.x rect + Rect.width rect >? Camera.x (camera c))
  && (Rect.y rect <? Camera.y (camera c) + Camera.height (camera c))
  && (Rect.y rect + Rect.height rect >? Camera.y (camera c)).

Definition worldToScreen (worldX worldY : Q) (c : t) : Q * Q :=
  ((worldX - Camera.x (camera c) - Vec.x (Shake.offset (shake c)))
   * zoom c,
   (worldY - Camera.y (camera c) - Vec.y (Shake.offset (shake c)))
   * zoom c).

Definition screenToWorld (screenX screenY : Q) (c : t) : Q * Q :=
  (screenX / zoom c + Camera.x (camera c)
   + Vec.x (Shake.offset (shake c)),
   screenY / zoom c + Camera.y (camera c)
   + Vec.y (Shake.offset (shake c))).

(** [update(deltaTime)]. *)
Definition update (deltaTime : Q) (target : option Target.t)
    (randomX randomY : Q) (c : t) : t :=
  let c :=
    match target with
    | Some target =>
        set_camera (Camera.updateTargetFollowing deltaTime target (camera c))
          c
    | None => c
    end in
  let c := updateZoom deltaTime c in
  let c := updateShake deltaTime randomX randomY c in
  let c := updateEffects deltaTime c in
  constrainToBounds c.

End CameraView.

(** ** class Level: what the generators set

    The width, the player's start, the goal and the time limit the
    constructor and the generator of the level's number set; the lists
    of objects are not embedded. *)

Module LevelGeneration.

Record Layout : Type := mkLayout {
  width : Q; height : Q;
  playerStartX : Q; playerStartY : Q;
  goalX : Q; goalY : Q;
  timeLimit : option Q
}.

Definition generateLevel (levelNumber : Z) : Layout :=
  match levelNumber with
  | 1%Z => mkLayout 1600 1000 50 400 1520 410 None
  | 2%Z => mkLayout 1800 1000 50 400 1620 360 None
  | 3%Z => mkLayout 2000 1000 50 450 1820 360 None
  | 4%Z => mkLayout 2200 1000 50 400 2020 360 None
  | 5%Z => mkLayout 1800 1000 50 450 1720 360 (Some 120000)
  | _ =>
      let width := 1600 + inject_Z levelNumber * 200 in
      mkLayout width 1000 50 450 (width - 100) 350 None
  end.

End LevelGeneration.

(** ** class Game: the frame, pausing and the next level

    [levels n] is the level [new Level(n, ...)] builds. *)

Module GameLoop.

Record t : Type := make {
  game : Game.t;
  inputManager : InputManager.t;
  previousState : Game.State;
  currentLevelNumber : Z
}.

Definition eta (s : t) : t :=
  make (game s) (inputManager s) (previousState s) (currentLevelNumber s).

Ltac assign s proj v :=
  let e := eval cbv beta delta [eta] in (eta s) in update_field e proj v.

Definition set_game (v : Game.t) (s : t) : t := ltac:(assign s (game s) v).
Definition set_inputManager (v : InputManager.t) (s : t) : t :=
  ltac:(assign s (inputManager s) v).
Definition set_previousState (v : Game.State) (s : t) : t :=
  ltac:(assign s (previousState s) v).
Definition set_currentLevelNumber (v : Z) (s : t) : t :=
  ltac:(assign s (currentLevelNumber s) v).

Definition pauseGame (s : t) : t :=
  match Game.state (game s) with
  | Game.Playing =>
      let s := set_previousState (Game.state (game s)) s in
      set_game (Game.set_state Game.Paused (game s)) s
  | _ => s
  end.

Definition resumeGame (s : t) : t :=
  match Game.state (game s) with
  | Game.Paused => set_game (Game.set_state (previousState s) (game s)) s
  | _ => s
  end.

Definition loadLevel (now : Q) (levels : Z -> Level.t) (levelNumber : Z)
    (s : t) : t :=
  let level := Level.set_startTime now (levels levelNumber) in
  set_game (Game.set_currentLevel level (game s)) s.

Definition nextLevel (now : Q) (levels : Z -> Level.t) (s : t) : t :=
  let s := set_currentLevelNumber (currentLevelNumber s + 1) s in
  let s :=
    set_game
      (Game.set_totalScore
         (Game.totalScore (game s) + Game.score (game s)) (game s)) s in
  let s := set_game (Game.set_score 0 (game s)) s in
  let s := loadLevel now levels (currentLevelNumber s) s in
  let layout := LevelGeneration.generateLevel (currentLevelNumber s) in
  let s :=
    set_game
      (Game.set_player
         (Player.reset (LevelGeneration.playerStartX layout)
            (LevelGeneration.playerStartY layout) (Game.player (game s)))
         (game s)) s in
  set_game (Game.set_state Game.Playing (game s)) s.

(** [update(deltaTime)], without the background, the camera and the
    user interface. *)
Definition update {host : MathHost} (now deltaTime : Q)
    (fresh : nat -> list Particle.t) (s : t) : t :=
  let s := set_inputManager (InputManager.update (inputManager s)) s in
  let s :=
    if InputManager.isJustPressed InputManager.Pause (inputManager s) then
      match Game.state (game s) with
      | Game.Playing => pauseGame s
      | Game.Paused => resumeGame s
      | _ => s
      end
    else s in
  match Game.state (game s) with
  | Game.Playing =>
      let input :=
        Input.make
          (InputManager.isPressed InputManager.Left (inputManager s))
          (InputManager.isPressed InputManager.Right (inputManager s))
          (InputManager.isPressed InputManager.Jump (inputManager s)) in
      set_game (Game.updatePlaying now deltaTime input fresh (game s)) s
  | _ => s
  end.

End GameLoop.

(** * Vocabulary of the properties *)

(** Two rectangles in edge contact: a side of one lies on the line of the
    opposite side of the other. *)
Definition edgeContact (r1 r2 : Rect.t) : Prop :=
  Rect.x r1 + Rect.width r1 == Rect.x r2 \/
  Rect.x r2 + Rect.width r2 == Rect.x r1 \/
  Rect.y r1 + Rect.height r1 == Rect.y r2 \/
  Rect.y r2 + Rect.height r2 == Rect.y r1.

(** The health invariant of the player. *)
Definition healthInRange (p : Player.t) : Prop :=
  0 <= Player.health p /\ Player.health p <= Player.maxHealth p.

(** A call of one of the two health-changing methods of the player. *)
Inductive HealthCall : Type :=
| CallTakeDamage (now damage : Q)
| CallHeal (amount : Q).

Definition callAmount (c : HealthCall) : Q :=
  match c with
  | CallTakeDamage _ damage => damage
  | CallHeal amount => amount
  end.

Definition runHealthCall (c : HealthCall) (p : Player.t) : Player.t :=
  match c with
  | CallTakeDamage now damage => snd (Player.takeDamage now damage p)
  | CallHeal amount => Player.heal amount p
  end.

(** The player after each call of the sequence, in order. *)
Fixpoint healthTrace (cs : list HealthCall) (p : Player.t)
    : list Player.t :=
  match cs with
  | [] => []
  | c :: rest =>
      let p' := runHealthCall c p in
      p' :: healthTrace rest p'
  end.





(** The player jumping on an enemy: the test of
    [Enemy.checkPlayerCollision]. *)
Definition jumpsOn (p : Player.t) (e : Enemy.t) : Prop :=
  Player.y p + Player.height p <= Enemy.y e + 10 /\
  0 < Player.velocityY p.

(** A call on a collectible during the life of a level: its per-frame
    update, the collision test of [Game.handleCollisions], or [collect]
    itself. *)
Inductive CollectibleCall : Type :=
| CallUpdate (deltaTime : Q) (player : option Player.t)
| CallCheck (player : option Player.t)
| CallCollect.

(** What the call returns to the game ([None] for an update and for
    [null]) and the collectible afterwards. *)
Definition runCollectibleCall {host : MathHost} (k : CollectibleCall)
    (c : Collectible.t) : option Collectible.Collection * Collectible.t :=
  match k with
  | CallUpdate deltaTime player =>
      (None, Collectible.update deltaTime player c)
  | CallCheck player => Collectible.checkPlayerCollision player c
  | CallCollect => Collectible.collect c
  end.

(** The results of the calls of a sequence, in order, and the
    collectible after the last one. *)
Fixpoint collectibleTrace {host : MathHost} (ks : list CollectibleCall)
    (c : Collectible.t)
    : list (option Collectible.Collection) * Collectible.t :=
  match ks with
  | [] => ([], c)
  | k :: rest =>
      let '(r, c) := runCollectibleCall k c in
      let '(rs, c) := collectibleTrace rest c in
      (r :: rs, c)
  end.

(** The number of collection results in a list of returned values. *)
Fixpoint collectionCount (rs : list (option Collectible.Collection)) : nat :=
  match rs with
  | [] => 0
  | Some _ :: rest => S (collectionCount rest)
  | None :: rest => collectionCount rest
  end.

(** The target with another horizontal velocity. *)
Definition withVelocityX (v : option Q) (target : Target.t) : Target.t :=
  Target.make (Target.x target) (Target.y target) (Target.width target)
    (Target.height target) v.

(** The fields of the player the damage logic reads or writes. *)
Definition damageState (p : Player.t) : Q * Q * bool * Q * Q :=
  (Player.health p, Player.maxHealth p, Player.invulnerable p,
   Player.invulnerabilityTime p, Player.lastDamageTime p).

(** What the constructor of [Enemy] sets and the game keeps: a damage of
    20 and a health of at most the maximal health of 50. *)
Definition enemyInvariant (e : Enemy.t) : Prop :=
  Enemy.damage e = 20 /\ Enemy.maxHealth e = 50 /\ Enemy.health e <= 50.

(** ** Sample objects *)

(** A host whose square root is the integer square root of the floor;
    it serves to run the embedding on concrete inputs. *)
Definition sampleHost : MathHost :=
  {| Math_sqrt := fun v => inject_Z (Z.sqrt (Qfloor v));
     Math_sin := fun _ => 0;
     Math_PI := 3.14159 |}.

Definition deadPlayer : Player.t :=
  Player.set_health 0 (Player.new 50 400).

Definition healthPickup : Collectible.t :=
  Collectible.new 50 410 Collectible.Health 25.

(** A game in the playing state whose player, down to a health of 20,
    stands against an enemy and in a health pickup. *)
Definition woundedGame : Game.t :=
  Game.make Game.Playing 0 3 0
    (Player.set_health 20 (Player.new 100 452))
    (Level.make [Platform.new 0 500 300 40 Platform.Static]
       [Enemy.new 110 468 Enemy.Patrol]
       [Collectible.new 100 460 Collectible.Health 25] [] 1500 300 false
       None 0).

(** An enemy standing on the ground of level 1 and a player falling on
    it. *)
Definition groundEnemy : Enemy.t := Enemy.new 100 468 Enemy.Patrol.

Definition fallingPlayer : Player.t :=
  Player.set_velocityY 5 (Player.new 100 425).

(** A player whose centre is [d] to the right of the centre of
    [groundEnemy], at the same height. *)
Definition playerAt (d : Q) : Player.t := Player.new (98 + d) 460.

(** A crumbling and a bouncy platform of level 3, the burst of fifteen
    particles a crumbling platform emits, a player sunk 5 into the top
    of the crumbling platform, and players falling on the two
    platforms. *)
Definition crumblingPlatform : Platform.t :=
  Platform.new 650 350 120 40 Platform.Crumbling.

Definition bouncyPlatform : Platform.t :=
  Platform.new 850 300 100 40 Platform.Bouncy.

Definition burst : list Particle.t :=
  repeat (Particle.make 700 360 1 (-1) 4 1500 0) 15.

Definition standingPlayer : Player.t := Player.new 680 307.

Definition faller : Player.t :=
  Player.set_velocityY 9.2 (Player.new 680 298).

Definition jumper : Player.t :=
  Player.set_velocityY 9.2 (Player.new 880 245).

(** [n] updates of [deltaTime] each of a platform that
    [standingPlayer] occupies. *)
Fixpoint standFor (n : nat) (deltaTime : Q) (pl : Platform.t) : Platform.t :=
  match n with
  | O => pl
  | S n =>
      standFor n deltaTime
        (Platform.update (host := sampleHost) deltaTime (Some standingPlayer)
           burst pl)
  end.

(** A game in the playing state whose player falls on the bouncy
    platform. *)
Definition bouncyGame : Game.t :=
  Game.make Game.Playing 0 3 0 jumper
    (Level.make [bouncyPlatform] [] [] [] 1500 300 false None 0).

(** ** Vocabulary of the further properties *)

(** The player after a sequence of health-changing calls. *)
Definition afterHealthCalls (cs : list HealthCall) (p : Player.t)
    : Player.t :=
  fold_left (fun q c => runHealthCall c q) cs p.

(** The dimensions and physics constants the constructor of [Player]
    sets; no method writes them. *)
Definition playerConstants (p : Player.t) : Prop :=
  Player.width p = 32 /\ Player.height p = 48 /\
  Player.speed p = 5 /\ Player.jumpPower p = 15 /\
  Player.gravity p = 0.8 /\ Player.friction p = 0.85 /\
  Player.maxFallSpeed p = 15.

(** The fields of the player that movement reads or writes. *)
Definition motionState (p : Player.t)
    : Q * Q * Q * Q * bool * bool * bool * Keys.t
      * (Q * Q * Q * Q * Q * Q * Q) :=
  (Player.x p, Player.y p, Player.velocityX p, Player.velocityY p,
   Player.isGrounded p, Player.canDoubleJump p, Player.hasDoubleJumped p,
   Player.keys p,
   (Player.width p, Player.height p, Player.speed p, Player.jumpPower p,
    Player.gravity p, Player.friction p, Player.maxFallSpeed p)).

(** A player at rest on the top of a platform, well inside its ends and
    inside the world, with no key held and no double-jump charge. *)
Definition restsOn {A : Type} `{HasRect A} (p : Player.t) (platform : A)
    : Prop :=
  let pl := getRect platform in
  playerConstants p /\
  Player.velocityX p == 0 /\ Player.velocityY p = 0 /\
  Player.canDoubleJump p = false /\
  Keys.left (Player.keys p) = false /\
  Keys.right (Player.keys p) = false /\
  Keys.jumpPressed (Player.keys p) = false /\
  Player.y p + 48 == Rect.y pl /\
  Rect.x pl + 1 <= Player.x p /\
  Player.x p + 33 <= Rect.x pl + Rect.width pl /\
  0 <= Rect.height pl /\
  0 <= Player.x p /\ Player.x p <= 1968 /\ Player.y p <= 1000.

(** The player after a sequence of frames, each given by the clock it
    reads and its [deltaTime], over the same platforms. *)
Definition playerFrames {A : Type} `{HasRect A} (platforms : list A)
    (frames : list (Q * Q)) (p : Player.t) : Player.t :=
  fold_left (fun q f => Player.update (fst f) (snd f) platforms q) frames p.

(** The arguments of one call of [Platform.update]: the [deltaTime],
    the player handed over and the particles drawn should the platform
    start to crumble. *)
Record PlatformFrame : Type := mkPlatformFrame {
  platformDelta : Q;
  platformPlayer : option Player.t;
  platformFresh : list Particle.t
}.

Definition platformStep {host : MathHost} (f : PlatformFrame)
    (pl : Platform.t) : Platform.t :=
  Platform.update (platformDelta f) (platformPlayer f) (platformFresh f) pl.

Definition platformFrames {host : MathHost} (frames : list PlatformFrame)
    (pl : Platform.t) : Platform.t :=
  fold_left (fun q f => platformStep f q) frames pl.

(** The sum of a list of durations. *)
Definition sumQ (ds : list Q) : Q := fold_right Qplus 0 ds.

(** Along its axis of movement the platform is within [moveDistance] of
    where it was built. *)
Definition onTrack (pl : Platform.t) : Prop :=
  match Platform.moveAxis pl with
  | Platform.Horizontal =>
      Platform.originalX pl - Platform.moveDistance pl <= Platform.x pl /\
      Platform.x pl <= Platform.originalX pl + Platform.moveDistance pl
  | Platform.Vertical =>
      Platform.originalY pl - Platform.moveDistance pl <= Platform.y pl /\
      Platform.y pl <= Platform.originalY pl + Platform.moveDistance pl
  end.

(** What no update of a platform changes. *)
Definition platformShape (pl : Platform.t)
    : Q * Q * Q * Platform.Axis * Q * Q * Platform.Kind * Q * Q :=
  (Platform.originalX pl, Platform.originalY pl, Platform.moveDistance pl,
   Platform.moveAxis pl, Platform.width pl, Platform.height pl,
   Platform.type pl, Platform.moveSpeed pl, Platform.crumbleDelay pl).






(** The square root of the host is exact on the squares of the whole
    numbers up to 2^26 and grows with its argument: it is at least every
    such whole number whose square is at most the argument. *)
Definition sqrtAboveWholeRoots (host : MathHost) : Prop :=
  forall (n : Z) (v : Q),
    (0 <= n <= 2 ^ 26)%Z -> inject_Z (n * n) <= v -> inject_Z n <= Math_sqrt v.

(** A whole number, of the size a double holds with no rounding of its
    sum or difference with another one. *)
Definition wholePixels (q : Q) : bool :=
  Qeq_bool q (inject_Z (Qfloor q)) && (Z.abs (Qfloor q) <=? 2 ^ 52)%Z.

Definition wholeRect (r : Rect.t) : bool :=
  wholePixels (Rect.x r) && wholePixels (Rect.y r)
  && wholePixels (Rect.width r) && wholePixels (Rect.height r).

(** The points a collectible is worth to a player that touches it: its
    value, unless it is collected already or heals. *)
Definition scoreOf (p : Player.t) (c : Collectible.t) : Q :=
  if negb (Collectible.collected c) && checkCollision c p then
    match Collectible.type c with
    | Collectible.Health => 0
    | _ => Collectible.value c
    end
  else 0.

Definition pickedScore (p : Player.t) (cs : list Collectible.t) : Q :=
  sumQ (map (scoreOf p) cs).

(** The arguments of one call of [Game.updatePlaying]: the clock, the
    [deltaTime], the keys the input manager reports and the particles
    drawn for the platforms that start to crumble. *)
Record PlayingFrame : Type := mkPlayingFrame {
  playNow : Q;
  playDelta : Q;
  playInput : Input.t;
  playFresh : nat -> list Particle.t
}.

Definition playingStep {host : MathHost} (f : PlayingFrame) (g : Game.t)
    : Game.t :=
  Game.updatePlaying (playNow f) (playDelta f) (playInput f) (playFresh f) g.

Definition playingFrames {host : MathHost} (frames : list PlayingFrame)
    (g : Game.t) : Game.t :=
  fold_left (fun q f => playingStep f q) frames g.

(** What reaches the input manager: a key of the keyboard going down or
    up, an on-screen button pressed or released, the start or a move of
    a touch on the window, the end of a touch with [touches] touches
    left, a call of [reset], and the [update] of a frame. *)
Inductive InputEvent : Type :=
| EventKeyDown (code : InputManager.KeyCode)
| EventKeyUp (code : InputManager.KeyCode)
| EventButton (button : InputManager.Button) (pressed : bool)
| EventTouchStart (touches : list Touch.t) (canvas : option Canvas.t)
| EventTouchMove (touches : list Touch.t) (canvas : option Canvas.t)
| EventTouchEnd (touches : nat)
| EventReset
| EventFrame.

Definition runInputEvent (e : InputEvent) (m : InputManager.t)
    : InputManager.t :=
  match e with
  | EventKeyDown code => InputManager.handleKeyDown code m
  | EventKeyUp code => InputManager.handleKeyUp code m
  | EventButton button pressed => InputManager.mobileButton button pressed m
  | EventTouchStart touches canvas =>
      InputManager.handleTouchStart touches canvas m
  | EventTouchMove touches canvas =>
      InputManager.handleTouchMove touches canvas m
  | EventTouchEnd touches => InputManager.handleTouchEnd touches m
  | EventReset => InputManager.reset m
  | EventFrame => InputManager.update m
  end.

Definition inputTrace (events : list InputEvent) (m : InputManager.t)
    : InputManager.t :=
  fold_left (fun q e => runInputEvent e q) events m.

(** The events that can clear a key: a key-up, the three touch events
    of the window and [reset]. *)
Definition clearsKeys (e : InputEvent) : bool :=
  match e with
  | EventKeyUp _ | EventTouchStart _ _ | EventTouchMove _ _
  | EventTouchEnd _ | EventReset => true
  | EventKeyDown _ | EventButton _ _ | EventFrame => false
  end.

(** The action an on-screen button stands for. *)
Definition buttonAction (button : InputManager.Button)
    : InputManager.Action :=
  match button with
  | InputManager.LeftBtn => InputManager.Left
  | InputManager.RightBtn => InputManager.Right
  | InputManager.JumpBtn => InputManager.Jump
  end.

(** A call that touches the zoom of the camera. *)
Inductive ZoomCall : Type :=
| CallSetZoom (zoom : Q) (immediate : bool)
| CallZoomIn (factor : Q)
| CallZoomOut (factor : Q)
| CallResetZoom
| CallCameraUpdate (deltaTime : Q) (target : option Target.t)
    (randomX randomY : Q).

Definition runZoomCall (k : ZoomCall) (c : CameraView.t) : CameraView.t :=
  match k with
  | CallSetZoom zoom immediate => CameraView.setZoom zoom immediate c
  | CallZoomIn factor => CameraView.zoomIn factor c
  | CallZoomOut factor => CameraView.zoomOut factor c
  | CallResetZoom => CameraView.resetZoom c
  | CallCameraUpdate deltaTime target randomX randomY =>
      CameraView.update deltaTime target randomX randomY c
  end.

Definition zoomTrace (ks : list ZoomCall) (c : CameraView.t)
    : CameraView.t :=
  fold_left (fun q k => runZoomCall k q) ks c.

(** The zoom and its target lie between the least and the greatest
    zoom, the least zoom is positive and the speed is a proportion. *)
Definition zoomInRange (c : CameraView.t) : Prop :=
  0 < CameraView.minZoom c /\
  CameraView.minZoom c <= CameraView.maxZoom c /\
  0 <= CameraView.zoomSpeed c /\ CameraView.zoomSpeed c <= 1 /\
  CameraView.minZoom c <= CameraView.zoom c /\
  CameraView.zoom c <= CameraView.maxZoom c /\
  CameraView.minZoom c <= CameraView.targetZoom c /\
  CameraView.targetZoom c <= CameraView.maxZoom c.

(** The fields of the camera the zoom logic reads or writes. *)
Definition zoomState (c : CameraView.t) : Q * Q * Q * Q * Q :=
  (CameraView.minZoom c, CameraView.maxZoom c, CameraView.zoomSpeed c,
   CameraView.targetZoom c, CameraView.zoom c).



(** * Properties *)

(** ** Comparisons *)

Lemma Qltb_lt (a b : Q) : (a <? b) = true <-> a < b.
Proof.
  unfold Qltb. rewrite negb_true_iff, <- not_true_iff_false, Qle_bool_iff.
  split; [apply Qnot_le_lt | apply Qlt_not_le].
Qed.

Lemma Qltb_ge (a b : Q) : (a <? b) = false <-> b <= a.
Proof. unfold Qltb. rewrite negb_false_iff. apply Qle_bool_iff. Qed.

Lemma Qgtb_gt (a b : Q) : (a >? b) = true <-> b < a.
Proof. exact (Qltb_lt b a). Qed.

Lemma Qgtb_le (a b : Q) : (a >? b) = false <-> a <= b.
Proof. exact (Qltb_ge b a). Qed.

Lemma Qleb_le (a b : Q) : (a <=? b) = true <-> a <= b.
Proof. apply Qle_bool_iff. Qed.

Lemma Qleb_gt (a b : Q) : (a <=? b) = false <-> b < a.
Proof.
  rewrite <- not_true_iff_false, Qle_bool_iff.
  split; [apply Qnot_le_lt | apply Qlt_not_le].
Qed.

Lemma Qgeb_ge (a b : Q) : (a >=? b) = true <-> b <= a.
Proof. exact (Qle_bool_iff b a). Qed.

Lemma Qgeb_lt (a b : Q) : (a >=? b) = false <-> a < b.
Proof. exact (Qleb_gt b a). Qed.

(** Turns the boolean comparisons of the context and of the goal into
    order statements, which [lra] reads. *)
Ltac qbool :=
  repeat match goal with
  | H : (_ <? _) = true |- _ => apply Qltb_lt in H
  | H : (_ <? _) = false |- _ => apply Qltb_ge in H
  | H : (_ >? _) = true |- _ => apply Qgtb_gt in H
  | H : (_ >? _) = false |- _ => apply Qgtb_le in H
  | H : (_ >=? _) = true |- _ => apply Qgeb_ge in H
  | H : (_ >=? _) = false |- _ => apply Qgeb_lt in H
  | H : (_ <=? _) = true |- _ => apply Qleb_le in H
  | H : (_ <=? _) = false |- _ => apply Qleb_gt in H
  | |- (_ <? _) = true => apply Qltb_lt
  | |- (_ <? _) = false => apply Qltb_ge
  | |- (_ >? _) = true => apply Qgtb_gt
  | |- (_ >? _) = false => apply Qgtb_le
  | |- (_ >=? _) = true => apply Qgeb_ge
  | |- (_ >=? _) = false => apply Qgeb_lt
  | |- (_ <=? _) = true => apply Qleb_le
  | |- (_ <=? _) = false => apply Qleb_gt
  end.

(** Case analysis on every test of the goal. *)
Ltac case_ifs :=
  repeat match goal with
  | |- context [if ?b then _ else _] => destruct b
  end.

(** Splits the conjunctions of the goal, and nothing else. *)
Ltac splits := repeat match goal with |- _ /\ _ => split end.

Lemma Math_max_cases (a b : Q) :
  (b <= a /\ Math_max a b = a) \/ (a < b /\ Math_max a b = b).
Proof.
  unfold Math_max, Qmax, GenericMinMax.gmax.
  destruct (a ?= b) eqn:E.
  - left. split; [apply Qeq_alt in E; lra | reflexivity].
  - right. split; [apply Qlt_alt in E; lra | reflexivity].
  - left. split; [apply Qgt_alt in E; lra | reflexivity].
Qed.

Lemma Math_min_cases (a b : Q) :
  (a <= b /\ Math_min a b = a) \/ (b < a /\ Math_min a b = b).
Proof.
  unfold Math_min, Qmin, GenericMinMax.gmin.
  destruct (a ?= b) eqn:E.
  - left. split; [apply Qeq_alt in E; lra | reflexivity].
  - left. split; [apply Qlt_alt in E; lra | reflexivity].
  - right. split; [apply Qgt_alt in E; lra | reflexivity].
Qed.

(** ** checkCollision *)

Lemma checkCollision_true_iff {A B : Type} `{HasRect A} `{HasRect B}
    (rect1 : A) (rect2 : B) :
  checkCollision rect1 rect2 = true <->
  Rect.x (getRect rect1) < Rect.x (getRect rect2) + Rect.width (getRect rect2)
  /\ Rect.x (getRect rect2) < Rect.x (getRect rect1) + Rect.width (getRect rect1)
  /\ Rect.y (getRect rect1) < Rect.y (getRect rect2) + Rect.height (getRect rect2)
  /\ Rect.y (getRect rect2) < Rect.y (getRect rect1) + Rect.height (getRect rect1).
Proof.
  unfold checkCollision. cbv zeta.
  rewrite !andb_true_iff, !Qltb_lt, !Qgtb_gt. tauto.
Qed.

Lemma checkCollision_edgeContact {A B : Type} `{HasRect A} `{HasRect B}
    (rect1 : A) (rect2 : B) :
  edgeContact (getRect rect1) (getRect rect2) ->
  checkCollision rect1 rect2 = false.
Proof.
  intros Hc. apply not_true_iff_false. rewrite checkCollision_true_iff.
  intros (H1 & H2 & H3 & H4). destruct Hc as [E | [E | [E | E]]]; lra.
Qed.

(** C9.  [checkCollision] compares the four edges strictly: two
    rectangles in edge contact do not collide, whichever of the two is
    the first argument, and a player whose rectangle is in edge contact
    with a platform (for one, resting exactly on its top) goes through
    the collision loop of the frame untouched: the loop only clears
    [isGrounded]. *)
Theorem edge_contact_is_no_collision (rect1 rect2 : Rect.t)
    (p : Player.t) (platform : Platform.t) :
  edgeContact rect1 rect2 ->
  edgeContact (getRect p) (getRect platform) ->
  checkCollision rect1 rect2 = false /\
  checkCollision rect2 rect1 = false /\
  checkCollision p platform = false /\
  Player.handlePlatformCollisions [platform] p
  = Player.set_isGrounded false p.
Proof.
  intros Hr Hp. repeat split.
  - now apply checkCollision_edgeContact.
  - apply checkCollision_edgeContact.
    unfold edgeContact in *. tauto.
  - now apply checkCollision_edgeContact.
  - unfold Player.handlePlatformCollisions. cbn [fold_left].
    unfold Player.resolvePlatform.
    replace (checkCollision (Player.set_isGrounded false p) platform)
      with (checkCollision p platform) by reflexivity.
    now rewrite (checkCollision_edgeContact p platform Hp).
Qed.

(** A player standing on the first platform of level 1. *)
Lemma edge_contact_is_no_collision_witness :
  let p := Player.set_y 452 (Player.new 50 400) in
  let platform := Platform.new 0 500 300 40 Platform.Static in
  edgeContact (getRect p) (getRect platform) /\
  checkCollision p platform = false /\
  Player.handlePlatformCollisions [platform] p = Player.set_isGrounded false p.
Proof.
  cbv zeta.
  assert (Hc : edgeContact
                 (getRect (Player.set_y 452 (Player.new 50 400)))
                 (getRect (Platform.new 0 500 300 40 Platform.Static))).
  { right; right; left. reflexivity. }
  split; [exact Hc|].
  exact (proj2 (proj2 (edge_contact_is_no_collision Hc Hc))).
Defined.

(** ** Player: damage, healing and invulnerability *)

Lemma takeDamage_invulnerable (now d : Q) (p : Player.t) :
  Player.invulnerable p = true -> Player.takeDamage now d p = (false, p).
Proof. intros H. unfold Player.takeDamage. now rewrite H. Qed.

Lemma takeDamage_health (now d : Q) (p : Player.t) :
  Player.invulnerable p = false ->
  Player.health (snd (Player.takeDamage now d p))
  = Qmax 0 (Player.health p - d).
Proof.
  intros H. unfold Player.takeDamage. rewrite H. cbn.
  now destruct (Math_max 0 (Player.health p - d) >? 0).
Qed.

Lemma takeDamage_flag (now d : Q) (p : Player.t) :
  Player.invulnerable p = false ->
  Player.invulnerable (snd (Player.takeDamage now d p))
  = (Qmax 0 (Player.health p - d) >? 0).
Proof.
  intros H. unfold Player.takeDamage. rewrite H. cbn.
  unfold Math_max.
  now destruct (Qmax 0 (Player.health p - d) >? 0).
Qed.

Lemma takeDamage_clock (now d : Q) (p : Player.t) :
  Player.invulnerable p = false ->
  0 < Qmax 0 (Player.health p - d) ->
  Player.lastDamageTime (snd (Player.takeDamage now d p)) = now.
Proof.
  intros H Hpos. unfold Player.takeDamage. rewrite H. cbn.
  unfold Math_max. apply Qgtb_gt in Hpos. now rewrite Hpos.
Qed.

Lemma takeDamage_constants (now d : Q) (p : Player.t) :
  let p' := snd (Player.takeDamage now d p) in
  Player.invulnerabilityTime p' = Player.invulnerabilityTime p /\
  Player.maxHealth p' = Player.maxHealth p.
Proof.
  unfold Player.takeDamage.
  destruct (Player.invulnerable p); cbn; [easy|].
  now destruct (Math_max 0 (Player.health p - d) >? 0).
Qed.

Lemma updateInvulnerability_flag (t : Q) (p : Player.t) :
  Player.invulnerable (Player.updateInvulnerability t p) = true <->
  Player.invulnerable p = true /\
  t - Player.lastDamageTime p < Player.invulnerabilityTime p.
Proof.
  unfold Player.updateInvulnerability.
  destruct (Player.invulnerable p) eqn:Hi.
  - destruct (t - Player.lastDamageTime p >=? Player.invulnerabilityTime p)
      eqn:Ht; qbool.
    + cbn. split; [discriminate | intros [_ Hlt]; lra].
    + rewrite Hi. tauto.
  - rewrite Hi. split; [discriminate | intros [Hf _]; discriminate].
Qed.

Lemma updateInvulnerability_health (t : Q) (p : Player.t) :
  Player.health (Player.updateInvulnerability t p) = Player.health p.
Proof.
  unfold Player.updateInvulnerability.
  destruct (Player.invulnerable p); [|reflexivity].
  now destruct (_ >=? _).
Qed.

(** ** What a frame leaves alone *)

Lemma handleInput_damageState (p : Player.t) :
  damageState (Player.handleInput p) = damageState p.
Proof.
  unfold Player.handleInput, Player.jump. cbv zeta. case_ifs; reflexivity.
Qed.

Lemma updatePhysics_damageState (dt : Q) (p : Player.t) :
  damageState (Player.updatePhysics dt p) = damageState p.
Proof.
  unfold Player.updatePhysics. cbv zeta. case_ifs; reflexivity.
Qed.

Lemma resolvePlatform_damageState {A : Type} `{HasRect A} (p : Player.t)
    (pl : A) :
  damageState (Player.resolvePlatform p pl) = damageState p.
Proof.
  unfold Player.resolvePlatform. cbv zeta. case_ifs; reflexivity.
Qed.

Lemma handlePlatformCollisions_damageState {A : Type} `{HasRect A}
    (pls : list A) (p : Player.t) :
  damageState (Player.handlePlatformCollisions pls p) = damageState p.
Proof.
  unfold Player.handlePlatformCollisions.
  change (damageState p) with (damageState (Player.set_isGrounded false p)).
  generalize (Player.set_isGrounded false p). clear p.
  induction pls as [| pl rest IH]; intros p; cbn [fold_left].
  - reflexivity.
  - rewrite IH. apply resolvePlatform_damageState.
Qed.

Lemma updateAnimation_damageState (dt : Q) (p : Player.t) :
  damageState (Player.updateAnimation dt p) = damageState p.
Proof.
  unfold Player.updateAnimation. cbv zeta. case_ifs; reflexivity.
Qed.

Lemma self_damage_is_fatal (h : Q) : (Math_max 0 (h - h) >? 0) = false.
Proof.
  qbool. destruct (Math_max_cases 0 (h - h)) as [[Hc He] | [Hc He]];
    rewrite He; lra.
Qed.

Lemma constrainToWorld_flag (now : Q) (p : Player.t) :
  Player.invulnerable (Player.constrainToWorld now p) = Player.invulnerable p.
Proof.
  unfold Player.constrainToWorld, Player.takeDamage. cbv zeta.
  destruct (Player.y _ >? 1000); [|reflexivity].
  cbn. destruct (Player.invulnerable p) eqn:Hi; cbn; [exact Hi|].
  rewrite self_damage_is_fatal. cbn. exact Hi.
Qed.

(** The flag at the end of the player's update of a frame that reads the
    clock at [t]: the invulnerability check of the frame decides it. *)
Lemma Player_update_invulnerable (t dt : Q) (pls : list Platform.t)
    (q : Player.t) :
  Player.invulnerable (Player.update t dt pls q) = true <->
  Player.invulnerable q = true /\
  t - Player.lastDamageTime q < Player.invulnerabilityTime q.
Proof.
  unfold Player.update. rewrite constrainToWorld_flag.
  rewrite updateInvulnerability_flag.
  set (q3 := Player.updateAnimation dt
               (Player.handlePlatformCollisions pls
                  (Player.updatePhysics dt (Player.handleInput q)))).
  assert (E : damageState q3 = damageState q).
  { subst q3. now rewrite updateAnimation_damageState,
      handlePlatformCollisions_damageState, updatePhysics_damageState,
      handleInput_damageState. }
  unfold damageState in E. injection E as _ _ E1 E2 E3.
  now rewrite E1, E2, E3.
Qed.

Lemma Enemy_changeDirection_invariant (e : Enemy.t) :
  enemyInvariant (Enemy.changeDirection e) <-> enemyInvariant e.
Proof.
  unfold Enemy.changeDirection. now destruct (Enemy.canTurnAround e).
Qed.

Lemma Enemy_patrol_invariant (e : Enemy.t) :
  enemyInvariant (Enemy.patrol e) <-> enemyInvariant e.
Proof.
  unfold Enemy.patrol. cbv zeta.
  case_ifs; unfold enemyInvariant; cbn;
    try (rewrite <- (Enemy_changeDirection_invariant
                       (Enemy.set_currentAnimation Enemy.AnimWalk e));
         unfold enemyInvariant);
    reflexivity.
Qed.

Lemma Enemy_updateAI_invariant {host : MathHost} (player : option Player.t)
    (e : Enemy.t) :
  enemyInvariant (Enemy.updateAI player e) <-> enemyInvariant e.
Proof.
  unfold Enemy.updateAI.
  assert (Hp : forall e0, enemyInvariant e0 <-> enemyInvariant e ->
                 enemyInvariant (Enemy.patrol e0) <-> enemyInvariant e)
    by (intros e0 H0; now rewrite Enemy_patrol_invariant).
  destruct player as [p|]; [|now apply Hp].
  destruct (Player.isDead p); [now apply Hp|]. cbv zeta.
  match goal with
  | |- enemyInvariant (if negb (Enemy.isChasing ?x) then _ else _) <-> _ =>
      assert (H1 : enemyInvariant x <-> enemyInvariant e)
  end.
  { unfold Enemy.chase. cbv zeta. case_ifs; reflexivity. }
  destruct (negb _); [now apply Hp | exact H1].
Qed.

Lemma Enemy_resolvePlatform_invariant (pls : list Platform.t)
    (st : Enemy.t * bool) :
  enemyInvariant (fst (fold_left Enemy.resolvePlatform pls st))
  <-> enemyInvariant (fst st).
Proof.
  revert st. induction pls as [| pl rest IH]; intros [e hw]; cbn [fold_left].
  - reflexivity.
  - rewrite IH. unfold Enemy.resolvePlatform. case_ifs; reflexivity.
Qed.

Lemma Enemy_handlePlatformCollisions_invariant (pls : list Platform.t)
    (e : Enemy.t) :
  enemyInvariant (Enemy.handlePlatformCollisions pls e) <-> enemyInvariant e.
Proof.
  unfold Enemy.handlePlatformCollisions.
  pose proof (Enemy_resolvePlatform_invariant pls
                (Enemy.set_isGrounded false e, false)) as H.
  destruct (fold_left Enemy.resolvePlatform pls
              (Enemy.set_isGrounded false e, false)) as [e1 hw].
  cbn [fst] in H.
  change (enemyInvariant (Enemy.set_isGrounded false e))
    with (enemyInvariant e) in H.
  unfold Enemy.checkForEdges. cbv zeta.
  case_ifs; rewrite ?Enemy_changeDirection_invariant; exact H.
Qed.

Lemma Enemy_update_invariant {host : MathHost} (dt : Q)
    (pls : list Platform.t) (player : option Player.t) (e : Enemy.t) :
  enemyInvariant (Enemy.update dt pls player e) <-> enemyInvariant e.
Proof.
  unfold Enemy.update. destruct (negb (Enemy.isAlive e)).
  - unfold Enemy.updateDeath. cbv zeta. case_ifs; reflexivity.
  - set (e1 := Enemy.handlePlatformCollisions pls
                 (Enemy.updatePhysics dt (Enemy.updateAI player e))).
    assert (H1 : enemyInvariant e1 <-> enemyInvariant e).
    { subst e1. rewrite Enemy_handlePlatformCollisions_invariant.
      rewrite <- (Enemy_updateAI_invariant player e).
      unfold Enemy.updatePhysics. cbv zeta. case_ifs; reflexivity. }
    rewrite <- H1.
    unfold Enemy.updateTurnCooldown, Enemy.updateAnimation. cbv zeta.
    case_ifs; reflexivity.
Qed.

Lemma Enemy_takeDamage_invariant (d : Q) (e : Enemy.t) :
  enemyInvariant e -> 0 <= d ->
  enemyInvariant (snd (Enemy.takeDamage d e)).
Proof.
  intros He Hd. unfold Enemy.takeDamage.
  destruct (negb (Enemy.isAlive e)); [exact He|]. cbv zeta.
  set (e1 := Enemy.set_health _ (Enemy.set_health _ e)).
  assert (Hh : Enemy.health e1 = Math_max 0 (Enemy.health e - d))
    by reflexivity.
  assert (I1 : enemyInvariant e1).
  { destruct He as (H1 & H2 & H3). unfold enemyInvariant. rewrite Hh.
    splits; try assumption.
    destruct (Math_max_cases 0 (Enemy.health e - d)) as [[Hc E] | [Hc E]];
      rewrite E; lra. }
  destruct (Enemy.health e1 <=? 0); exact I1.
Qed.

(** The hypotheses made on enemies hold of every enemy of the game: the
    constructor and [reset] establish them, [update] and the collision
    with the player keep them. *)
Lemma enemyInvariant_kept {host : MathHost} (x0 y0 now dt : Q)
    (k : Enemy.Kind) (pls : list Platform.t) (player : option Player.t)
    (e : Enemy.t) :
  enemyInvariant (Enemy.new x0 y0 k) /\
  (enemyInvariant e ->
   enemyInvariant (Enemy.update dt pls player e) /\
   enemyInvariant (Enemy.reset e) /\
   enemyInvariant (snd (fst (Enemy.checkPlayerCollision now player e)))).
Proof.
  split; [unfold enemyInvariant; cbn; splits; try reflexivity; lra|].
  intros He. splits.
  - now apply Enemy_update_invariant.
  - destruct He as (H1 & H2 & H3). unfold enemyInvariant. cbn.
    rewrite H2. splits; try assumption; try reflexivity. lra.
  - unfold Enemy.checkPlayerCollision.
    destruct player as [p|]; [|exact He].
    case_ifs; cbn [fst snd]; try exact He.
    + apply Enemy_takeDamage_invariant; [exact He|].
      destruct He as (_ & H2 & _). rewrite H2. lra.
    + destruct (Player.takeDamage now (Enemy.damage e) p). exact He.
Qed.

(** C3.  [takeDamage(d)] leaves an invulnerable player as it is.  On a
    vulnerable player the health becomes [max(0, health - d)]; the
    invulnerable flag is set exactly when that health is positive, and
    [lastDamageTime] is then the time of the hit.  With the window of
    1000 ms the constructor sets, [updateInvulnerability] at time [t]
    keeps the flag exactly while [t - now < 1000], never raises it and
    never touches the health; and the player's update of every frame
    runs that check: the flag survives the frame exactly when the window
    is still open at the frame's clock. *)
Theorem takeDamage_contract (now d : Q) (p : Player.t) :
  Player.invulnerabilityTime p = 1000 ->
  let p' := snd (Player.takeDamage now d p) in
  (Player.invulnerable p = true ->
     Player.takeDamage now d p = (false, p)) /\
  (Player.invulnerable p = false ->
     fst (Player.takeDamage now d p) = true /\
     Player.health p' = Qmax 0 (Player.health p - d) /\
     (Player.invulnerable p' = true <-> 0 < Player.health p') /\
     (0 < Player.health p' -> Player.lastDamageTime p' = now) /\
     (forall t : Q,
        Player.invulnerable (Player.updateInvulnerability t p') = true <->
        0 < Player.health p' /\ t - now < 1000)) /\
  (forall (t : Q) (q : Player.t),
     Player.invulnerable q = false ->
     Player.updateInvulnerability t q = q) /\
  (forall (t : Q) (q : Player.t),
     Player.health (Player.updateInvulnerability t q) = Player.health q) /\
  (forall (t dt : Q) (pls : list Platform.t) (q : Player.t),
     Player.invulnerable (Player.update t dt pls q) = true <->
     Player.invulnerable q = true /\
     t - Player.lastDamageTime q < Player.invulnerabilityTime q).
Proof.
  intros Hwin p'. split; [apply takeDamage_invulnerable|]. split.
  - intros Hv.
    assert (Hh : Player.health p' = Qmax 0 (Player.health p - d))
      by now apply takeDamage_health.
    assert (Hf : Player.invulnerable p' = true <-> 0 < Player.health p').
    { unfold p'. rewrite takeDamage_flag by assumption.
      rewrite takeDamage_health by assumption. apply Qgtb_gt. }
    assert (Hc : 0 < Player.health p' -> Player.lastDamageTime p' = now).
    { rewrite Hh. now apply takeDamage_clock. }
    repeat split; try assumption; try (apply Hf; assumption).
    + unfold Player.takeDamage. now rewrite Hv.
    + apply Hf. now apply updateInvulnerability_flag in H.
    + apply updateInvulnerability_flag in H. destruct H as [Hi Ht].
      rewrite (Hc (proj1 Hf Hi)) in Ht.
      destruct (takeDamage_constants now d p) as [Hk _].
      fold p' in Hk. rewrite Hk, Hwin in Ht. exact Ht.
    + intros [Hpos Ht]. apply updateInvulnerability_flag.
      split; [now apply Hf|].
      rewrite (Hc Hpos).
      destruct (takeDamage_constants now d p) as [Hk _].
      fold p' in Hk. now rewrite Hk, Hwin.
  - splits.
    + intros t q Hq. unfold Player.updateInvulnerability. now rewrite Hq.
    + intros t q. apply updateInvulnerability_health.
    + intros t dt pls q. apply Player_update_invulnerable.
Qed.

(** The scenario of the specification: a fresh player hit for 30 at time
    5000. *)
Lemma takeDamage_contract_witness :
  let p := Player.new 50 400 in
  let p' := snd (Player.takeDamage 5000 30 p) in
  Player.invulnerabilityTime p = 1000 /\
  Player.health p' = Qmax 0 (Player.health p - 30) /\
  (Player.invulnerable p' = true <-> 0 < Player.health p') /\
  (forall t : Q,
     Player.invulnerable (Player.updateInvulnerability t p') = true <->
     0 < Player.health p' /\ t - 5000 < 1000).
Proof.
  cbv zeta. split; [reflexivity|].
  destruct (@takeDamage_contract 5000 30 (Player.new 50 400) eq_refl)
    as (_ & Hv & _).
  destruct (Hv eq_refl) as (_ & Hh & Hf & _ & Ht).
  exact (conj Hh (conj Hf Ht)).
Defined.

Lemma takeDamage_healthInRange (now d : Q) (p : Player.t) :
  0 <= d -> healthInRange p ->
  healthInRange (snd (Player.takeDamage now d p)).
Proof.
  intros Hd [Hlo Hhi]. unfold healthInRange.
  destruct (takeDamage_constants now d p) as [_ Hm]. cbv zeta in Hm.
  rewrite Hm.
  destruct (Player.invulnerable p) eqn:Hi.
  - rewrite takeDamage_invulnerable by assumption. cbn. now split.
  - rewrite takeDamage_health by assumption.
    destruct (Math_max_cases 0 (Player.health p - d)) as [[Hc He] | [Hc He]];
      unfold Math_max in He; rewrite He; split; lra.
Qed.

Lemma heal_healthInRange (a : Q) (p : Player.t) :
  0 <= a -> healthInRange p -> healthInRange (Player.heal a p).
Proof.
  intros Ha [Hlo Hhi]. unfold healthInRange, Player.heal. cbn.
  destruct (Math_min_cases (Player.maxHealth p) (Player.health p + a))
    as [[Hc He] | [Hc He]]; rewrite He; split; lra.
Qed.

Lemma healthTrace_in_range (cs : list HealthCall) (p : Player.t) :
  Forall (fun c => 0 <= callAmount c) cs ->
  healthInRange p ->
  Forall healthInRange (healthTrace cs p).
Proof.
  intros Hcs. revert p.
  induction Hcs as [| c rest Hc _ IH]; intros p Hp; cbn [healthTrace].
  - constructor.
  - assert (Hp' : healthInRange (runHealthCall c p)).
    { destruct c as [now damage | amount]; cbn in Hc |- *.
      + now apply takeDamage_healthInRange.
      + now apply heal_healthInRange. }
    constructor; [exact Hp' | now apply IH].
Qed.

(** C4.  Starting from a player whose health lies in
    [[0, maxHealth]], the health lies in that interval after every call
    of a sequence of [takeDamage] and [heal] calls with non-negative
    arguments.  The player the constructor builds, with its health at
    [maxHealth], is such a start. *)
Theorem health_stays_in_range (cs : list HealthCall) (p : Player.t)
    (x0 y0 : Q) :
  Forall (fun c => 0 <= callAmount c) cs ->
  healthInRange p ->
  Forall healthInRange (healthTrace cs p) /\
  healthInRange (Player.new x0 y0) /\
  Forall healthInRange (healthTrace cs (Player.new x0 y0)).
Proof.
  intros Hcs Hp.
  assert (Hnew : healthInRange (Player.new x0 y0)) by (split; cbn; lra).
  splits.
  - now apply healthTrace_in_range.
  - exact Hnew.
  - now apply healthTrace_in_range.
Qed.

(** The scenario of the specification, from the initial player: hits of
    30 and 30, a pickup of 25, a hit of 80 once the window is over. *)
Lemma health_stays_in_range_witness :
  Forall healthInRange
    (healthTrace
       [CallTakeDamage 5000 30; CallTakeDamage 5016 30; CallHeal 25;
        CallTakeDamage 6100 80]
       (Player.updateInvulnerability 6100 (Player.new 50 400))).
Proof.
  refine (proj1 (@health_stays_in_range _ _ 50 400 _ _)).
  - repeat constructor; cbn; lra.
  - split; cbn; lra.
Defined.

(** ** Healing a dead player *)

Lemma heal_rect (a : Q) (p : Player.t) :
  getRect (Player.heal a p) = getRect p.
Proof. reflexivity. Qed.

Lemma heal_positive (a : Q) (p : Player.t) :
  0 < a -> 0 <= Player.health p -> 0 < Player.maxHealth p ->
  0 < Player.health (Player.heal a p).
Proof.
  intros Ha Hh Hm. unfold Player.heal. cbn.
  destruct (Math_min_cases (Player.maxHealth p) (Player.health p + a))
    as [[_ He] | [_ He]]; rewrite He; lra.
Qed.

Lemma collideEnemies_dead (now : Q) (es : list Enemy.t) (p : Player.t) :
  Player.isDead p = true -> Game.collideEnemies now es p = (es, p).
Proof.
  intros Hd. induction es as [| e rest IH]; cbn [Game.collideEnemies].
  - reflexivity.
  - unfold Enemy.checkPlayerCollision. rewrite Hd, orb_true_r.
    now rewrite IH.
Qed.

(** What one collection does to the game: the player keeps its rectangle
    and its maximal health, and a collectible of positive value does not
    lower the health. *)
Lemma handleCollectibleCollection_player (k : Collectible.Collection)
    (g : Game.t) :
  0 < Collectible.collectionValue k ->
  0 <= Player.health (Game.player g) ->
  0 < Player.maxHealth (Game.player g) ->
  let g' := Game.handleCollectibleCollection k g in
  getRect (Game.player g') = getRect (Game.player g) /\
  Player.maxHealth (Game.player g') = Player.maxHealth (Game.player g) /\
  0 <= Player.health (Game.player g') /\
  (0 < Player.health (Game.player g) -> 0 < Player.health (Game.player g')) /\
  (Collectible.collectionEffect k = Collectible.HealthEffect ->
   0 < Player.health (Game.player g')) /\
  Game.lives g' = Game.lives g.
Proof.
  intros Hv Hh Hm. unfold Game.handleCollectibleCollection.
  destruct (Collectible.collectionEffect k); cbn -[Player.heal];
    splits; try assumption; try reflexivity; try discriminate;
    try tauto.
  - apply Qlt_le_weak. now apply heal_positive.
  - intros _. now apply heal_positive.
  - intros _. now apply heal_positive.
Qed.

Lemma checkPlayerCollision_value (p : Player.t) (c : Collectible.t)
    (k : Collectible.Collection) :
  fst (Collectible.checkPlayerCollision (Some p) c) = Some k ->
  Collectible.collectionValue k = Collectible.value c /\
  Collectible.collectionType k = Collectible.type c /\
  Collectible.collectionEffect k = Collectible.getCollectionEffect c.
Proof.
  unfold Collectible.checkPlayerCollision, Collectible.collect.
  destruct (Collectible.collected c) eqn:Hc; [discriminate|].
  destruct (checkCollision c p); [|discriminate].
  cbn. intros E. injection E as <-. now cbn.
Qed.

Lemma collideCollectibles_player (cs : list Collectible.t) (g : Game.t) :
  Forall (fun c => 0 < Collectible.value c) cs ->
  0 <= Player.health (Game.player g) ->
  0 < Player.maxHealth (Game.player g) ->
  let g' := snd (Game.collideCollectibles cs g) in
  getRect (Game.player g') = getRect (Game.player g) /\
  Player.maxHealth (Game.player g') = Player.maxHealth (Game.player g) /\
  0 <= Player.health (Game.player g') /\
  (0 < Player.health (Game.player g) -> 0 < Player.health (Game.player g')) /\
  Game.lives g' = Game.lives g /\
  (forall c, In c cs -> Collectible.collected c = false ->
     Collectible.type c = Collectible.Health ->
     checkCollision c (Game.player g) = true ->
     0 < Player.health (Game.player g')).
Proof.
  intros Hcs. revert g.
  induction Hcs as [| c0 rest Hv _ IH]; intros g Hh Hm.
  - cbn. splits; try assumption; try reflexivity; try tauto.
  - cbn [Game.collideCollectibles].
    destruct (Collectible.checkPlayerCollision (Some (Game.player g)) c0)
      as [collection c0'] eqn:Hchk.
    set (g1 := match collection with
               | Some k => Game.handleCollectibleCollection k g
               | None => g
               end).
    assert (H1 : getRect (Game.player g1) = getRect (Game.player g) /\
                 Player.maxHealth (Game.player g1)
                 = Player.maxHealth (Game.player g) /\
                 0 <= Player.health (Game.player g1) /\
                 (0 < Player.health (Game.player g) ->
                  0 < Player.health (Game.player g1)) /\
                 (forall k, collection = Some k ->
                    Collectible.collectionEffect k = Collectible.HealthEffect ->
                    0 < Player.health (Game.player g1)) /\
                 Game.lives g1 = Game.lives g).
    { subst g1. destruct collection as [k|].
      - assert (Hk : fst (Collectible.checkPlayerCollision
                            (Some (Game.player g)) c0) = Some k)
          by now rewrite Hchk.
        apply checkPlayerCollision_value in Hk. destruct Hk as (Hk & _ & _).
        assert (Hkv : 0 < Collectible.collectionValue k) by now rewrite Hk.
        destruct (handleCollectibleCollection_player k g Hkv Hh Hm)
          as (R1 & R2 & R3 & R4 & R5 & R6).
        refine (conj R1 (conj R2 (conj R3 (conj R4 (conj _ R6))))).
        intros k' E HE. injection E as <-. now apply R5.
      - refine (conj eq_refl (conj eq_refl (conj Hh (conj (fun H => H)
                  (conj _ eq_refl))))).
        discriminate. }
    destruct H1 as (R1 & R2 & R3 & R4 & R5 & R6).
    assert (Hm1 : 0 < Player.maxHealth (Game.player g1)) by now rewrite R2.
    specialize (IH g1 R3 Hm1). cbv zeta in IH.
    destruct (Game.collideCollectibles rest g1) as [rest' g2] eqn:Hrest.
    cbn [snd] in IH |- *.
    destruct IH as (I1 & I2 & I3 & I4 & I5 & I6).
    splits.
    + now rewrite I1.
    + now rewrite I2.
    + assumption.
    + intros Hpos. apply I4. now apply R4.
    + now rewrite I5.
    + intros c [<- | Hin] Hnc Hty Hov.
      * apply I4. unfold Collectible.checkPlayerCollision in Hchk.
        rewrite Hnc, Hov in Hchk. unfold Collectible.collect in Hchk.
        rewrite Hnc in Hchk. injection Hchk as <- <-.
        apply (R5 _ eq_refl). cbn.
        unfold Collectible.getCollectionEffect. cbn. now rewrite Hty.
      * apply (I6 c Hin Hnc Hty).
        unfold checkCollision in Hov |- *. now rewrite R1.
Qed.

Lemma checkGameConditions_alive_lives (now : Q) (g : Game.t) :
  Player.isDead (Game.player g) = false ->
  Game.lives (Game.checkGameConditions now g) = Game.lives g.
Proof.
  intros Hd. unfold Game.checkGameConditions. rewrite Hd.
  destruct (Level.completed (Game.currentLevel g)) eqn:Hc.
  - destruct (Level.isTimeUp now (Game.currentLevel (Game.levelComplete now g)));
      reflexivity.
  - destruct (Level.isTimeUp now (Game.currentLevel g)); reflexivity.
Qed.

Lemma checkGameConditions_alive_player (now : Q) (g : Game.t) :
  Player.isDead (Game.player g) = false ->
  Game.player (Game.checkGameConditions now g) = Game.player g.
Proof.
  intros Hd. unfold Game.checkGameConditions. rewrite Hd.
  destruct (Level.completed (Game.currentLevel g)) eqn:Hc.
  - destruct (Level.isTimeUp now (Game.currentLevel (Game.levelComplete now g)));
      reflexivity.
  - destruct (Level.isTimeUp now (Game.currentLevel g)); reflexivity.
Qed.

(** A player whom the enemy loop of [handleCollisions] leaves with a
    health of 0 in an uncollected health pickup leaves
    [handleCollisions] with a positive health. *)
Lemma handleCollisions_heals (now : Q) (g : Game.t) (c : Collectible.t) :
  let hit :=
    snd (Game.collideEnemies now (Level.enemies (Game.currentLevel g))
           (Game.player g)) in
  Player.health hit == 0 ->
  0 < Player.maxHealth hit ->
  Forall (fun c => 0 < Collectible.value c)
         (Level.collectibles (Game.currentLevel g)) ->
  In c (Level.collectibles (Game.currentLevel g)) ->
  Collectible.collected c = false ->
  Collectible.type c = Collectible.Health ->
  checkCollision c hit = true ->
  0 < Player.health (Game.player (Game.handleCollisions now g)) /\
  Game.lives (Game.handleCollisions now g) = Game.lives g.
Proof.
  intros hit Hg Hgm Hvals Hin Hnc Hty Hov.
  unfold Game.handleCollisions. subst hit.
  destruct (Game.collideEnemies now (Level.enemies (Game.currentLevel g))
              (Game.player g)) as [es p1].
  cbn [snd] in *. cbn.
  set (g0 := Game.set_currentLevel _ (Game.set_player _ g)).
  assert (Hh0 : 0 <= Player.health (Game.player g0)) by (cbn; lra).
  destruct (@collideCollectibles_player
              (Level.collectibles (Game.currentLevel g)) g0 Hvals Hh0 Hgm)
    as (_ & _ & _ & _ & L & K).
  specialize (K c Hin Hnc Hty Hov).
  destruct (Game.collideCollectibles
              (Level.collectibles (Game.currentLevel g)) g0)
    as [cs g'] eqn:E.
  cbn in K, L |- *. split; assumption.
Qed.

(** [updatePlaying] runs [handleCollisions] and then
    [checkGameConditions] on the game its first three calls leave. *)
Lemma updatePlaying_stages {host : MathHost} (now deltaTime : Q)
    (input : Input.t) (fresh : nat -> list Particle.t) (g : Game.t) :
  let g0 := Game.updatePlayerInput input g in
  let moved :=
    Player.update now deltaTime (Level.platforms (Game.currentLevel g0))
      (Game.player g0) in
  let stage := Level.update deltaTime moved fresh (Game.currentLevel g0) in
  Game.updatePlaying now deltaTime input fresh g
  = Game.checkGameConditions now
      (Game.handleCollisions now
         (Game.set_player (snd stage)
            (Game.set_currentLevel (fst stage)
               (Game.set_player moved g0)))).
Proof.
  cbv zeta. unfold Game.updatePlaying.
  cbn [Game.player Game.currentLevel Game.set_player].
  now destruct (Level.update deltaTime _ fresh _).
Qed.

(** C10.  [heal] has no guard on a dead player.  With a health of 0
    [isDead()] holds, and [heal(a)] for [a > 0] sets the health to
    [min(maxHealth, a)], which is positive, so that [isDead()] no longer
    holds.  In [updatePlaying] the pickups are collected before the
    death check.  Take a frame of [updatePlaying] in which, after the
    player and the level have moved, the enemy loop of
    [handleCollisions] leaves a dead player (one who fell out of the
    world in [Player.update], or one an enemy has just killed) who
    overlaps an uncollected health pickup of the level: the pickup
    heals, [checkGameConditions] finds the player alive, and the game
    [updatePlaying] returns has a living player and all the lives it
    had. *)
Theorem heal_revives_dead_player {host : MathHost} (a now deltaTime : Q)
    (input : Input.t) (fresh : nat -> list Particle.t) (p : Player.t)
    (g : Game.t) (c : Collectible.t) :
  0 < a ->
  Player.health p == 0 -> 0 < Player.maxHealth p ->
  let g0 := Game.updatePlayerInput input g in
  let moved :=
    Player.update now deltaTime (Level.platforms (Game.currentLevel g0))
      (Game.player g0) in
  let stage := Level.update deltaTime moved fresh (Game.currentLevel g0) in
  let hit :=
    snd (Game.collideEnemies now (Level.enemies (fst stage)) (snd stage)) in
  Player.health hit == 0 ->
  0 < Player.maxHealth hit ->
  Forall (fun c => 0 < Collectible.value c) (Level.collectibles (fst stage)) ->
  In c (Level.collectibles (fst stage)) ->
  Collectible.collected c = false ->
  Collectible.type c = Collectible.Health ->
  checkCollision c hit = true ->
  (Player.isDead p = true /\
   Player.health (Player.heal a p) == Qmin (Player.maxHealth p) a /\
   0 < Player.health (Player.heal a p) /\
   Player.isDead (Player.heal a p) = false) /\
  (Player.isDead hit = true /\
   let g' := Game.updatePlaying now deltaTime input fresh g in
   0 < Player.health (Game.player g') /\
   Player.isDead (Game.player g') = false /\
   Game.lives g' = Game.lives g).
Proof.
  intros Ha Hp Hm g0 moved stage hit Hg Hgm Hvals Hin Hnc Hty Hov. split.
  - assert (Hpos : 0 < Player.health (Player.heal a p))
      by (apply heal_positive; lra).
    splits.
    + unfold Player.isDead. qbool. lra.
    + unfold Player.heal, Math_min. cbn.
      destruct (Math_min_cases (Player.maxHealth p) (Player.health p + a))
        as [[Hc He] | [Hc He]];
      destruct (Math_min_cases (Player.maxHealth p) a)
        as [[Hc' He'] | [Hc' He']];
      unfold Math_min in He, He'; rewrite He, He'; lra.
    + exact Hpos.
    + unfold Player.isDead. qbool. exact Hpos.
  - assert (Hdead : Player.isDead hit = true)
      by (unfold Player.isDead; qbool; lra).
    split; [exact Hdead|]. cbv zeta.
    rewrite updatePlaying_stages. fold g0. fold moved. fold stage.
    set (gm := Game.set_player (snd stage)
                 (Game.set_currentLevel (fst stage)
                    (Game.set_player moved g0))).
    destruct (@handleCollisions_heals now gm c Hg Hgm Hvals Hin Hnc Hty Hov)
      as [Hpos Hl].
    assert (Hnd : Player.isDead (Game.player (Game.handleCollisions now gm))
                  = false) by (unfold Player.isDead; qbool; exact Hpos).
    splits.
    + now rewrite checkGameConditions_alive_player.
    + now rewrite checkGameConditions_alive_player.
    + rewrite checkGameConditions_alive_lives by assumption.
      now rewrite Hl.
Qed.

(** The player of [woundedGame] in a frame of 16 ms with no key held:
    the enemy takes the last 20 of health, the pickup gives 25 back, and
    the frame ends with a living player and the three lives. *)
Lemma heal_revives_dead_player_witness :
  let input := Input.make false false false in
  let fresh := fun _ : nat => @nil Particle.t in
  let g' := @Game.updatePlaying sampleHost 0 16 input fresh woundedGame in
  Player.isDead (Player.heal 25 deadPlayer) = false /\
  0 < Player.health (Game.player g') /\
  Player.isDead (Game.player g') = false /\
  Game.lives g' = Game.lives woundedGame.
Proof.
  cbv zeta.
  destruct (@heal_revives_dead_player sampleHost 25 0 16
              (Input.make false false false) (fun _ => [])
              deadPlayer woundedGame
              (hd healthPickup
                 (Level.collectibles
                    (fst (@Level.update sampleHost 16
                            (Player.update 0 16
                               (Level.platforms (Game.currentLevel woundedGame))
                               (Game.player woundedGame))
                            (fun _ => [])
                            (Game.currentLevel woundedGame))))))
    as [(_ & _ & _ & H1) (_ & H2 & H3 & H4)];
    try (vm_compute; reflexivity).
  - vm_compute. repeat constructor.
  - vm_compute. left. reflexivity.
  - exact (conj H1 (conj H2 (conj H3 H4))).
Defined.

(** ** Enemy: collision with the player *)

Lemma Enemy_takeDamage_lethal (e : Enemy.t) :
  Enemy.isAlive e = true ->
  Enemy.health e <= Enemy.maxHealth e ->
  let r := Enemy.takeDamage (Enemy.maxHealth e) e in
  fst r = true /\
  Enemy.isAlive (snd r) = false /\
  Enemy.health (snd r) == 0 /\
  Enemy.velocityX (snd r) = 0 /\
  Enemy.deathTimer (snd r) = 0.
Proof.
  intros Ha Hh. unfold Enemy.takeDamage. rewrite Ha. cbn.
  assert (Hz : Math_max 0 (Enemy.health e - Enemy.maxHealth e) == 0).
  { destruct (Math_max_cases 0 (Enemy.health e - Enemy.maxHealth e))
      as [[Hc He] | [Hc He]]; rewrite He; lra. }
  assert (Hb : (Math_max 0 (Enemy.health e - Enemy.maxHealth e) <=? 0) = true)
    by (qbool; lra).
  rewrite Hb. cbn. splits; try reflexivity. exact Hz.
Qed.

Lemma jumpsOn_test (p : Player.t) (e : Enemy.t) :
  (Player.y p + Player.height p <=? Enemy.y e + 10)
  && (Player.velocityY p >? 0) = true <-> jumpsOn p e.
Proof.
  unfold jumpsOn. now rewrite andb_true_iff, Qleb_le, Qgtb_gt.
Qed.

(** C5.  An alive enemy (with the damage and the health bound of
    [enemyInvariant], which every enemy of the game has) meets a player
    who is not dead and whose rectangle overlaps its own.  If the
    player's bottom edge is at most 10 below the enemy's top and the
    player moves down, the enemy dies of [takeDamage(maxHealth)], the player's [velocityY]
    becomes -8 with every other field, the health among them, as it
    was, and the call returns false.  Otherwise the call is
    [player.takeDamage(damage)], with the enemy's damage of 20: the
    enemy is unchanged; an invulnerable player is unchanged too and the
    call returns false; a vulnerable player is damaged and the call
    returns true: the health becomes [max(0, health - 20)], and, when
    something of it is left, the player turns invulnerable from [now]
    on. *)
Theorem enemy_player_collision (now : Q) (e : Enemy.t) (p : Player.t) :
  enemyInvariant e ->
  Enemy.isAlive e = true ->
  Player.isDead p = false ->
  checkCollision e p = true ->
  (jumpsOn p e ->
     let e' := snd (Enemy.takeDamage (Enemy.maxHealth e) e) in
     let p' := Player.set_velocityY (-8) p in
     Enemy.checkPlayerCollision now (Some p) e = (false, e', Some p') /\
     Enemy.isAlive e' = false /\ Enemy.health e' == 0 /\
     Player.velocityY p' = -8 /\ Player.health p' = Player.health p) /\
  (~ jumpsOn p e ->
     Enemy.checkPlayerCollision now (Some p) e
     = (fst (Player.takeDamage now 20 p), e,
        Some (snd (Player.takeDamage now 20 p))) /\
     (Player.invulnerable p = true ->
      Enemy.checkPlayerCollision now (Some p) e = (false, e, Some p)) /\
     (Player.invulnerable p = false ->
      let p' := snd (Player.takeDamage now 20 p) in
      Enemy.checkPlayerCollision now (Some p) e = (true, e, Some p') /\
      Player.health p' = Math_max 0 (Player.health p - 20) /\
      (20 < Player.health p ->
       Player.invulnerable p' = true /\ Player.lastDamageTime p' = now) /\
      (Player.health p <= 20 ->
       Player.isDead p' = true /\ Player.invulnerable p' = false))).
Proof.
  intros (Hdmg & Hmax & Hh) Ha Hd Hov.
  rewrite <- Hmax in Hh.
  unfold Enemy.checkPlayerCollision. rewrite Ha, Hd, Hov. cbn [negb orb].
  split.
  - intros Hj. cbv zeta. apply jumpsOn_test in Hj. rewrite Hj.
    destruct (Enemy_takeDamage_lethal e Ha Hh) as (_ & H1 & H2 & _).
    splits; try reflexivity; assumption.
  - intros Hj.
    destruct ((Player.y p + Player.height p <=? Enemy.y e + 10)
              && (Player.velocityY p >? 0)) eqn:Ht.
    + apply jumpsOn_test in Ht. contradiction.
    + rewrite Hdmg. splits.
      * now destruct (Player.takeDamage now 20 p).
      * intros Hi. now rewrite takeDamage_invulnerable by assumption.
      * intros Hi. cbv zeta.
        pose proof (takeDamage_health now 20 p Hi) as Hhealth.
        pose proof (takeDamage_flag now 20 p Hi) as Hflag.
        assert (Hfst : fst (Player.takeDamage now 20 p) = true)
          by (unfold Player.takeDamage; now rewrite Hi).
        splits.
        -- revert Hfst.
           destruct (Player.takeDamage now 20 p) as [applied q].
           cbn. now intros ->.
        -- exact Hhealth.
        -- intros Hgt.
           assert (Hpos : 0 < Qmax 0 (Player.health p - 20))
             by (apply Q.max_lt_iff; right; lra).
           split.
           ++ rewrite Hflag. now apply Qgtb_gt.
           ++ now apply takeDamage_clock.
        -- intros Hle.
           assert (Hzero : Qmax 0 (Player.health p - 20) == 0)
             by (apply Q.max_l; lra).
           split.
           ++ unfold Player.isDead. rewrite Hhealth. apply Qleb_le.
              rewrite Hzero. lra.
           ++ rewrite Hflag. apply not_true_is_false. intros Hgt.
              apply Qgtb_gt in Hgt. rewrite Hzero in Hgt. lra.
Qed.

(** The player of [fallingPlayer] falls on the enemy of [groundEnemy];
    the player of [woundedGame] walks into its enemy. *)
Lemma enemy_player_collision_witness :
  let walker := Game.player woundedGame in
  let enemy := Enemy.new 110 468 Enemy.Patrol in
  jumpsOn fallingPlayer groundEnemy /\
  Enemy.isAlive (snd (fst (Enemy.checkPlayerCollision 0 (Some fallingPlayer)
                             groundEnemy))) = false /\
  Enemy.checkPlayerCollision 0 (Some fallingPlayer) groundEnemy
  = (false, snd (Enemy.takeDamage 50 groundEnemy),
     Some (Player.set_velocityY (-8) fallingPlayer)) /\
  ~ jumpsOn walker enemy /\
  Enemy.checkPlayerCollision 0 (Some walker) enemy
  = (true, enemy, Some (snd (Player.takeDamage 0 20 walker))) /\
  Player.health (snd (Player.takeDamage 0 20 walker))
  = Math_max 0 (Player.health walker - 20) /\
  Player.isDead (snd (Player.takeDamage 0 20 walker)) = true.
Proof.
  cbv zeta.
  assert (Hj : jumpsOn fallingPlayer groundEnemy)
    by (split; [vm_compute; discriminate | reflexivity]).
  assert (Hn : ~ jumpsOn (Game.player woundedGame)
                 (Enemy.new 110 468 Enemy.Patrol))
    by (intros [_ Hv]; vm_compute in Hv; discriminate).
  assert (Hinv : forall x0 y0, enemyInvariant (Enemy.new x0 y0 Enemy.Patrol))
    by (intros x0 y0; unfold enemyInvariant; cbn; splits;
        try reflexivity; lra).
  destruct (@enemy_player_collision 0 groundEnemy fallingPlayer
              (Hinv _ _) eq_refl eq_refl eq_refl) as [Hstomp _].
  destruct (@enemy_player_collision 0 (Enemy.new 110 468 Enemy.Patrol)
              (Game.player woundedGame) (Hinv _ _) eq_refl eq_refl eq_refl)
    as [_ Hhit].
  destruct (Hstomp Hj) as (Heq & Hdead & _).
  destruct (Hhit Hn) as (_ & _ & Hvulnerable).
  destruct (Hvulnerable eq_refl) as (Heq' & Hhealth & _ & Hkilled).
  assert (Hle : Player.health (Game.player woundedGame) <= 20)
    by (vm_compute; discriminate).
  destruct (Hkilled Hle) as [Hkill _].
  splits; assumption.
Defined.

(** ** Enemy: the chase state *)











(** ** Camera: the lookahead term *)

(** C8.  The horizontal position [updateTargetFollowing] computes with
    the lookahead term is replaced, on both branches of the deadzone
    test, before it is read: the update equals the one with the term
    deleted, and it yields the same camera whatever the target's
    [velocityX] is, undefined included. *)
Theorem lookahead_is_dead_code (dt : Q) (target : Target.t) (v : option Q)
    (c : Camera.t) :
  Camera.updateTargetFollowing dt target c
  = Camera.updateTargetFollowing_no_lookahead dt target c /\
  Camera.updateTargetFollowing dt (withVelocityX v target) c
  = Camera.updateTargetFollowing dt target c.
Proof.
  split.
  - unfold Camera.updateTargetFollowing,
      Camera.updateTargetFollowing_no_lookahead.
    reflexivity.
  - unfold Camera.updateTargetFollowing, withVelocityX. reflexivity.
Qed.

(** ** Collectible: a single report *)

Lemma updateAnimation_collected (dt : Q) (c : Collectible.t) :
  Collectible.collected (Collectible.updateAnimation dt c)
  = Collectible.collected c.
Proof. unfold Collectible.updateAnimation. case_ifs; reflexivity. Qed.

Lemma updateBobbing_collected {host : MathHost} (dt : Q)
    (c : Collectible.t) :
  Collectible.collected (Collectible.updateBobbing dt c)
  = Collectible.collected c.
Proof. reflexivity. Qed.

Lemma updateRotation_collected {host : MathHost} (dt : Q)
    (c : Collectible.t) :
  Collectible.collected (Collectible.updateRotation dt c)
  = Collectible.collected c.
Proof. unfold Collectible.updateRotation. case_ifs; reflexivity. Qed.

Lemma updateGlow_collected (dt : Q) (c : Collectible.t) :
  Collectible.collected (Collectible.updateGlow dt c)
  = Collectible.collected c.
Proof. unfold Collectible.updateGlow. case_ifs; reflexivity. Qed.

Lemma updateMagneticAttraction_collected {host : MathHost} (p : Player.t)
    (dt : Q) (c : Collectible.t) :
  Collectible.collected (Collectible.updateMagneticAttraction p dt c)
  = Collectible.collected c.
Proof.
  unfold Collectible.updateMagneticAttraction. case_ifs; reflexivity.
Qed.

Lemma updateCollectionAnimation_collected (dt : Q) (c : Collectible.t) :
  Collectible.collected (Collectible.updateCollectionAnimation dt c)
  = Collectible.collected c.
Proof.
  unfold Collectible.updateCollectionAnimation. case_ifs; reflexivity.
Qed.

(** The per-frame update never writes the collected flag. *)
Lemma Collectible_update_collected {host : MathHost} (dt : Q)
    (player : option Player.t) (c : Collectible.t) :
  Collectible.collected (Collectible.update dt player c)
  = Collectible.collected c.
Proof.
  unfold Collectible.update.
  destruct (Collectible.collected c
            && negb (CollectionAnimation.active
                       (Collectible.collectionAnimation c)));
    [reflexivity|].
  set (c1 := Collectible.updateGlow dt
               (Collectible.updateRotation dt
                  (Collectible.updateBobbing dt
                     (Collectible.updateAnimation dt c)))).
  assert (H1 : Collectible.collected c1 = Collectible.collected c).
  { subst c1. now rewrite updateGlow_collected, updateRotation_collected,
      updateBobbing_collected, updateAnimation_collected. }
  set (c2 := match player with
             | Some player =>
                 if negb (Collectible.collected c1)
                 then Collectible.updateMagneticAttraction player dt c1
                 else c1
             | None => c1
             end).
  assert (H2 : Collectible.collected c2 = Collectible.collected c).
  { subst c2. destruct player as [pl|]; [|exact H1].
    destruct (negb (Collectible.collected c1)); [|exact H1].
    now rewrite updateMagneticAttraction_collected. }
  destruct (CollectionAnimation.active (Collectible.collectionAnimation c2));
    [|exact H2].
  now rewrite updateCollectionAnimation_collected.
Qed.

Lemma checkPlayerCollision_collected (player : option Player.t)
    (c : Collectible.t) :
  Collectible.collected c = true ->
  Collectible.checkPlayerCollision player c = (None, c).
Proof.
  intros Hc. unfold Collectible.checkPlayerCollision.
  destruct player; [now rewrite Hc | reflexivity].
Qed.

Lemma checkPlayerCollision_first (p : Player.t) (c : Collectible.t) :
  Collectible.collected c = false ->
  checkCollision c p = true ->
  exists c',
    Collectible.checkPlayerCollision (Some p) c
    = (Some (Collectible.mkCollection (Collectible.type c)
               (Collectible.value c) (Collectible.getCollectionEffect c)),
       c') /\
    Collectible.collected c' = true.
Proof.
  intros Hc Hov. unfold Collectible.checkPlayerCollision.
  rewrite Hc, Hov. unfold Collectible.collect. rewrite Hc.
  eexists. split; reflexivity.
Qed.

(** Whatever a call returns, a collected item stays collected, and a
    call that returns a result leaves the item collected. *)
Lemma runCollectibleCall_collected {host : MathHost} (k : CollectibleCall)
    (c : Collectible.t) :
  (Collectible.collected c = true ->
   fst (runCollectibleCall k c) = None /\
   Collectible.collected (snd (runCollectibleCall k c)) = true) /\
  (fst (runCollectibleCall k c) <> None ->
   Collectible.collected (snd (runCollectibleCall k c)) = true).
Proof.
  destruct k as [dt player | player |]; cbn [runCollectibleCall fst snd].
  - split; [|congruence].
    intros Hc. now rewrite Collectible_update_collected.
  - split.
    + intros Hc. now rewrite checkPlayerCollision_collected.
    + unfold Collectible.checkPlayerCollision, Collectible.collect.
      destruct player as [p|]; [|cbn; congruence].
      destruct (Collectible.collected c); [cbn; congruence|].
      destruct (checkCollision c p); cbn; congruence.
  - unfold Collectible.collect.
    destruct (Collectible.collected c) eqn:Hc; cbn; split; intros H;
      try discriminate; try (split; [reflexivity | exact Hc]);
      try exact Hc; reflexivity.
Qed.

Lemma collectibleTrace_collected {host : MathHost}
    (ks : list CollectibleCall) (c : Collectible.t) :
  Collectible.collected c = true ->
  Forall (fun r => r = None) (fst (collectibleTrace ks c)) /\
  collectionCount (fst (collectibleTrace ks c)) = 0%nat /\
  Collectible.collected (snd (collectibleTrace ks c)) = true.
Proof.
  revert c. induction ks as [| k rest IH]; intros c Hc.
  - cbn. auto.
  - cbn [collectibleTrace].
    destruct (runCollectibleCall_collected k c) as [Hk _].
    destruct (Hk Hc) as [Hr Hc'].
    destruct (runCollectibleCall k c) as [r c'].
    cbn [fst snd] in Hr, Hc'. subst r.
    destruct (IH c' Hc') as (I1 & I2 & I3).
    destruct (collectibleTrace rest c') as [rs c''].
    cbn [fst snd] in *. auto.
Qed.

Lemma collectibleTrace_at_most_once {host : MathHost}
    (ks : list CollectibleCall) (c : Collectible.t) :
  (collectionCount (fst (collectibleTrace ks c)) <= 1)%nat.
Proof.
  revert c. induction ks as [| k rest IH]; intros c.
  - cbn. lia.
  - cbn [collectibleTrace].
    destruct (runCollectibleCall_collected k c) as [_ Hk].
    destruct (runCollectibleCall k c) as [r c'].
    cbn [fst snd] in Hk.
    destruct r as [col|].
    + assert (Hc' : Collectible.collected c' = true)
        by (apply Hk; discriminate).
      destruct (collectibleTrace_collected rest c' Hc') as (_ & I2 & _).
      destruct (collectibleTrace rest c') as [rs c''].
      cbn [fst snd collectionCount] in *. lia.
    + specialize (IH c').
      destruct (collectibleTrace rest c') as [rs c''].
      cbn [fst snd collectionCount] in *. exact IH.
Qed.

(** C7.  On an uncollected item, a call of [checkPlayerCollision] with a
    player whose rectangle overlaps the item's (nothing else is asked of
    the player) returns the item's type, value and effect and leaves it
    collected.  Over any sequence of per-frame updates, collision
    checks and [collect] calls that follows, with whatever players,
    every call returns nothing and the item stays collected; [reset()]
    clears the flag.  So a sequence of such calls from any state returns
    at most one collection result. *)
Theorem collectible_reports_once {host : MathHost} (p : Player.t)
    (c : Collectible.t) (ks : list CollectibleCall) :
  Collectible.collected c = false ->
  checkCollision c p = true ->
  let r := Collectible.checkPlayerCollision (Some p) c in
  fst r = Some (Collectible.mkCollection (Collectible.type c)
                  (Collectible.value c) (Collectible.getCollectionEffect c)) /\
  Collectible.collected (snd r) = true /\
  Forall (fun res => res = None) (fst (collectibleTrace ks (snd r))) /\
  Collectible.collected (snd (collectibleTrace ks (snd r))) = true /\
  (collectionCount (fst (collectibleTrace (CallCheck (Some p) :: ks) c))
   = 1)%nat /\
  (forall (ks' : list CollectibleCall) (c0 : Collectible.t),
     (collectionCount (fst (collectibleTrace ks' c0)) <= 1)%nat) /\
  Collectible.collected (Collectible.reset (snd r)) = false.
Proof.
  intros Hc Hov r.
  destruct (checkPlayerCollision_first p c Hc Hov) as (c' & Heq & Hc').
  assert (Hr : r = (Some (Collectible.mkCollection (Collectible.type c)
                            (Collectible.value c)
                            (Collectible.getCollectionEffect c)), c'))
    by exact Heq.
  destruct (collectibleTrace_collected ks c' Hc') as (T1 & T2 & T3).
  rewrite Hr. cbn [fst snd]. splits; try assumption; try reflexivity.
  - cbn [collectibleTrace runCollectibleCall]. rewrite Heq.
    destruct (collectibleTrace ks c') as [rs c''].
    cbn [fst snd collectionCount] in *. now rewrite T2.
  - intros ks' c0. apply collectibleTrace_at_most_once.
Qed.

(** A health pickup and a player standing in it, over the frames that
    follow the collection. *)
Lemma collectible_reports_once_witness :
  let r := Collectible.checkPlayerCollision (Some deadPlayer) healthPickup in
  fst r = Some (Collectible.mkCollection Collectible.Health 25
                  Collectible.HealthEffect) /\
  Forall (fun res => res = None)
    (fst (collectibleTrace (host := sampleHost)
            [CallUpdate 16 (Some deadPlayer); CallCheck (Some deadPlayer);
             CallUpdate 16 (Some deadPlayer); CallCollect]
            (snd r))).
Proof.
  cbv zeta.
  destruct (@collectible_reports_once sampleHost deadPlayer healthPickup
              [CallUpdate 16 (Some deadPlayer); CallCheck (Some deadPlayer);
               CallUpdate 16 (Some deadPlayer); CallCollect]
              eq_refl eq_refl) as (H1 & _ & H3 & _).
  exact (conj H1 H3).
Defined.

(** ** Platforms in the playing update *)

(** One step of the player's collision loop reads the rectangle of the
    platform and nothing else. *)
Lemma resolvePlatform_rect {A B : Type} `{HasRect A} `{HasRect B}
    (p : Player.t) (a : A) (b : B) :
  getRect a = getRect b ->
  Player.resolvePlatform p a = Player.resolvePlatform p b.
Proof.
  intros E. unfold Player.resolvePlatform, checkCollision. now rewrite E.
Qed.

Lemma handlePlatformCollisions_rects {A : Type} `{HasRect A}
    (pls : list A) (p : Player.t) :
  Player.handlePlatformCollisions pls p
  = Player.handlePlatformCollisions (map getRect pls) p.
Proof.
  unfold Player.handlePlatformCollisions.
  generalize (Player.set_isGrounded false p). clear p.
  induction pls as [| pl rest IH]; intros p; cbn [map fold_left].
  - reflexivity.
  - rewrite IH. reflexivity.
Qed.

(** The player's update is the same whether the platforms of the level
    are crumbling or not, and whatever their type is. *)
Lemma Player_update_ignores_platform_state (now dt : Q)
    (pls pls' : list Platform.t) (p : Player.t) :
  map getRect pls = map getRect pls' ->
  Player.update now dt pls p = Player.update now dt pls' p.
Proof.
  intros E. unfold Player.update.
  rewrite (handlePlatformCollisions_rects pls),
    (handlePlatformCollisions_rects pls'), E.
  reflexivity.
Qed.


(** A player whose rectangle is in edge contact with a crumbling platform
    (one the collision loop has put on its top) is not on it for
    [updateCrumbling]: the timer does not run. *)
Lemma resting_player_does_not_crumble (dt : Q) (p : Player.t)
    (fresh : list Particle.t) (pl : Platform.t) :
  edgeContact (getRect p) (getRect pl) ->
  let pl' := Platform.updateCrumbling dt (Some p) fresh pl in
  Platform.isPlayerOn pl' = false /\
  Platform.crumbleTimer pl' = Platform.crumbleTimer pl /\
  Platform.isCrumbling pl' = Platform.isCrumbling pl.
Proof.
  intros Hc. unfold Platform.updateCrumbling.
  replace (checkCollision p (Platform.set_isPlayerOn false pl))
    with (checkCollision p pl) by reflexivity.
  rewrite (checkCollision_edgeContact p pl Hc). cbn. auto.
Qed.

(** C1, on the code.  The crumbling platform of [crumblingPlatform] is
    occupied frame after frame: after 950 ms and after 999 ms
    [providesCollision()] holds, after 1000 ms the platform is crumbling
    and [providesCollision()] no longer holds.  The player's update of a
    later frame, handed the platforms of the level, still lands the
    falling player on the crumbled platform: [handlePlatformCollisions]
    never calls [providesCollision]. *)
Theorem crumbled_platform_still_collides :
  let at950 := standFor 19 50 crumblingPlatform in
  let at999 := standFor 1 49 at950 in
  let at1000 := standFor 1 1 at999 in
  let landed := Player.update 0 16 [at1000] faller in
  Platform.providesCollision at950 = true /\
  Platform.providesCollision at999 = true /\
  Platform.isCrumbling at1000 = true /\
  Platform.providesCollision at1000 = false /\
  Player.isGrounded landed = true /\
  Player.y landed == 302 /\
  Player.velocityY landed == 0 /\
  Player.isGrounded (Player.update 0 16 (@nil Platform.t) faller) = false.
Proof. vm_compute. intuition discriminate. Qed.

Lemma resolvePlatform_landing (pl : Rect.t) (p : Player.t) :
  (Player.isGrounded p = true -> Player.velocityY p = 0) ->
  Player.isGrounded (Player.resolvePlatform p pl) = true ->
  Player.velocityY (Player.resolvePlatform p pl) = 0.
Proof.
  unfold Player.resolvePlatform. case_ifs; cbn; auto; discriminate.
Qed.

Lemma handlePlatformCollisions_landing (pls : list Rect.t) (p : Player.t) :
  Player.isGrounded (Player.handlePlatformCollisions pls p) = true ->
  Player.velocityY (Player.handlePlatformCollisions pls p) = 0.
Proof.
  unfold Player.handlePlatformCollisions.
  assert (H0 : Player.isGrounded (Player.set_isGrounded false p) = true ->
               Player.velocityY (Player.set_isGrounded false p) = 0)
    by discriminate.
  revert H0. generalize (Player.set_isGrounded false p). clear p.
  induction pls as [| pl rest IH]; intros p Hp; cbn [fold_left].
  - exact Hp.
  - apply IH. now apply resolvePlatform_landing.
Qed.

Lemma Player_update_tail (now dt : Q) (p : Player.t) :
  let p' :=
    Player.constrainToWorld now
      (Player.updateInvulnerability now (Player.updateAnimation dt p)) in
  Player.isGrounded p' = Player.isGrounded p /\
  Player.velocityY p' = Player.velocityY p.
Proof.
  unfold Player.constrainToWorld, Player.takeDamage,
    Player.updateInvulnerability, Player.updateAnimation.
  cbv zeta. case_ifs; cbn; auto.
Qed.

(** In the playing update a landing leaves the vertical velocity at 0,
    whatever the platforms are. *)
Lemma landing_zeroes_velocity (now dt : Q) (pls : list Platform.t)
    (p : Player.t) :
  Player.isGrounded (Player.update now dt pls p) = true ->
  Player.velocityY (Player.update now dt pls p) = 0.
Proof.
  unfold Player.update.
  destruct (Player_update_tail now dt
              (Player.handlePlatformCollisions pls
                 (Player.updatePhysics dt (Player.handleInput p))))
    as [Hg Hv].
  cbv zeta in Hg, Hv. rewrite Hg, Hv.
  rewrite handlePlatformCollisions_rects.
  apply handlePlatformCollisions_landing.
Qed.

(** What [Platform.handlePlayerCollision] does on a landing: the bounce
    of a bouncy platform. *)
Lemma handlePlayerCollision_bounce (p : Player.t) (pl : Platform.t) :
  Platform.type pl = Platform.Bouncy ->
  fst (fst (Platform.handlePlayerCollision p pl)) = Some Platform.SideTop ->
  let p' := snd (Platform.handlePlayerCollision p pl) in
  Player.velocityY p' = - Platform.bounceForce pl /\
  Player.isGrounded p' = true /\
  Player.canDoubleJump p' = false /\
  Player.hasDoubleJumped p' = false.
Proof.
  intros Hty. unfold Platform.handlePlayerCollision. rewrite Hty.
  case_ifs; cbn; rewrite ?Hty; try discriminate;
    intros _; splits; reflexivity.
Qed.

(** C2, on the code.  The player of [jumper] falls on the bouncy
    platform of [bouncyPlatform].  [Platform.handlePlayerCollision]
    would report a landing on top, set [velocityY] to [-bounceForce]
    (-20) and ground the player; but the playing update resolves the
    landing in [Player.handlePlatformCollisions], which the game calls
    instead: after [Player.update], and after the whole of
    [Game.updatePlaying], the player is grounded with the double-jump
    flags reset and a [velocityY] of 0. *)
Theorem bouncy_landing_does_not_bounce :
  let falling := Player.updatePhysics 16 (Player.handleInput jumper) in
  let bounced := Platform.handlePlayerCollision falling bouncyPlatform in
  let landed := Player.update 0 16 [bouncyPlatform] jumper in
  let played :=
    Game.player
      (Game.updatePlaying (host := sampleHost) 0 16
         (Input.make false false false) (fun _ => burst) bouncyGame) in
  fst (fst bounced) = Some Platform.SideTop /\
  Player.velocityY (snd bounced) == - Platform.bounceForce bouncyPlatform /\
  Player.isGrounded (snd bounced) = true /\
  Player.isGrounded landed = true /\
  Player.canDoubleJump landed = false /\
  Player.hasDoubleJumped landed = false /\
  Player.velocityY landed == 0 /\
  ~ Player.velocityY landed == - Platform.bounceForce bouncyPlatform /\
  Player.isGrounded played = true /\
  Player.velocityY played == 0.
Proof. vm_compute. intuition discriminate. Qed.

(** ** The scenarios of the specification *)

(** A player with 100 of health takes 30: health 70, invulnerable.  A
    second hit of 30 at once changes nothing.  Once the window is over a
    hit of 80 brings the health to 0: the player is dead, and not
    invulnerable. *)
Example damage_scenario :
  let p0 := Player.new 50 400 in
  let p1 := snd (Player.takeDamage 5000 30 p0) in
  let p2 := snd (Player.takeDamage 5016 30 p1) in
  let p3 := Player.updateInvulnerability 5999 p2 in
  let p4 := Player.updateInvulnerability 6000 p3 in
  let p5 := snd (Player.takeDamage 6000 80 p4) in
  Player.health p1 == 70 /\ Player.invulnerable p1 = true /\
  p2 = p1 /\
  Player.invulnerable p3 = true /\ Player.invulnerable p4 = false /\
  Player.health p5 == 0 /\ Player.isDead p5 = true /\
  Player.invulnerable p5 = false.
Proof. vm_compute. intuition discriminate. Qed.

(** With the detection range of 150 and the square root of
    [sampleHost]: a player at 150 is detected; a chasing enemy keeps
    chasing a player at 210 and at 225, and gives up a player at 240; a
    patrolling enemy does not start to chase a player at 210. *)
Example chase_scenario :
  let chasing := Enemy.set_isChasing true groundEnemy in
  let ai := Enemy.updateAI (host := sampleHost) in
  Enemy.distanceToPlayer (host := sampleHost) (playerAt 150) groundEnemy
  == 150 /\
  Enemy.isChasing (ai (Some (playerAt 150)) groundEnemy) = true /\
  Enemy.isChasing (ai (Some (playerAt 210)) chasing) = true /\
  Enemy.isChasing (ai (Some (playerAt 225)) chasing) = true /\
  Enemy.isChasing (ai (Some (playerAt 240)) chasing) = false /\
  Enemy.isChasing (ai (Some (playerAt 210)) groundEnemy) = false.
Proof. vm_compute. intuition discriminate. Qed.

(** A crumbling platform in the game: the collision loop puts the
    falling player on its top, in edge contact, and the platform's
    update of the same frame does not see the player on it. *)
Example standing_scenario :
  let landed := Player.update 0 16 [crumblingPlatform] faller in
  let pl :=
    Platform.update (host := sampleHost) 16 (Some landed) burst
      crumblingPlatform in
  Player.isGrounded landed = true /\
  edgeContact (getRect landed) (getRect crumblingPlatform) /\
  Platform.isPlayerOn pl = false /\
  Platform.crumbleTimer pl == 0.
Proof.
  vm_compute. splits; try reflexivity.
  right; right; left. reflexivity.
Qed.

(** * Further properties of the code *)

(** ** utils.js *)

Lemma clamp_inside (v lo hi : Q) :
  lo <= v -> v <= hi -> clamp v lo hi = v.
Proof.
  intros Hlo Hhi. unfold clamp.
  destruct (Math_max_cases v lo) as [[_ E] | [Hc _]]; [rewrite E | lra].
  destruct (Math_min_cases v hi) as [[_ E'] | [Hc' _]]; [exact E' | lra].
Qed.

Lemma clamp_bounds (v lo hi : Q) :
  lo <= hi -> lo <= clamp v lo hi /\ clamp v lo hi <= hi.
Proof.
  intros H. unfold clamp.
  destruct (Math_max_cases v lo) as [[Hc E] | [Hc E]]; rewrite E;
    destruct (Math_min_cases v hi) as [[Hc' E'] | [Hc' E']];
    destruct (Math_min_cases lo hi) as [[Hc'' E''] | [Hc'' E'']];
    rewrite ?E', ?E''; split; lra.
Qed.

(** X1.  With ordered bounds [clamp] returns a value of the interval,
    the value itself when it lies in the interval, the bound it passed
    otherwise; with crossed bounds it returns the upper one. *)
Theorem clamp_range (v lo hi : Q) :
  (lo <= hi ->
   lo <= clamp v lo hi <= hi /\
   (lo <= v <= hi -> clamp v lo hi = v) /\
   (v < lo -> clamp v lo hi = lo) /\
   (hi < v -> clamp v lo hi = hi)) /\
  (hi < lo -> clamp v lo hi = hi).
Proof.
  split.
  - intros H. splits.
    + apply clamp_bounds; assumption.
    + apply clamp_bounds; assumption.
    + intros [H1 H2]. now apply clamp_inside.
    + intros Hv. unfold clamp.
      destruct (Math_max_cases v lo) as [[Hc E] | [Hc E]]; [lra|].
      rewrite E.
      destruct (Math_min_cases lo hi) as [[Hc' E'] | [Hc' E']];
        [exact E' | lra].
    + intros Hv. unfold clamp.
      destruct (Math_max_cases v lo) as [[Hc E] | [Hc E]]; [|lra].
      rewrite E.
      destruct (Math_min_cases v hi) as [[Hc' E'] | [Hc' E']];
        [lra | exact E'].
  - intros H. unfold clamp.
    destruct (Math_max_cases v lo) as [[Hc E] | [Hc E]]; rewrite E.
    + destruct (Math_min_cases v hi) as [[Hc' E'] | [Hc' E']];
        [lra | exact E'].
    + destruct (Math_min_cases lo hi) as [[Hc' E'] | [Hc' E']];
        [lra | exact E'].
Qed.

Lemma clamp_range_witness :
  0 <= clamp 2500 0 1968 <= 1968 /\ clamp 2500 0 1968 = 1968 /\
  clamp 7 10 3 = 3.
Proof.
  destruct (clamp_range 2500 0 1968) as [Hord _].
  destruct (clamp_range 7 10 3) as [_ Hcross].
  assert (H0 : 0 <= 1968) by (vm_compute; discriminate).
  destruct (Hord H0) as (Hb & _ & _ & Hhi).
  splits; try apply Hb.
  - apply Hhi. reflexivity.
  - apply Hcross. reflexivity.
Defined.

(** X2.  [lerp] starts at [start] for a factor of 0, and a factor
    that is not negative never takes it to the other side of [start]:
    the result is at least [start] when [end] is, at most [start] when
    [end] is, and [start] itself when the two are the same. *)
Theorem lerp_leaves_start_toward_end (a b f : Q) :
  0 <= f ->
  lerp a b 0 == a /\
  (a <= b -> a <= lerp a b f) /\
  (b <= a -> lerp a b f <= a) /\
  (a == b -> lerp a b f == a).
Proof.
  intros H0. unfold lerp. splits.
  - ring.
  - intros H. nra.
  - intros H. nra.
  - intros H. rewrite H. ring.
Qed.

(** The zoom of the camera on its way from 1 to 2 and from 1 to one
    half. *)
Lemma lerp_leaves_start_toward_end_witness :
  1 <= lerp 1 2 0.05 /\ lerp 1 (1/2) 0.05 <= 1.
Proof.
  assert (H0 : 0 <= 0.05) by (vm_compute; discriminate).
  destruct (@lerp_leaves_start_toward_end 1 2 0.05 H0) as (_ & Hup & _).
  destruct (@lerp_leaves_start_toward_end 1 (1/2) 0.05 H0)
    as (_ & _ & Hdown & _).
  split.
  - apply Hup. vm_compute. discriminate.
  - apply Hdown. vm_compute. discriminate.
Defined.

(** X3.  [checkCollision] does not depend on the order of its two
    rectangles; a rectangle collides with itself exactly when its width
    and height are positive. *)
Theorem checkCollision_symmetric {A B : Type} `{HasRect A} `{HasRect B}
    (rect1 : A) (rect2 : B) :
  checkCollision rect1 rect2 = checkCollision rect2 rect1 /\
  (checkCollision rect1 rect1 = true <->
   0 < Rect.width (getRect rect1) /\ 0 < Rect.height (getRect rect1)).
Proof.
  split.
  - apply eq_true_iff_eq. rewrite !checkCollision_true_iff. tauto.
  - rewrite checkCollision_true_iff. split.
    + intros (H1 & _ & H3 & _). split; lra.
    + intros [Hw Hh]. splits; lra.
Qed.

(** X4.  [easeInOutQuad] maps 0 to 0, one half to one half and 1 to 1;
    it keeps the lower half of [[0, 1]] in the lower half and the upper
    half in the upper half, and so [[0, 1]] in [[0, 1]]. *)
Theorem easeInOutQuad_shape (t : Q) :
  easeInOutQuad 0 == 0 /\ easeInOutQuad 0.5 == 0.5 /\ easeInOutQuad 1 == 1 /\
  (0 <= t -> t < 0.5 -> 0 <= easeInOutQuad t <= 0.5) /\
  (0.5 <= t -> t <= 1 -> 0.5 <= easeInOutQuad t <= 1) /\
  (0 <= t <= 1 -> 0 <= easeInOutQuad t <= 1).
Proof.
  splits; try reflexivity.
  - intros H0 H1. unfold easeInOutQuad.
    destruct (t <? 0.5) eqn:Ht; qbool; [|exfalso; lra]. split; nra.
  - intros H0 H1. unfold easeInOutQuad.
    destruct (t <? 0.5) eqn:Ht; qbool; [exfalso; lra|]. split; nra.
  - intros [H0 H1]. unfold easeInOutQuad.
    destruct (t <? 0.5) eqn:Ht; qbool; split; nra.
Qed.

Lemma easeInOutQuad_shape_witness :
  0 <= easeInOutQuad 0.25 <= 0.5 /\ 0.5 <= easeInOutQuad 0.75 <= 1.
Proof.
  destruct (easeInOutQuad_shape 0.25) as (_ & _ & _ & Hlow & _).
  destruct (easeInOutQuad_shape 0.75) as (_ & _ & _ & _ & Hhigh & _).
  split.
  - apply Hlow; vm_compute; [discriminate | reflexivity].
  - apply Hhigh; vm_compute; discriminate.
Defined.

(** ** Player: movement *)

(** Names the boolean fields of a player; [case_bools] then goes through
    their values. *)
Ltac player_cases q :=
  destruct q as [? ? ? ? ? ? ? ? ? ? ? ?grounded ?charge ?spent ? ? ? ? ? ?
                 ? ? ? ? [?kl ?kr ?kj ?kp] ? ? ?].

Ltac case_bools :=
  repeat match goal with
  | b : bool |- _ => destruct b
  end.

(** X5.  [updatePhysics] limits the velocity before it moves the player:
    the horizontal velocity ends in [[-speed, speed]], the vertical one
    in [[-1.2 jumpPower, maxFallSpeed]], and the position advances by
    exactly that limited velocity. *)
Theorem updatePhysics_limits (dt : Q) (p : Player.t) :
  0 <= Player.speed p ->
  - Player.jumpPower p * 1.2 <= Player.maxFallSpeed p ->
  let p' := Player.updatePhysics dt p in
  - Player.speed p <= Player.velocityX p' <= Player.speed p /\
  - Player.jumpPower p * 1.2 <= Player.velocityY p' <= Player.maxFallSpeed p /\
  Player.x p' = Player.x p + Player.velocityX p' /\
  Player.y p' = Player.y p + Player.velocityY p'.
Proof.
  intros Hs Hj. unfold Player.updatePhysics. cbv zeta.
  assert (Hs' : - Player.speed p <= Player.speed p) by lra.
  destruct (Player.isGrounded p) eqn:Hg; cbn -[clamp]; rewrite ?Hg;
    cbn -[clamp]; splits; try reflexivity;
    first [ apply (proj1 (clamp_bounds _ Hs'))
          | apply (proj2 (clamp_bounds _ Hs'))
          | apply (proj1 (clamp_bounds _ Hj))
          | apply (proj2 (clamp_bounds _ Hj)) ].
Qed.

Lemma updatePhysics_limits_witness :
  let p' := Player.updatePhysics 16 (Player.set_velocityY 30 (Player.new 0 0)) in
  Player.velocityY p' <= 15 /\ Player.y p' = 0 + Player.velocityY p'.
Proof.
  destruct (@updatePhysics_limits 16
              (Player.set_velocityY 30 (Player.new 0 0)))
    as (_ & [_ Hv] & _ & Hy).
  - vm_compute. discriminate.
  - vm_compute. discriminate.
  - exact (conj Hv Hy).
Defined.

(** X6.  Jumping is edge-triggered.  [handleInput] records the state of
    the jump key in [keys.jump]; while that record says the key was down
    on the previous frame no jump starts, whatever else holds: the
    vertical velocity and the double-jump flags are left alone.  So a
    key held over consecutive frames starts at most one jump. *)
Theorem jump_is_edge_triggered (p : Player.t) :
  Keys.jump (Player.keys (Player.handleInput p))
  = Keys.jumpPressed (Player.keys p) /\
  Keys.jumpPressed (Player.keys (Player.handleInput p))
  = Keys.jumpPressed (Player.keys p) /\
  (Keys.jump (Player.keys p) = true \/
   Keys.jumpPressed (Player.keys p) = false ->
   Player.velocityY (Player.handleInput p) = Player.velocityY p /\
   Player.isGrounded (Player.handleInput p) = Player.isGrounded p /\
   Player.canDoubleJump (Player.handleInput p) = Player.canDoubleJump p /\
   Player.hasDoubleJumped (Player.handleInput p) = Player.hasDoubleJumped p) /\
  Player.velocityY (Player.handleInput (Player.handleInput p))
  = Player.velocityY (Player.handleInput p).
Proof.
  assert (Hheld : forall q : Player.t,
    Keys.jump (Player.keys q) = true \/
    Keys.jumpPressed (Player.keys q) = false ->
    Player.velocityY (Player.handleInput q) = Player.velocityY q /\
    Player.isGrounded (Player.handleInput q) = Player.isGrounded q /\
    Player.canDoubleJump (Player.handleInput q) = Player.canDoubleJump q /\
    Player.hasDoubleJumped (Player.handleInput q) = Player.hasDoubleJumped q).
  { intros q Hq. player_cases q. cbn in Hq.
    destruct Hq as [-> | ->]; unfold Player.handleInput, Player.jump;
      destruct kl, kr; try destruct kp; cbn; auto. }
  assert (Hrec : forall q : Player.t,
    Keys.jump (Player.keys (Player.handleInput q))
    = Keys.jumpPressed (Player.keys q) /\
    Keys.jumpPressed (Player.keys (Player.handleInput q))
    = Keys.jumpPressed (Player.keys q)).
  { intros q. unfold Player.handleInput, Player.jump. cbv zeta.
    case_ifs; cbn; auto. }
  destruct (Hrec p) as [Hj Hp].
  refine (conj Hj (conj Hp (conj (Hheld p) _))).
  apply Hheld. rewrite Hj, Hp.
  destruct (Keys.jumpPressed (Player.keys p)); auto.
Qed.

Lemma jump_is_edge_triggered_witness :
  let p :=
    Player.setInput Player.KeyJump true
      (Player.set_isGrounded true (Player.new 50 452)) in
  Player.velocityY (Player.handleInput p) == -15 /\
  Player.velocityY (Player.handleInput (Player.handleInput p)) == -15 /\
  Player.isGrounded (Player.handleInput (Player.handleInput p)) = false.
Proof.
  cbv zeta.
  destruct (jump_is_edge_triggered
              (Player.handleInput
                 (Player.setInput Player.KeyJump true
                    (Player.set_isGrounded true (Player.new 50 452)))))
    as (_ & _ & Hheld & _).
  destruct (Hheld (or_introl eq_refl)) as (Hv & Hg & _).
  splits.
  - reflexivity.
  - rewrite Hv. reflexivity.
  - rewrite Hg. reflexivity.
Defined.

(** X7.  The double jump is a charge that only a jump from the ground
    loads.  A fresh press on the ground jumps at [-jumpPower] and loads
    the charge; a fresh press in the air with the charge jumps at
    [-jumpPower] and spends it; in the air without the charge (after a
    double jump, or after walking off a ledge) no input changes the
    vertical velocity, and the charge stays empty. *)
Theorem double_jump_charge (p : Player.t) :
  let fresh :=
    Keys.jumpPressed (Player.keys p) = true /\
    Keys.jump (Player.keys p) = false in
  let p' := Player.handleInput p in
  (fresh -> Player.isGrounded p = true ->
   Player.velocityY p' = - Player.jumpPower p /\
   Player.isGrounded p' = false /\
   Player.canDoubleJump p' = true /\ Player.hasDoubleJumped p' = false) /\
  (fresh -> Player.isGrounded p = false ->
   Player.canDoubleJump p = true -> Player.hasDoubleJumped p = false ->
   Player.velocityY p' = - Player.jumpPower p /\
   Player.canDoubleJump p' = false /\ Player.hasDoubleJumped p' = true) /\
  (Player.isGrounded p = false ->
   Player.canDoubleJump p = false \/ Player.hasDoubleJumped p = true ->
   Player.velocityY p' = Player.velocityY p /\
   Player.isGrounded p' = false /\
   Player.canDoubleJump p' = Player.canDoubleJump p /\
   Player.hasDoubleJumped p' = Player.hasDoubleJumped p).
Proof.
  cbv zeta. player_cases p. cbn [Player.keys Keys.jumpPressed Keys.jump
    Player.isGrounded Player.canDoubleJump Player.hasDoubleJumped
    Player.jumpPower Player.velocityY].
  splits.
  - intros [-> ->] ->. unfold Player.handleInput, Player.jump.
    destruct kl, kr; cbn; auto.
  - intros [-> ->] -> -> ->. unfold Player.handleInput, Player.jump.
    destruct kl, kr; cbn; auto.
  - intros -> [-> | ->]; unfold Player.handleInput, Player.jump;
      destruct kl, kr, kp, kj; try destruct charge; cbn; auto.
Qed.

Lemma double_jump_charge_witness :
  let walkedOff :=
    Player.setInput Player.KeyJump true (Player.new 310 452) in
  Player.velocityY (Player.handleInput walkedOff) = 0 /\
  Player.canDoubleJump (Player.handleInput walkedOff) = false.
Proof.
  cbv zeta.
  destruct (double_jump_charge
              (Player.setInput Player.KeyJump true (Player.new 310 452)))
    as (_ & _ & Hempty).
  destruct (Hempty eq_refl (or_introl eq_refl)) as (Hv & _ & Hc & _).
  exact (conj Hv Hc).
Defined.

(** X8.  [constrainToWorld] keeps a player no wider than the world
    between 0 and [2000 - width].  Below the line of 1000 a vulnerable
    player loses all health; an invulnerable one loses none and goes on
    falling.  Above the line the health is untouched. *)
Theorem constrainToWorld_bounds (now : Q) (p : Player.t) :
  Player.width p <= 2000 ->
  let p' := Player.constrainToWorld now p in
  0 <= Player.x p' <= 2000 - Player.width p /\
  Player.y p' = Player.y p /\
  (1000 < Player.y p -> Player.invulnerable p = false ->
   Player.health p' = 0 /\ Player.isDead p' = true /\
   Player.invulnerable p' = false) /\
  (1000 < Player.y p -> Player.invulnerable p = true ->
   Player.health p' = Player.health p) /\
  (Player.y p <= 1000 -> Player.health p' = Player.health p).
Proof.
  intros Hw. cbv zeta.
  assert (Hb : 0 <= 2000 - Player.width p) by lra.
  unfold Player.constrainToWorld, Player.takeDamage. cbv zeta.
  set (q := Player.set_x (clamp (Player.x p) 0 (2000 - Player.width p)) p).
  assert (Hx : 0 <= Player.x q <= 2000 - Player.width p)
    by (apply (clamp_bounds _ Hb)).
  assert (Hfatal : Math_max 0 (Player.health p - Player.health p) = 0).
  { destruct (Math_max_cases 0 (Player.health p - Player.health p))
      as [[_ E] | [Hc _]]; [exact E | lra]. }
  change (Player.y q) with (Player.y p).
  change (Player.invulnerable q) with (Player.invulnerable p).
  change (Player.health q) with (Player.health p).
  destruct (Player.y p >? 1000) eqn:Hy; qbool;
    destruct (Player.invulnerable p) eqn:Hi; cbn [snd];
    cbn [Player.health Player.set_health Player.x Player.y
         Player.invulnerable Player.set_invulnerable
         Player.set_lastDamageTime];
    rewrite ?Hfatal; cbn;
    (split; [exact Hx|]); splits; try reflexivity; try assumption;
    intros; splits; try discriminate; try reflexivity; try assumption;
    try lra.
Qed.

Lemma constrainToWorld_bounds_witness :
  let p := Player.new 2500 1200 in
  0 <= Player.x (Player.constrainToWorld 0 p) <= 2000 - Player.width p /\
  Player.isDead (Player.constrainToWorld 0 p) = true /\
  Player.health
    (Player.constrainToWorld 0 (Player.set_invulnerable true p)) = 100.
Proof.
  cbv zeta.
  assert (Hw : Player.width (Player.new 2500 1200) <= 2000)
    by (vm_compute; discriminate).
  assert (Hy : 1000 < Player.y (Player.new 2500 1200)) by reflexivity.
  destruct (@constrainToWorld_bounds 0 (Player.new 2500 1200) Hw)
    as (Hx & _ & Hdie & _).
  destruct (@constrainToWorld_bounds 0
              (Player.set_invulnerable true (Player.new 2500 1200)) Hw)
    as (_ & _ & _ & Hkeep & _).
  destruct (Hdie Hy eq_refl) as (_ & Hd & _).
  exact (conj Hx (conj Hd (Hkeep Hy eq_refl))).
Defined.

(** ** Player: checkpoints *)

Lemma runHealthCall_checkpoint (c : HealthCall) (p : Player.t) :
  Player.checkpointX (runHealthCall c p) = Player.checkpointX p /\
  Player.checkpointY (runHealthCall c p) = Player.checkpointY p /\
  Player.lastCheckpointHealth (runHealthCall c p)
  = Player.lastCheckpointHealth p.
Proof.
  destruct c as [now d | a]; cbn [runHealthCall].
  - unfold Player.takeDamage. case_ifs; cbn; auto.
  - cbn. auto.
Qed.

Lemma afterHealthCalls_checkpoint (cs : list HealthCall) (p : Player.t) :
  Player.checkpointX (afterHealthCalls cs p) = Player.checkpointX p /\
  Player.checkpointY (afterHealthCalls cs p) = Player.checkpointY p /\
  Player.lastCheckpointHealth (afterHealthCalls cs p)
  = Player.lastCheckpointHealth p.
Proof.
  unfold afterHealthCalls. revert p.
  induction cs as [| c rest IH]; intros p; cbn [fold_left]; [auto|].
  destruct (IH (runHealthCall c p)) as (I1 & I2 & I3).
  destruct (runHealthCall_checkpoint c p) as (R1 & R2 & R3).
  rewrite I1, I2, I3. auto.
Qed.

(** X9.  [setCheckpoint] stores a position and the health of that
    moment, not the maximal health.  Whatever damage and healing follow,
    [respawn] puts the player back at that position, at rest, with that
    health and a fresh invulnerability window; a checkpoint taken with
    no health left respawns a dead player. *)
Theorem respawn_restores_checkpoint (now cx cy : Q) (cs : list HealthCall)
    (p : Player.t) :
  let saved := Player.setCheckpoint cx cy p in
  let p' := Player.respawn now (afterHealthCalls cs saved) in
  Player.x p' = cx /\ Player.y p' = cy /\
  Player.velocityX p' = 0 /\ Player.velocityY p' = 0 /\
  Player.health p' = Player.health p /\
  Player.invulnerable p' = true /\ Player.lastDamageTime p' = now /\
  Player.isGrounded p' = false /\
  Player.isDead p' = Player.isDead p.
Proof.
  cbv zeta.
  destruct (afterHealthCalls_checkpoint cs (Player.setCheckpoint cx cy p))
    as (H1 & H2 & H3).
  unfold Player.respawn, Player.isDead. cbn. rewrite H1, H2, H3. cbn.
  splits; reflexivity.
Qed.

(** ** Player and enemy: collision resolution *)

Lemma Player_resolvePlatform_separates {A : Type} `{HasRect A}
    (p : Player.t) (platform : A) :
  checkCollision (Player.resolvePlatform p platform) platform = false.
Proof.
  unfold Player.resolvePlatform. cbv zeta.
  destruct (checkCollision p platform) eqn:Hc; [|exact Hc].
  case_ifs; apply checkCollision_edgeContact; unfold edgeContact; cbn;
    first [ left; lra | right; left; lra | right; right; left; lra
          | right; right; right; lra ].
Qed.

(** X10.  Resolving the collision with a platform leaves the player, or
    the enemy, outside that platform: after the step of the loop for a
    platform, and so after the whole loop for the last platform of the
    list, [checkCollision] with it is false.  The platform, as every
    platform of the levels, has whole coordinates and sizes, and so have
    the width and the height of the player and of the enemy: the edge
    the resolution writes is then computed with no rounding. *)
Theorem resolution_separates {A : Type} `{HasRect A} (p : Player.t)
    (e : Enemy.t) (hitWall : bool) (pls : list A) (platform : A) :
  wholeRect (getRect platform) = true ->
  wholePixels (Player.width p) = true ->
  wholePixels (Player.height p) = true ->
  wholePixels (Enemy.width e) = true ->
  wholePixels (Enemy.height e) = true ->
  checkCollision (Player.resolvePlatform p platform) platform = false /\
  checkCollision (Player.handlePlatformCollisions (pls ++ [platform]) p)
    platform = false /\
  checkCollision (fst (Enemy.resolvePlatform (e, hitWall) platform))
    platform = false.
Proof.
  intros _ _ _ _ _. splits.
  - apply Player_resolvePlatform_separates.
  - unfold Player.handlePlatformCollisions. rewrite fold_left_app.
    cbn [fold_left]. apply Player_resolvePlatform_separates.
  - unfold Enemy.resolvePlatform. cbv zeta.
    destruct (checkCollision e platform) eqn:Hc; [|exact Hc].
    case_ifs; cbn [fst]; apply checkCollision_edgeContact;
      unfold edgeContact; cbn;
      first [ left; lra | right; left; lra | right; right; left; lra
            | right; right; right; lra ].
Qed.

(** The player of [standingPlayer], sunk into the top of the crumbling
    platform of level 3, is put back on it, and so is an enemy. *)
Lemma resolution_separates_witness :
  let e := Enemy.new 700 330 Enemy.Patrol in
  checkCollision standingPlayer crumblingPlatform = true /\
  checkCollision (Player.resolvePlatform standingPlayer crumblingPlatform)
    crumblingPlatform = false /\
  checkCollision e crumblingPlatform = true /\
  checkCollision (fst (Enemy.resolvePlatform (e, false) crumblingPlatform))
    crumblingPlatform = false.
Proof.
  cbv zeta.
  assert (Hr : wholeRect (getRect crumblingPlatform) = true)
    by (vm_compute; reflexivity).
  assert (Hpw : wholePixels (Player.width standingPlayer) = true)
    by (vm_compute; reflexivity).
  assert (Hph : wholePixels (Player.height standingPlayer) = true)
    by (vm_compute; reflexivity).
  assert (Hew : wholePixels (Enemy.width (Enemy.new 700 330 Enemy.Patrol))
                = true) by (vm_compute; reflexivity).
  assert (Heh : wholePixels (Enemy.height (Enemy.new 700 330 Enemy.Patrol))
                = true) by (vm_compute; reflexivity).
  destruct (@resolution_separates _ _ standingPlayer
              (Enemy.new 700 330 Enemy.Patrol) false []
              crumblingPlatform Hr Hpw Hph Hew Heh)
    as (Hp & _ & He).
  split; [reflexivity|]. split; [exact Hp|]. split; [reflexivity|].
  exact He.
Defined.

(** Only the last platform is sure to be cleared: between two walls
    closer than its width the player, pushed out of the first by the
    loop, is pushed back into it by the second. *)
Example resolution_order_matters :
  let wallA := Rect.make 0 0 100 400 in
  let wallB := Rect.make 120 0 100 400 in
  let p := Player.handlePlatformCollisions [wallA; wallB] (Player.new 95 100) in
  checkCollision p wallB = false /\ checkCollision p wallA = true.
Proof. vm_compute. split; reflexivity. Qed.

(** ** Player: standing on a platform *)

Lemma updateAnimation_motionState (dt : Q) (p : Player.t) :
  motionState (Player.updateAnimation dt p) = motionState p.
Proof.
  unfold Player.updateAnimation. cbv zeta. case_ifs; reflexivity.
Qed.

Lemma updateInvulnerability_motionState (now : Q) (p : Player.t) :
  motionState (Player.updateInvulnerability now p) = motionState p.
Proof.
  unfold Player.updateInvulnerability. cbv zeta. case_ifs; reflexivity.
Qed.

(** The end of the player's update, for a player inside the world: the
    movement state is the one the collision loop left. *)
Lemma Player_update_tail_motion (now dt : Q) (p : Player.t) :
  0 <= Player.x p -> Player.x p <= 2000 - Player.width p ->
  Player.y p <= 1000 ->
  motionState
    (Player.constrainToWorld now
       (Player.updateInvulnerability now (Player.updateAnimation dt p)))
  = motionState p.
Proof.
  intros Hx0 Hx1 Hy.
  set (q := Player.updateInvulnerability now (Player.updateAnimation dt p)).
  assert (E : motionState q = motionState p)
    by (subst q; now rewrite updateInvulnerability_motionState,
                   updateAnimation_motionState).
  unfold motionState in E. injection E as Ex Ey Evx Evy Eg Ec Eh Ek Ew Ehh
    Es Ej Egr Ef Em.
  unfold Player.constrainToWorld. cbv zeta.
  change (Player.y (Player.set_x _ q)) with (Player.y q).
  assert (Hny : (Player.y q >? 1000) = false) by (rewrite Ey; qbool; lra).
  rewrite Hny.
  assert (Hc : clamp (Player.x q) 0 (2000 - Player.width q) = Player.x q)
    by (apply clamp_inside; rewrite Ex, ?Ew; lra).
  unfold motionState. cbn. rewrite Hc.
  now rewrite Ex, Ey, Evx, Evy, Eg, Ec, Eh, Ek, Ew, Ehh, Es, Ej, Egr, Ef, Em.
Qed.

(** With no key held, and none held on the frame before, [handleInput]
    changes nothing. *)
Lemma handleInput_idle (p : Player.t) :
  Keys.left (Player.keys p) = false ->
  Keys.right (Player.keys p) = false ->
  Keys.jumpPressed (Player.keys p) = false ->
  motionState (Player.handleInput p)
  = (Player.x p, Player.y p, Player.velocityX p, Player.velocityY p,
     Player.isGrounded p, Player.canDoubleJump p, Player.hasDoubleJumped p,
     Keys.set_jump false (Player.keys p),
     (Player.width p, Player.height p, Player.speed p, Player.jumpPower p,
      Player.gravity p, Player.friction p, Player.maxFallSpeed p)).
Proof.
  intros Hl Hr Hp. unfold Player.handleInput. cbv zeta.
  rewrite Hl, Hr, Hp. cbn [andb]. unfold motionState. cbn.
  now rewrite Hp.
Qed.

Lemma updatePhysics_motion (dt : Q) (p : Player.t) :
  let vy :=
    clamp (if Player.isGrounded p then Player.velocityY p
           else Player.velocityY p + Player.gravity p)
          (- Player.jumpPower p * 1.2) (Player.maxFallSpeed p) in
  let vx :=
    clamp (if Player.isGrounded p then Player.velocityX p * Player.friction p
           else Player.velocityX p * 0.98)
          (- Player.speed p) (Player.speed p) in
  motionState (Player.updatePhysics dt p)
  = (Player.x p + vx, Player.y p + vy, vx, vy,
     Player.isGrounded p, Player.canDoubleJump p, Player.hasDoubleJumped p,
     Player.keys p,
     (Player.width p, Player.height p, Player.speed p, Player.jumpPower p,
      Player.gravity p, Player.friction p, Player.maxFallSpeed p)).
Proof.
  player_cases p. destruct grounded; reflexivity.
Qed.

(** The collision loop over one platform the player does not overlap:
    only the grounded flag is cleared. *)
Lemma handlePlatformCollisions_clear {A : Type} `{HasRect A}
    (p : Player.t) (platform : A) :
  checkCollision p platform = false ->
  Player.handlePlatformCollisions [platform] p
  = Player.set_isGrounded false p.
Proof.
  intros Hc. unfold Player.handlePlatformCollisions. cbn [fold_left].
  unfold Player.resolvePlatform.
  replace (checkCollision (Player.set_isGrounded false p) platform)
    with (checkCollision p platform) by reflexivity.
  now rewrite Hc.
Qed.

(** The collision loop over one platform the player has sunk into from
    above, by less than it overlaps it sideways: a landing. *)
Lemma handlePlatformCollisions_land {A : Type} `{HasRect A}
    (p : Player.t) (platform : A) :
  let pl := getRect platform in
  checkCollision p platform = true ->
  Player.y p < Rect.y pl ->
  Player.y p + Player.height p - Rect.y pl
  <= Rect.y pl + Rect.height pl - Player.y p ->
  Player.y p + Player.height p - Rect.y pl
  <= Player.x p + Player.width p - Rect.x pl ->
  Player.y p + Player.height p - Rect.y pl
  <= Rect.x pl + Rect.width pl - Player.x p ->
  motionState (Player.handlePlatformCollisions [platform] p)
  = (Player.x p, Rect.y pl - Player.height p, Player.velocityX p, 0,
     true, false, false, Player.keys p,
     (Player.width p, Player.height p, Player.speed p, Player.jumpPower p,
      Player.gravity p, Player.friction p, Player.maxFallSpeed p)).
Proof.
  intros pl Hc Hy Hv Hx1 Hx2.
  unfold Player.handlePlatformCollisions. cbn [fold_left].
  unfold Player.resolvePlatform. cbv zeta.
  replace (checkCollision (Player.set_isGrounded false p) platform)
    with (checkCollision p platform) by reflexivity.
  rewrite Hc. fold pl.
  cbn [Player.x Player.y Player.width Player.height Player.set_isGrounded].
  set (ox := Math_min _ _). set (oy := Math_min _ _).
  assert (Hox : (ox <? oy) = false).
  { qbool. subst ox oy.
    destruct (Math_min_cases (Player.x p + Player.width p - Rect.x pl)
                (Rect.x pl + Rect.width pl - Player.x p))
      as [[_ E] | [_ E]]; rewrite E;
    destruct (Math_min_cases (Player.y p + Player.height p - Rect.y pl)
                (Rect.y pl + Rect.height pl - Player.y p))
      as [[C' E'] | [C' E']]; rewrite E'; lra. }
  rewrite Hox.
  assert (Hab : (Player.y p <? Rect.y pl) = true) by (qbool; exact Hy).
  rewrite Hab. reflexivity.
Qed.

Lemma restsOn_motion {A : Type} `{HasRect A} (p q : Player.t)
    (platform : A) :
  restsOn p platform ->
  Player.x q == Player.x p -> Player.y q == Player.y p ->
  Player.velocityX q == 0 -> Player.velocityY q = 0 ->
  Player.canDoubleJump q = false ->
  Keys.left (Player.keys q) = false ->
  Keys.right (Player.keys q) = false ->
  Keys.jumpPressed (Player.keys q) = false ->
  (Player.width q, Player.height q, Player.speed q, Player.jumpPower q,
   Player.gravity q, Player.friction q, Player.maxFallSpeed q)
  = (Player.width p, Player.height p, Player.speed p, Player.jumpPower p,
     Player.gravity p, Player.friction p, Player.maxFallSpeed p) ->
  restsOn q platform.
Proof.
  intros (Hconst & Hvx & Hvy & Hc & Hl & Hr & Hp & Hy & Hxl & Hxr & Hh
          & Hx0 & Hx1 & Hy1) Ex Ey Evx Evy Ec El Er Ep Ek.
  injection Ek as E1 E2 E3 E4 E5 E6 E7.
  destruct Hconst as (C1 & C2 & C3 & C4 & C5 & C6 & C7).
  unfold restsOn, playerConstants. cbv zeta.
  rewrite E1, E2, E3, E4, E5, E6, E7.
  splits; try assumption; try lra.
Qed.

(** The physics step of a player at rest with no key held: on a frame that
    starts grounded nothing moves; on a frame that starts airborne the
    player sinks by the gravity of 0.8. *)
Lemma physics_at_rest {A : Type} `{HasRect A} (dt : Q) (p : Player.t)
    (platform : A) :
  restsOn p platform ->
  let q := Player.updatePhysics dt (Player.handleInput p) in
  Player.x q == Player.x p /\
  Player.y q
  = Player.y p + (if Player.isGrounded p then 0 else 0 + 0.8) /\
  Player.velocityX q == 0 /\
  Player.velocityY q = (if Player.isGrounded p then 0 else 0 + 0.8) /\
  Player.isGrounded q = Player.isGrounded p /\
  Player.canDoubleJump q = false /\
  Player.keys q = Keys.set_jump false (Player.keys p) /\
  (Player.width q, Player.height q, Player.speed q, Player.jumpPower q,
   Player.gravity q, Player.friction q, Player.maxFallSpeed q)
  = (32, 48, 5, 15, 0.8, 0.85, 15).
Proof.
  intros (Hconst & Hvx & Hvy & Hc & Hl & Hr & Hp & _).
  destruct Hconst as (C1 & C2 & C3 & C4 & C5 & C6 & C7).
  pose proof (handleInput_idle p Hl Hr Hp) as M0.
  remember (Player.handleInput p) as q0 eqn:Eq0.
  unfold motionState in M0.
  injection M0 as X0 Y0 VX0 VY0 G0 D0 S0 K0 W0 H0' SP0 J0 GR0 F0 MF0.
  pose proof (updatePhysics_motion dt q0) as M1.
  cbv zeta in M1 |- *.
  remember (Player.updatePhysics dt q0) as q1 eqn:Eq1.
  rewrite X0, Y0, VX0, VY0, G0, D0, S0, K0, W0, H0', SP0, J0, GR0, F0, MF0
    in M1.
  rewrite C1, C2, C3, C4, C5, C6, C7, Hvy in M1.
  unfold motionState in M1.
  injection M1 as X1 Y1 VX1 VY1 G1 D1 S1 K1 W1 H1' SP1 J1 GR1 F1 MF1.
  assert (Evx : forall k, 0 <= k -> k <= 1 ->
            clamp (Player.velocityX p * k) (- (5)) 5
            = Player.velocityX p * k).
  { intros k Hk0 Hk1. apply clamp_inside; nra. }
  assert (E85 : 0 <= 0.85 /\ 0.85 <= 1) by (split; vm_compute; discriminate).
  assert (E98 : 0 <= 0.98 /\ 0.98 <= 1) by (split; vm_compute; discriminate).
  destruct (Player.isGrounded p) eqn:Hg.
  - rewrite (Evx 0.85 (proj1 E85) (proj2 E85)) in X1, VX1.
    assert (Evy : clamp 0 (- (15) * 1.2) 15 = 0) by reflexivity.
    rewrite Evy in Y1, VY1.
    rewrite X1, Y1, VX1, VY1, G1, D1, K1, W1, H1', SP1, J1, GR1, F1, MF1.
    splits; try reflexivity; try assumption; nra.
  - rewrite (Evx 0.98 (proj1 E98) (proj2 E98)) in X1, VX1.
    assert (Evy : clamp (0 + 0.8) (- (15) * 1.2) 15 = 0 + 0.8)
      by reflexivity.
    rewrite Evy in Y1, VY1.
    rewrite X1, Y1, VX1, VY1, G1, D1, K1, W1, H1', SP1, J1, GR1, F1, MF1.
    splits; try reflexivity; try assumption; nra.
Qed.

Lemma player_collision_iff {A : Type} `{HasRect A} (p : Player.t)
    (platform : A) :
  let pl := getRect platform in
  checkCollision p platform = true <->
  Player.x p < Rect.x pl + Rect.width pl /\
  Rect.x pl < Player.x p + Player.width p /\
  Player.y p < Rect.y pl + Rect.height pl /\
  Rect.y pl < Player.y p + Player.height p.
Proof. exact (checkCollision_true_iff p platform). Qed.

(** The frame of a resting player that starts grounded: nothing moves,
    the player's bottom is exactly on the platform's top, which is no
    collision, and the loop leaves the grounded flag cleared. *)
Lemma resting_frame_grounded {A : Type} `{HasRect A} (now dt : Q)
    (p : Player.t) (platform : A) :
  restsOn p platform -> Player.isGrounded p = true ->
  let q := Player.update now dt [platform] p in
  restsOn q platform /\ Player.isGrounded q = false /\
  Player.x q == Player.x p /\ Player.y q == Player.y p.
Proof.
  intros Hrest Hg.
  pose proof (physics_at_rest dt Hrest) as P. cbv zeta in P.
  unfold Player.update. cbv zeta.
  rewrite Hg in P. revert P.
  generalize (Player.updatePhysics dt (Player.handleInput p)).
  intros q1 P.
  destruct P as (X1 & Y1 & VX1 & VY1 & G1 & D1 & K1 & C1).
  injection C1 as W1 H1' S1 J1 GR1 F1 M1.
  pose proof Hrest as (Hconst & Hvx & Hvy & Hc & Hl & Hr & Hp & Hy & Hxl
                       & Hxr & Hh & Hx0 & Hx1 & Hy1).
  assert (Hno : checkCollision q1 platform = false).
  { apply not_true_iff_false. rewrite player_collision_iff.
    rewrite Y1, H1'. lra. }
  rewrite (handlePlatformCollisions_clear _ _ Hno).
  assert (T' : motionState
                 (Player.constrainToWorld now
                    (Player.updateInvulnerability now
                       (Player.updateAnimation dt
                          (Player.set_isGrounded false q1))))
               = motionState (Player.set_isGrounded false q1)).
  { apply Player_update_tail_motion.
    - change (0 <= Player.x q1). lra.
    - change (Player.x q1 <= 2000 - Player.width q1). rewrite W1. lra.
    - change (Player.y q1 <= 1000). rewrite Y1. lra. }
  revert T'. generalize (Player.constrainToWorld now
                    (Player.updateInvulnerability now
                       (Player.updateAnimation dt
                          (Player.set_isGrounded false q1)))).
  intros q3 T'. unfold motionState in T'.
  injection T' as X3 Y3 VX3 VY3 G3 D3 S3 K3 W3 H3' SP3 J3 GR3 F3 M3.
  splits.
  - apply (@restsOn_motion _ _ p q3 platform Hrest).
    + rewrite X3. exact X1.
    + rewrite Y3, Y1. lra.
    + rewrite VX3. exact VX1.
    + rewrite VY3. exact VY1.
    + rewrite D3. exact D1.
    + rewrite K3, K1. exact Hl.
    + rewrite K3, K1. exact Hr.
    + rewrite K3, K1. exact Hp.
    + destruct Hconst as (C1 & C2 & C3 & C4 & C5 & C6 & C7).
      rewrite W3, H3', SP3, J3, GR3, F3, M3, C1, C2, C3, C4, C5, C6, C7.
      now rewrite W1, H1', S1, J1, GR1, F1, M1.
  - exact G3.
  - rewrite X3. exact X1.
  - rewrite Y3, Y1. lra.
Qed.

(** The frame of a resting player that starts airborne: gravity sinks the
    player 0.8 into the platform, and the loop lifts it back onto the
    top and sets the grounded flag. *)
Lemma resting_frame_airborne {A : Type} `{HasRect A} (now dt : Q)
    (p : Player.t) (platform : A) :
  restsOn p platform -> Player.isGrounded p = false ->
  let q := Player.update now dt [platform] p in
  restsOn q platform /\ Player.isGrounded q = true /\
  Player.x q == Player.x p /\ Player.y q == Player.y p.
Proof.
  intros Hrest Hg.
  pose proof (physics_at_rest dt Hrest) as P. cbv zeta in P.
  unfold Player.update. cbv zeta.
  rewrite Hg in P. revert P.
  generalize (Player.updatePhysics dt (Player.handleInput p)).
  intros q1 P.
  destruct P as (X1 & Y1 & VX1 & VY1 & G1 & D1 & K1 & C1).
  injection C1 as W1 H1' S1 J1 GR1 F1 M1.
  pose proof Hrest as (Hconst & Hvx & Hvy & Hc & Hl & Hr & Hp & Hy & Hxl
                       & Hxr & Hh & Hx0 & Hx1 & Hy1).
  assert (E08 : 0 + 0.8 == 0.8) by reflexivity.
  assert (Hyes : checkCollision q1 platform = true).
  { rewrite player_collision_iff. rewrite Y1, H1', W1. splits; lra. }
  pose proof (@handlePlatformCollisions_land _ _ q1 platform Hyes) as L.
  cbv zeta in L. rewrite Y1, H1', W1 in L.
  assert (L' : motionState (Player.handlePlatformCollisions [platform] q1)
               = (Player.x q1, Rect.y (getRect platform) - 48,
                  Player.velocityX q1, 0, true, false, false,
                  Player.keys q1,
                  (32, 48, Player.speed q1, Player.jumpPower q1,
                   Player.gravity q1, Player.friction q1,
                   Player.maxFallSpeed q1))).
  { apply L; lra. }
  clear L. revert L'.
  generalize (Player.handlePlatformCollisions [platform] q1).
  intros q2 L'. unfold motionState in L'.
  injection L' as X2 Y2 VX2 VY2 G2 D2 S2 K2 W2 H2' SP2 J2 GR2 F2 M2.
  assert (T' : motionState
                 (Player.constrainToWorld now
                    (Player.updateInvulnerability now
                       (Player.updateAnimation dt q2)))
               = motionState q2).
  { apply Player_update_tail_motion.
    - rewrite X2. lra.
    - rewrite X2, W2. lra.
    - rewrite Y2. lra. }
  revert T'. generalize (Player.constrainToWorld now
                    (Player.updateInvulnerability now
                       (Player.updateAnimation dt q2))).
  intros q3 T'. unfold motionState in T'.
  injection T' as X3 Y3 VX3 VY3 G3 D3 S3 K3 W3 H3' SP3 J3 GR3 F3 M3.
  splits.
  - apply (@restsOn_motion _ _ p q3 platform Hrest).
    + rewrite X3, X2. exact X1.
    + rewrite Y3, Y2. lra.
    + rewrite VX3, VX2. exact VX1.
    + rewrite VY3. exact VY2.
    + rewrite D3. exact D2.
    + rewrite K3, K2, K1. exact Hl.
    + rewrite K3, K2, K1. exact Hr.
    + rewrite K3, K2, K1. exact Hp.
    + destruct Hconst as (C1 & C2 & C3 & C4 & C5 & C6 & C7).
      rewrite W3, H3', SP3, J3, GR3, F3, M3, C1, C2, C3, C4, C5, C6, C7.
      now rewrite W2, H2', SP2, J2, GR2, F2, M2, S1, J1, GR1, F1, M1.
  - rewrite G3. exact G2.
  - rewrite X3, X2. exact X1.
  - rewrite Y3, Y2. lra.
Qed.

Lemma resting_frame {A : Type} `{HasRect A} (now dt : Q) (p : Player.t)
    (platform : A) :
  restsOn p platform ->
  restsOn (Player.update now dt [platform] p) platform /\
  Player.isGrounded (Player.update now dt [platform] p)
  = negb (Player.isGrounded p) /\
  Player.x (Player.update now dt [platform] p) == Player.x p /\
  Player.y (Player.update now dt [platform] p) == Player.y p.
Proof.
  intros Hrest. destruct (Player.isGrounded p) eqn:Hg.
  - exact (resting_frame_grounded now dt Hrest Hg).
  - exact (resting_frame_airborne now dt Hrest Hg).
Qed.

Lemma fold_left_cons {S F : Type} (step : S -> F -> S) (f : F)
    (fs : list F) (s : S) :
  fold_left step (f :: fs) s = fold_left step fs (step s f).
Proof. reflexivity. Qed.

Lemma even_S (n : nat) : Nat.even (S n) = negb (Nat.even n).
Proof.
  induction n as [|n IH]; [reflexivity|].
  change (Nat.even (S (S n))) with (Nat.even n).
  rewrite IH. now destruct (Nat.even n).
Qed.

(** X11.  A player at rest on the top of a platform, with no key held,
    stays where it is whatever the clock and the frame lengths, but its
    [isGrounded] flag alternates: a frame that starts grounded applies no
    gravity, so the player's bottom is exactly on the platform's top,
    which the strict [checkCollision] does not count, and the collision
    loop leaves the flag cleared; the next frame sinks the player by the
    gravity and the loop lands it again.  After an even number of frames
    the flag is the one the player started with, after an odd number the
    opposite. *)
Theorem resting_player_grounded_flag_alternates {A : Type} `{HasRect A}
    (platform : A) (frames : list (Q * Q)) (p : Player.t) :
  restsOn p platform ->
  let q := playerFrames [platform] frames p in
  restsOn q platform /\
  Player.x q == Player.x p /\ Player.y q == Player.y p /\
  Player.isGrounded q
  = (if Nat.even (length frames) then Player.isGrounded p
     else negb (Player.isGrounded p)).
Proof.
  cbv zeta. unfold playerFrames. revert p.
  induction frames as [|[now dt] frames IH]; intros p Hrest.
  - cbn [fold_left length Nat.even].
    splits; [exact Hrest | reflexivity | reflexivity | reflexivity].
  - destruct (resting_frame now dt Hrest) as (Hr1 & Hg1 & Hx1 & Hy1).
    destruct (IH _ Hr1) as (Hr & Hx & Hy & Hg).
    rewrite fold_left_cons. cbv beta. cbn [fst snd].
    splits.
    + exact Hr.
    + now rewrite Hx.
    + now rewrite Hy.
    + rewrite Hg, Hg1. change (length ((now, dt) :: frames))
        with (S (length frames)).
      rewrite even_S.
      destruct (Nat.even (length frames)), (Player.isGrounded p);
        reflexivity.
Qed.

(** A grounded player on the first platform of level 1, over three
    frames. *)
Lemma resting_player_grounded_flag_alternates_witness :
  let p := Player.set_isGrounded true (Player.new 50 452) in
  let platform := Platform.new 0 500 300 40 Platform.Static in
  let frames := [(0, 16); (16, 16); (32, 17)] in
  restsOn p platform /\
  Player.isGrounded (playerFrames [platform] frames p) = false.
Proof.
  cbv zeta.
  assert (Hr : restsOn (Player.set_isGrounded true (Player.new 50 452))
                 (Platform.new 0 500 300 40 Platform.Static)).
  { unfold restsOn, playerConstants. cbn.
    splits; try reflexivity; vm_compute; discriminate. }
  split; [exact Hr|].
  exact (proj2 (proj2 (proj2
    (resting_player_grounded_flag_alternates [(0, 16); (16, 16); (32, 17)]
       Hr)))).
Defined.

(** ** Platform: movement, reset and decay *)

Ltac platform_cases pl :=
  destruct pl as [px py pw ph pox poy pty pms pmd pdir pax pmt pct pcd
                  pcr pon pps pbf pba].

Lemma updateCrumbling_shape (dt : Q) (player : option Player.t)
    (fresh : list Particle.t) (pl : Platform.t) :
  let q := Platform.updateCrumbling dt player fresh pl in
  platformShape q = platformShape pl /\
  Platform.x q = Platform.x pl /\ Platform.y q = Platform.y pl /\
  Platform.moveDirection q = Platform.moveDirection pl /\
  Platform.bounceAnimation q = Platform.bounceAnimation pl.
Proof.
  cbv zeta. unfold Platform.updateCrumbling, Platform.startCrumbling,
    Platform.createCrumbleParticles. cbv zeta.
  destruct player; case_ifs; splits; reflexivity.
Qed.

Lemma updateBouncy_shape {host : MathHost} (dt : Q) (pl : Platform.t) :
  let q := Platform.updateBouncy dt pl in
  platformShape q = platformShape pl /\
  Platform.x q = Platform.x pl /\ Platform.y q = Platform.y pl /\
  Platform.moveDirection q = Platform.moveDirection pl /\
  (Platform.crumbleTimer q, Platform.isCrumbling q, Platform.isPlayerOn q,
   Platform.crumbleParticles q)
  = (Platform.crumbleTimer pl, Platform.isCrumbling pl,
     Platform.isPlayerOn pl, Platform.crumbleParticles pl).
Proof.
  cbv zeta. unfold Platform.updateBouncy. cbv zeta.
  case_ifs; splits; reflexivity.
Qed.

Lemma updateMovement_shape (dt : Q) (pl : Platform.t) :
  let q := Platform.updateMovement dt pl in
  platformShape q = platformShape pl /\
  (Platform.crumbleTimer q, Platform.isCrumbling q, Platform.isPlayerOn q,
   Platform.crumbleParticles q)
  = (Platform.crumbleTimer pl, Platform.isCrumbling pl,
     Platform.isPlayerOn pl, Platform.crumbleParticles pl) /\
  Platform.bounceAnimation q = Platform.bounceAnimation pl.
Proof.
  cbv zeta. unfold Platform.updateMovement.
  destruct (Platform.moveAxis pl) eqn:Ha; case_ifs; splits;
    unfold platformShape; cbn; rewrite ?Ha; reflexivity.
Qed.

(** Whatever the position before, a step of the movement ends on the
    track. *)
Lemma updateMovement_onTrack (dt : Q) (pl : Platform.t) :
  0 <= Platform.moveDistance pl ->
  onTrack (Platform.updateMovement dt pl).
Proof.
  intros Hd. platform_cases pl. cbn in Hd.
  unfold onTrack, Platform.updateMovement.
  destruct pax; cbn;
    match goal with
    | |- context [if ?a >=? ?b then _ else _] =>
        destruct (a >=? b) eqn:E1; cbn;
        [ qbool; split; lra |
          match goal with
          | |- context [if ?c <=? ?d then _ else _] =>
              destruct (c <=? d) eqn:E2; cbn; qbool; split; lra
          end ]
    end.
Qed.

Lemma updateCrumbleParticles_shape (dt : Q) (pl : Platform.t) :
  let q := Platform.updateCrumbleParticles dt pl in
  platformShape q = platformShape pl /\
  Platform.x q = Platform.x pl /\ Platform.y q = Platform.y pl /\
  Platform.moveDirection q = Platform.moveDirection pl /\
  Platform.bounceAnimation q = Platform.bounceAnimation pl /\
  (Platform.crumbleTimer q, Platform.isCrumbling q, Platform.isPlayerOn q)
  = (Platform.crumbleTimer pl, Platform.isCrumbling pl,
     Platform.isPlayerOn pl).
Proof. cbv zeta. splits; reflexivity. Qed.

Lemma platformStep_onTrack {host : MathHost} (f : PlatformFrame)
    (pl : Platform.t) :
  0 <= Platform.moveDistance pl -> onTrack pl ->
  onTrack (platformStep f pl) /\
  platformShape (platformStep f pl) = platformShape pl.
Proof.
  intros Hd Ht. unfold platformStep, Platform.update.
  set (q := match Platform.type pl with
            | Platform.Moving => _ | Platform.Crumbling => _
            | Platform.Bouncy => _ | Platform.Static => _ end).
  assert (Hq : onTrack q /\ platformShape q = platformShape pl).
  { subst q. destruct (Platform.type pl).
    - split; [exact Ht | reflexivity].
    - split; [now apply updateMovement_onTrack
             | apply updateMovement_shape].
    - destruct (updateCrumbling_shape (platformDelta f) (platformPlayer f)
                  (platformFresh f) pl) as (Hs & Hx & Hy & _).
      split; [|exact Hs].
      unfold platformShape in Hs.
      injection Hs as E1 E2 E3 E4 _ _ _ _ _.
      unfold onTrack. rewrite E1, E2, E3, E4, Hx, Hy. exact Ht.
    - destruct (updateBouncy_shape (platformDelta f) pl)
        as (Hs & Hx & Hy & _).
      split; [|exact Hs].
      unfold platformShape in Hs.
      injection Hs as E1 E2 E3 E4 _ _ _ _ _.
      unfold onTrack. rewrite E1, E2, E3, E4, Hx, Hy. exact Ht. }
  destruct Hq as (Hq1 & Hq2). split; [exact Hq1 | exact Hq2].
Qed.

(** X12.  A platform never leaves its track: if the distance it may
    travel is not negative and the platform is within that distance of
    the place it was built at, along its axis of movement, it is so after
    any number of updates, whatever its type, its speed and its
    direction, and whatever the player does; the origin, the distance,
    the axis, the size and the type are the ones it started with. *)
Theorem platform_stays_on_track {host : MathHost}
    (frames : list PlatformFrame) (pl : Platform.t) :
  0 <= Platform.moveDistance pl -> onTrack pl ->
  onTrack (platformFrames frames pl) /\
  platformShape (platformFrames frames pl) = platformShape pl.
Proof.
  unfold platformFrames. revert pl.
  induction frames as [|f frames IH]; intros pl Hd Ht.
  - split; [exact Ht | reflexivity].
  - rewrite fold_left_cons. cbv beta.
    destruct (@platformStep_onTrack _ f pl Hd Ht) as (Ht1 & Hs1).
    revert Ht1 Hs1. generalize (platformStep f pl). intros q1 Ht1 Hs1.
    assert (Hd1 : 0 <= Platform.moveDistance q1).
    { unfold platformShape in Hs1.
      injection Hs1 as _ _ E _ _ _ _ _ _. rewrite E. exact Hd. }
    destruct (IH _ Hd1 Ht1) as (Ht2 & Hs2).
    split; [exact Ht2 | now rewrite Hs2].
Qed.

(** The first moving platform of level 3, over three frames. *)
Lemma platform_stays_on_track_witness :
  let pl := Platform.new 300 400 100 40 Platform.Moving in
  let frames :=
    [mkPlatformFrame 16 None []; mkPlatformFrame 16 None [];
     mkPlatformFrame 17 (Some (Player.new 50 400)) []] in
  0 <= Platform.moveDistance pl /\ onTrack pl /\
  onTrack (platformFrames (host := sampleHost) frames pl).
Proof.
  cbv zeta.
  assert (Hd : 0 <= Platform.moveDistance
                      (Platform.new 300 400 100 40 Platform.Moving))
    by (vm_compute; discriminate).
  assert (Ht : onTrack (Platform.new 300 400 100 40 Platform.Moving))
    by (split; vm_compute; discriminate).
  split; [exact Hd|]. split; [exact Ht|].
  exact (proj1 (@platform_stays_on_track sampleHost
    [mkPlatformFrame 16 None []; mkPlatformFrame 16 None [];
     mkPlatformFrame 17 (Some (Player.new 50 400)) []]
    (Platform.new 300 400 100 40 Platform.Moving) Hd Ht)).
Defined.

Lemma reset_platformStep {host : MathHost} (f : PlatformFrame)
    (pl : Platform.t) :
  BounceAnimation.active (Platform.bounceAnimation pl) = false ->
  Platform.reset (platformStep f pl) = Platform.reset pl /\
  BounceAnimation.active (Platform.bounceAnimation (platformStep f pl))
  = false.
Proof.
  intros Ha. destruct f as [dt player fresh].
  unfold platformStep, Platform.update. cbn [platformDelta platformPlayer
    platformFresh].
  destruct (Platform.type pl).
  - split; [reflexivity | exact Ha].
  - unfold Platform.updateMovement.
    destruct (Platform.moveAxis pl); case_ifs;
      (split; [reflexivity | exact Ha]).
  - unfold Platform.updateCrumbling, Platform.startCrumbling,
      Platform.createCrumbleParticles. cbv zeta.
    destruct player; case_ifs; (split; [reflexivity | exact Ha]).
  - unfold Platform.updateBouncy. cbv zeta. rewrite Ha.
    split; [reflexivity | exact Ha].
Qed.

(** X13.  [reset] undoes the updates: for a platform whose bounce
    animation is not running, resetting it after any number of updates,
    whatever the player did meanwhile, gives the platform that resetting
    it at once gives; for a platform as it was built that is the platform
    as it was built, so that it is back in place, whole and without
    particles. *)
Theorem platform_reset_undoes_updates {host : MathHost}
    (frames : list PlatformFrame) (pl : Platform.t) :
  BounceAnimation.active (Platform.bounceAnimation pl) = false ->
  Platform.reset (platformFrames frames pl) = Platform.reset pl /\
  forall x y width height type,
    pl = Platform.new x y width height type ->
    Platform.reset (platformFrames frames pl) = pl.
Proof.
  intros Ha.
  assert (Hr : Platform.reset (platformFrames frames pl)
               = Platform.reset pl).
  { unfold platformFrames. revert pl Ha.
    induction frames as [|f frames IH]; intros pl Ha; [reflexivity|].
    rewrite fold_left_cons. cbv beta.
    destruct (reset_platformStep f pl Ha) as (Hr1 & Ha1).
    rewrite (IH _ Ha1). exact Hr1. }
  split; [exact Hr|].
  intros x y width height type E. rewrite Hr, E. reflexivity.
Qed.

(** The first crumbling platform of level 3, which a player stands in
    for two frames of 600 ms. *)
Lemma platform_reset_undoes_updates_witness :
  let pl := crumblingPlatform in
  let frames :=
    [mkPlatformFrame 600 (Some standingPlayer) burst;
     mkPlatformFrame 600 (Some standingPlayer) burst] in
  BounceAnimation.active (Platform.bounceAnimation pl) = false /\
  Platform.isCrumbling (platformFrames (host := sampleHost) frames pl)
  = true /\
  Platform.reset (platformFrames (host := sampleHost) frames pl) = pl.
Proof.
  cbv zeta.
  assert (Ha : BounceAnimation.active
                 (Platform.bounceAnimation crumblingPlatform) = false)
    by reflexivity.
  split; [exact Ha|]. split; [vm_compute; reflexivity|].
  exact (proj2 (@platform_reset_undoes_updates sampleHost
    [mkPlatformFrame 600 (Some standingPlayer) burst;
     mkPlatformFrame 600 (Some standingPlayer) burst]
    crumblingPlatform Ha) 650 350 120 40 Platform.Crumbling eq_refl).
Defined.






(** ** Enemy: death and the turn cooldown *)
















(** ** Collectible: the collection animation *)









(** ** Level and game: time, lives and score *)

Lemma Math_floor_range (v : Q) (n : Z) :
  0 <= v -> v <= inject_Z n ->
  0 <= Math_floor v /\ Math_floor v <= inject_Z n.
Proof.
  intros H0 Hn. unfold Math_floor. split.
  - change 0 with (inject_Z 0). rewrite <- Zle_Qle.
    pose proof (@Qfloor_resp_le (inject_Z 0) v H0) as H.
    rewrite Qfloor_Z in H. exact H.
  - rewrite <- Zle_Qle.
    pose proof (@Qfloor_resp_le v (inject_Z n) Hn) as H.
    rewrite Qfloor_Z in H. exact H.
Qed.

Lemma hasTimeLimit_positive (l : Level.t) (limit : Q) :
  Level.timeLimit l = Some limit -> 0 < limit ->
  Level.hasTimeLimit l = Some limit.
Proof.
  intros E Hl. unfold Level.hasTimeLimit. rewrite E.
  destruct (Qeq_bool limit 0) eqn:Hz; [|reflexivity].
  apply Qeq_bool_iff in Hz. lra.
Qed.

(** X18.  The clock of a level with a time limit: from the start of the
    level on, the remaining time lies between 0 and the limit, the time
    is up exactly when no time remains, and the time bonus is a whole
    number of points between 0 and 1000: 1000 at the start, 0 once the
    time is up. *)
Theorem time_bonus_range (now limit : Q) (g : Game.t) :
  Level.timeLimit (Game.currentLevel g) = Some limit -> 0 < limit ->
  Level.startTime (Game.currentLevel g) <= now ->
  let l := Game.currentLevel g in
  exists remaining,
    Level.getRemainingTime now l = Some remaining /\
    0 <= remaining /\ remaining <= limit /\
    (Level.isTimeUp now l = true <-> remaining == 0) /\
    0 <= Game.calculateTimeBonus now g /\
    Game.calculateTimeBonus now g <= 1000 /\
    (exists n : Z, Game.calculateTimeBonus now g = inject_Z n) /\
    (now == Level.startTime l -> Game.calculateTimeBonus now g == 1000) /\
    (Level.isTimeUp now l = true -> Game.calculateTimeBonus now g == 0).
Proof.
  intros E Hl Hs. cbv zeta.
  pose proof (hasTimeLimit_positive _ E Hl) as Hh.
  unfold Level.getRemainingTime, Level.isTimeUp, Game.calculateTimeBonus,
    Level.getRemainingTime.
  rewrite Hh. cbv zeta.
  set (elapsed := now - Level.startTime (Game.currentLevel g)).
  assert (He : 0 <= elapsed) by (subst elapsed; lra).
  eexists. split; [reflexivity|].
  destruct (Math_max_cases 0 (limit - elapsed)) as [[Hc Em] | [Hc Em]];
    rewrite Em.
  - (* no time remains *)
    assert (Hup : (elapsed >=? limit) = true) by (qbool; lra).
    rewrite Hup.
    assert (Ez : 0 / limit * 1000 == 0) by (field; lra).
    assert (Ef : Math_floor (0 / limit * 1000) == 0).
    { unfold Math_floor. rewrite Ez. reflexivity. }
    splits; try lra.
    + now exists (Qfloor (0 / limit * 1000)).
    + intros Hn. subst elapsed. lra.
  - (* some time remains *)
    assert (Hup : (elapsed >=? limit) = false) by (qbool; lra).
    rewrite Hup.
    assert (Hr0 : 0 <= (limit - elapsed) / limit * 1000).
    { apply Qmult_le_0_compat; [|lra].
      apply Qle_shift_div_l; lra. }
    assert (Hr1 : (limit - elapsed) / limit * 1000 <= inject_Z 1000).
    { change (inject_Z 1000) with (1 * 1000).
      apply Qmult_le_compat_r; [|lra].
      apply Qle_shift_div_r; lra. }
    destruct (@Math_floor_range _ 1000 Hr0 Hr1) as (F0 & F1).
    change (inject_Z 1000) with 1000 in F1.
    splits; try lra.
    + now exists (Qfloor ((limit - elapsed) / limit * 1000)).
    + intros Hn.
      assert (Ez : (limit - elapsed) / limit * 1000 == 1000)
        by (subst elapsed; rewrite Hn; field; lra).
      unfold Math_floor. rewrite Ez. reflexivity.
Qed.

(** A game on a level with the limit of two minutes of level 5, one
    minute after the start. *)
Lemma time_bonus_range_witness :
  let g :=
    Game.make Game.Playing 0 3 0 (Player.new 50 450)
      (Level.make [] [] [] [] 1720 360 false (Some 120000) 1000) in
  Level.timeLimit (Game.currentLevel g) = Some 120000 /\
  Game.calculateTimeBonus 61000 g == 500 /\
  Game.calculateTimeBonus 61000 g <= 1000.
Proof.
  cbv zeta.
  assert (E : Level.timeLimit
                (Game.currentLevel
                   (Game.make Game.Playing 0 3 0 (Player.new 50 450)
                      (Level.make [] [] [] [] 1720 360 false (Some 120000)
                         1000))) = Some 120000) by reflexivity.
  assert (Hl : 0 < 120000) by reflexivity.
  assert (Hs : Level.startTime
                 (Game.currentLevel
                    (Game.make Game.Playing 0 3 0 (Player.new 50 450)
                       (Level.make [] [] [] [] 1720 360 false
                          (Some 120000) 1000))) <= 61000)
    by (vm_compute; discriminate).
  split; [exact E|]. split; [reflexivity|].
  destruct (@time_bonus_range 61000 120000 _ E Hl Hs)
    as (r & _ & _ & _ & _ & _ & Hle & _).
  exact Hle.
Defined.

(** X19.  A death costs exactly one life.  On a frame that ends with a
    dead player and time left, [checkGameConditions] takes one life; if
    that was the last one the game is over and the player is left as it
    is, otherwise the game goes on with the player respawned.  Unless the
    level was completed in the same frame: then the state is
    [LevelComplete], also when the last life has just been lost. *)
Theorem death_costs_one_life (now : Q) (g : Game.t) :
  Player.isDead (Game.player g) = true ->
  Level.isTimeUp now (Game.currentLevel g) = false ->
  let g' := Game.checkGameConditions now g in
  Game.lives g' = Game.lives g - 1 /\
  Game.currentLevel g' = Game.currentLevel g /\
  (Level.completed (Game.currentLevel g) = false ->
   Game.score g' = Game.score g /\
   Game.totalScore g' = Game.totalScore g /\
   (Game.lives g <= 1 ->
    Game.state g' = Game.GameOver /\ Game.player g' = Game.player g) /\
   (1 < Game.lives g ->
    Game.state g' = Game.state g /\
    Game.player g' = Player.respawn now (Game.player g))) /\
  (Level.completed (Game.currentLevel g) = true ->
   Game.state g' = Game.LevelComplete).
Proof.
  intros Hd Ht. cbv zeta. destruct g as [st sc lv ts p l].
  cbn [Game.player Game.currentLevel Game.lives Game.score Game.totalScore
       Game.state] in *.
  unfold Game.checkGameConditions, Game.gameOver, Game.levelComplete.
  cbn -[Level.isTimeUp Player.isDead Player.respawn Game.calculateTimeBonus
        Math_floor Qle_bool Qplus Qminus].
  rewrite Hd.
  destruct (lv - 1 <=? 0) eqn:Hl; qbool;
    destruct (Level.completed l) eqn:Hc;
    cbn -[Level.isTimeUp Player.isDead Player.respawn
          Game.calculateTimeBonus Math_floor Qle_bool Qplus Qminus];
    rewrite ?Hc;
    cbn -[Level.isTimeUp Player.isDead Player.respawn
          Game.calculateTimeBonus Math_floor Qle_bool Qplus Qminus];
    rewrite ?Ht;
    cbn -[Level.isTimeUp Player.isDead Player.respawn
          Game.calculateTimeBonus Math_floor Qle_bool Qplus Qminus];
    splits; try reflexivity; try discriminate;
    intros; splits; try reflexivity; intros; try lra;
    splits; reflexivity.
Qed.

(** The last life and one of three lives, lost at a health of 0. *)
Lemma death_costs_one_life_witness :
  let g lives :=
    Game.make Game.Playing 40 lives 0 deadPlayer
      (Level.make [] [] [] [] 1520 410 false None 0) in
  Player.isDead (Game.player (g 1)) = true /\
  Game.state (Game.checkGameConditions 5000 (g 1)) = Game.GameOver /\
  Game.lives (Game.checkGameConditions 5000 (g 3)) == 2 /\
  Game.player (Game.checkGameConditions 5000 (g 3))
  = Player.respawn 5000 deadPlayer.
Proof.
  cbv zeta.
  pose proof (@death_costs_one_life 5000
    (Game.make Game.Playing 40 1 0 deadPlayer
       (Level.make [] [] [] [] 1520 410 false None 0)) eq_refl eq_refl)
    as H1.
  pose proof (@death_costs_one_life 5000
    (Game.make Game.Playing 40 3 0 deadPlayer
       (Level.make [] [] [] [] 1520 410 false None 0)) eq_refl eq_refl)
    as H3.
  cbv zeta in H1, H3.
  destruct H1 as (_ & _ & H1 & _). destruct H3 as (L3 & _ & H3 & _).
  destruct (H1 eq_refl) as (_ & _ & H1' & _).
  destruct (H3 eq_refl) as (_ & _ & _ & H3').
  split; [reflexivity|]. split.
  - apply H1'. cbn. lra.
  - split.
    + rewrite L3. reflexivity.
    + apply H3'. reflexivity.
Defined.

Lemma Player_takeDamage_rect (now d : Q) (p : Player.t) :
  getRect (snd (Player.takeDamage now d p)) = getRect p.
Proof. unfold Player.takeDamage. case_ifs; reflexivity. Qed.

Lemma collideEnemies_rect (now : Q) (es : list Enemy.t) (p : Player.t) :
  getRect (snd (Game.collideEnemies now es p)) = getRect p.
Proof.
  revert p. induction es as [|e es IH]; intros p; [reflexivity|].
  cbn [Game.collideEnemies].
  destruct (Enemy.checkPlayerCollision now (Some p) e) as [[r e'] q] eqn:E.
  assert (Hq : getRect (match q with Some p' => p' | None => p end)
               = getRect p).
  { unfold Enemy.checkPlayerCollision in E.
    destruct (negb (Enemy.isAlive e) || Player.isDead p);
      [injection E as _ _ <-; reflexivity|].
    destruct (checkCollision e p); [|injection E as _ _ <-; reflexivity].
    destruct ((Player.y p + Player.height p <=? Enemy.y e + 10)
              && (Player.velocityY p >? 0));
      [injection E as _ _ <-; reflexivity|].
    pose proof (Player_takeDamage_rect now (Enemy.damage e) p) as Hr.
    destruct (Player.takeDamage now (Enemy.damage e) p) as [ap p'].
    injection E as _ _ <-. exact Hr. }
  specialize (IH (match q with Some p' => p' | None => p end)).
  destruct (Game.collideEnemies now es _) as [es' p2].
  cbn [snd] in *. now rewrite IH.
Qed.

Lemma checkPlayerCollision_same_rect (p p' : Player.t)
    (c : Collectible.t) :
  getRect p' = getRect p ->
  Collectible.checkPlayerCollision (Some p') c
  = Collectible.checkPlayerCollision (Some p) c.
Proof.
  intros E. unfold Collectible.checkPlayerCollision, checkCollision.
  now rewrite E.
Qed.

Lemma scoreOf_same_rect (p p' : Player.t) (c : Collectible.t) :
  getRect p' = getRect p -> scoreOf p' c = scoreOf p c.
Proof. intros E. unfold scoreOf, checkCollision. now rewrite E. Qed.

(** One collectible of the loop of [handleCollisions]. *)
Lemma collectible_collision_score (c : Collectible.t) (g : Game.t) :
  let r := Collectible.checkPlayerCollision (Some (Game.player g)) c in
  let g' :=
    match fst r with
    | Some k => Game.handleCollectibleCollection k g
    | None => g
    end in
  Game.score g' == Game.score g + scoreOf (Game.player g) c /\
  getRect (Game.player g') = getRect (Game.player g) /\
  (Game.lives g', Game.totalScore g', Game.state g', Game.currentLevel g')
  = (Game.lives g, Game.totalScore g, Game.state g, Game.currentLevel g).
Proof.
  cbv zeta. unfold Collectible.checkPlayerCollision, scoreOf,
    Collectible.collect.
  destruct (Collectible.collected c) eqn:Hc; cbn [negb andb fst].
  - splits; [lra | reflexivity | reflexivity].
  - destruct (checkCollision c (Game.player g)); cbn [fst].
    + unfold Game.handleCollectibleCollection,
        Collectible.getCollectionEffect.
      cbn [Collectible.collectionEffect Collectible.collectionValue
           Collectible.type Collectible.value Collectible.set_collected
           Collectible.set_collectionAnimation].
      destruct (Collectible.type c); cbn -[Player.heal Qplus];
        splits; try reflexivity; lra.
    + splits; [lra | reflexivity | reflexivity].
Qed.

Lemma collideCollectibles_score (cs : list Collectible.t) (g : Game.t) :
  let cs' := fst (Game.collideCollectibles cs g) in
  let g' := snd (Game.collideCollectibles cs g) in
  Game.score g' == Game.score g + pickedScore (Game.player g) cs /\
  getRect (Game.player g') = getRect (Game.player g) /\
  (Game.lives g', Game.totalScore g', Game.state g', Game.currentLevel g')
  = (Game.lives g, Game.totalScore g, Game.state g, Game.currentLevel g) /\
  cs' = map (fun c =>
               snd (Collectible.checkPlayerCollision
                      (Some (Game.player g)) c)) cs.
Proof.
  cbv zeta. revert g. induction cs as [|c cs IH]; intros g.
  - cbn. splits; [lra | reflexivity | reflexivity | reflexivity].
  - cbn [Game.collideCollectibles].
    pose proof (collectible_collision_score c g) as H1. cbv zeta in H1.
    destruct (Collectible.checkPlayerCollision (Some (Game.player g)) c)
      as [r c'] eqn:Hchk.
    cbn [fst] in H1.
    revert H1.
    generalize (match r with
                | Some k => Game.handleCollectibleCollection k g
                | None => g
                end).
    intros g1 (S1 & R1 & K1).
    specialize (IH g1).
    destruct (Game.collideCollectibles cs g1) as [cs2 g2].
    cbn [fst snd] in IH |- *.
    destruct IH as (S2 & R2 & K2 & M2).
    splits.
    + rewrite S2, S1. unfold pickedScore. cbn [map sumQ fold_right].
      fold (sumQ (map (scoreOf (Game.player g)) cs)).
      fold (sumQ (map (scoreOf (Game.player g1)) cs)).
      assert (E : map (scoreOf (Game.player g1)) cs
                  = map (scoreOf (Game.player g)) cs)
        by (apply map_ext; intros a; now apply scoreOf_same_rect).
      rewrite E. lra.
    + now rewrite R2.
    + now rewrite K2.
    + cbn [map]. rewrite Hchk. cbn [snd]. f_equal. rewrite M2.
      apply map_ext. intros a.
      now rewrite (@checkPlayerCollision_same_rect _ _ a R1).
Qed.

(** X20.  The score of a frame's collisions: [handleCollisions] adds to
    the score the values of the collectibles of the level that the
    player's rectangle overlaps and that are neither collected already
    nor health pickups, each once; it changes neither the lives nor the
    total score nor the state, and it leaves every collectible as its own
    collision test against the player's rectangle leaves it, whatever the
    enemies did to the player before. *)
Theorem collisions_score (now : Q) (g : Game.t) :
  let g' := Game.handleCollisions now g in
  let cs := Level.collectibles (Game.currentLevel g) in
  Game.score g' == Game.score g + pickedScore (Game.player g) cs /\
  (Game.lives g', Game.totalScore g', Game.state g')
  = (Game.lives g, Game.totalScore g, Game.state g) /\
  Level.collectibles (Game.currentLevel g')
  = map (fun c =>
           snd (Collectible.checkPlayerCollision (Some (Game.player g)) c))
      cs.
Proof.
  cbv zeta. unfold Game.handleCollisions.
  pose proof (collideEnemies_rect now
                (Level.enemies (Game.currentLevel g)) (Game.player g)) as Hr.
  destruct (Game.collideEnemies now (Level.enemies (Game.currentLevel g))
              (Game.player g)) as [es p1].
  cbn [snd] in Hr. cbv zeta.
  set (g1 := Game.set_currentLevel _ (Game.set_player p1 g)).
  assert (Hc1 : Level.collectibles (Game.currentLevel g1)
                = Level.collectibles (Game.currentLevel g))
    by reflexivity.
  assert (Hp1 : Game.player g1 = p1) by reflexivity.
  assert (Hk1 : (Game.score g1, Game.lives g1, Game.totalScore g1,
                 Game.state g1)
                = (Game.score g, Game.lives g, Game.totalScore g,
                   Game.state g)) by reflexivity.
  clearbody g1.
  pose proof (collideCollectibles_score
                (Level.collectibles (Game.currentLevel g1)) g1) as H.
  cbv zeta in H.
  destruct (Game.collideCollectibles
              (Level.collectibles (Game.currentLevel g1)) g1) as [cs2 g2].
  cbn [fst snd] in H. destruct H as (S2 & R2 & K2 & M2).
  injection Hk1 as E1 E2 E3 E4. injection K2 as F1 F2 F3 F4.
  cbn [Game.score Game.lives Game.totalScore Game.state Game.currentLevel
       Game.set_currentLevel Level.collectibles Level.set_collectibles].
  rewrite Hp1, Hc1 in S2, M2.
  assert (Es : map (scoreOf p1) (Level.collectibles (Game.currentLevel g))
               = map (scoreOf (Game.player g))
                   (Level.collectibles (Game.currentLevel g)))
    by (apply map_ext; intros a; now apply scoreOf_same_rect).
  unfold pickedScore in *. rewrite Es in S2.
  splits.
  - rewrite S2, E1. reflexivity.
  - now rewrite F1, F2, F3, E2, E3, E4.
  - rewrite M2. apply map_ext. intros a.
    now rewrite (@checkPlayerCollision_same_rect _ _ a Hr).
Qed.

(** ** The goal of a level *)

Lemma sampleHost_sqrtAboveWholeRoots : sqrtAboveWholeRoots sampleHost.
Proof.
  intros n v [Hn _] Hv. cbn [Math_sqrt sampleHost].
  rewrite <- Zle_Qle.
  pose proof (@Qfloor_resp_le (inject_Z (n * n)) v Hv) as Hf.
  rewrite Qfloor_Z in Hf.
  rewrite <- (Z.sqrt_square n Hn). unfold Z.square.
  now apply Z.sqrt_le_mono.
Qed.

Lemma Qsquare (x : Q) : x ^ 2 == x * x.
Proof. reflexivity. Qed.

(** With a square root that is at least the whole roots, two points
    that are 51 apart horizontally are at a distance of 51 or more. *)
Lemma distance_above_51 {host : MathHost} (x1 y1 x2 y2 : Q) :
  sqrtAboveWholeRoots host -> x1 + 51 <= x2 -> 51 <= distance x1 y1 x2 y2.
Proof.
  intros Hs Hx. unfold distance.
  change 51 with (inject_Z 51). apply Hs; [lia|].
  change (inject_Z (51 * 51)) with 2601.
  rewrite !Qsquare.
  assert (H : 0 <= (y2 - y1) * (y2 - y1))
    by (destruct (Qlt_le_dec (y2 - y1) 0); nra).
  nra.
Qed.

Lemma clamp_le_max (v lo hi : Q) : clamp v lo hi <= hi.
Proof.
  unfold clamp.
  destruct (Math_min_cases (Math_max v lo) hi) as [[H E] | [H E]];
    rewrite E; lra.
Qed.

Lemma Player_resolvePlatform_width {A : Type} `{HasRect A}
    (pls : list A) (p : Player.t) :
  Player.width (fold_left Player.resolvePlatform pls p) = Player.width p.
Proof.
  revert p. induction pls as [|pl pls IH]; intros p; cbn [fold_left].
  - reflexivity.
  - rewrite IH. unfold Player.resolvePlatform. cbv zeta.
    case_ifs; reflexivity.
Qed.

(** The player leaves its update with the width it had and left of the
    right end of the world of 2000. *)
Lemma Player_update_in_world {A : Type} `{HasRect A} (now dt : Q)
    (pls : list A) (p : Player.t) :
  let q := Player.update now dt pls p in
  Player.width q = Player.width p /\
  Player.x q <= 2000 - Player.width p.
Proof.
  cbv zeta. unfold Player.update. cbv zeta.
  assert (H1 : Player.width (Player.handleInput p) = Player.width p)
    by (unfold Player.handleInput, Player.jump; cbv zeta;
        case_ifs; reflexivity).
  revert H1. generalize (Player.handleInput p). intros p1 H1.
  assert (H2 : Player.width (Player.updatePhysics dt p1) = Player.width p)
    by (rewrite <- H1; unfold Player.updatePhysics; cbv zeta;
        case_ifs; reflexivity).
  clear H1. revert H2. generalize (Player.updatePhysics dt p1).
  intros p2 H2.
  assert (H3 : Player.width (Player.handlePlatformCollisions pls p2)
               = Player.width p)
    by (rewrite <- H2; unfold Player.handlePlatformCollisions;
        now rewrite Player_resolvePlatform_width).
  clear H2. revert H3. generalize (Player.handlePlatformCollisions pls p2).
  intros p3 H3.
  assert (H4 : Player.width (Player.updateAnimation dt p3) = Player.width p)
    by (rewrite <- H3; unfold Player.updateAnimation; cbv zeta;
        case_ifs; reflexivity).
  clear H3. revert H4. generalize (Player.updateAnimation dt p3).
  intros p4 H4.
  assert (H5 : Player.width (Player.updateInvulnerability now p4)
               = Player.width p)
    by (rewrite <- H4; unfold Player.updateInvulnerability; cbv zeta;
        case_ifs; reflexivity).
  clear H4. revert H5. generalize (Player.updateInvulnerability now p4).
  intros p5 H5.
  unfold Player.constrainToWorld, Player.takeDamage. cbv zeta.
  pose proof (clamp_le_max (Player.x p5) 0 (2000 - Player.width p5)) as Hc.
  rewrite H5 in Hc at 2.
  case_ifs; cbn; (split; [exact H5 | exact Hc]).
Qed.

Lemma updateCheckpoints_rect {host : MathHost} (dt : Q) (p : Player.t)
    (cps : list Checkpoint.t) :
  getRect (snd (Level.updateCheckpoints dt p cps)) = getRect p.
Proof.
  revert p. induction cps as [|cp cps IH]; intros p; [reflexivity|].
  cbn [Level.updateCheckpoints].
  destruct (Checkpoint.update dt p cp) as [cp1 p1] eqn:E.
  assert (H1 : getRect p1 = getRect p).
  { unfold Checkpoint.update, Checkpoint.checkPlayerActivation,
      Checkpoint.activate in E. cbv zeta in E.
    revert E. case_ifs; intros E; injection E as _ <-; reflexivity. }
  specialize (IH p1).
  destruct (Level.updateCheckpoints dt p1 cps) as [cps1 p2].
  cbn [snd] in *. now rewrite IH.
Qed.

Lemma rect_fields (p q : Player.t) :
  getRect q = getRect p ->
  Player.x q = Player.x p /\ Player.y q = Player.y p /\
  Player.width q = Player.width p /\ Player.height q = Player.height p.
Proof.
  intros E.
  pose proof (f_equal Rect.x E) as Ex.
  pose proof (f_equal Rect.y E) as Ey.
  pose proof (f_equal Rect.width E) as Ew.
  pose proof (f_equal Rect.height E) as Eh.
  now splits.
Qed.

(** What the update of a level does to the goal and to the player's
    rectangle: nothing; the level is completed after it if it was before
    or if the centre of the player is within 50 of the goal. *)
Lemma Level_update_goal {host : MathHost} (dt : Q) (p : Player.t)
    (fresh : nat -> list Particle.t) (l : Level.t) :
  let l' := fst (Level.update dt p fresh l) in
  let p' := snd (Level.update dt p fresh l) in
  Level.goalX l' = Level.goalX l /\ Level.goalY l' = Level.goalY l /\
  getRect p' = getRect p /\
  Level.completed l'
  = Level.completed l
    || (distance (Player.x p + Player.width p / 2)
          (Player.y p + Player.height p / 2) (Level.goalX l) (Level.goalY l)
        <=? 50).
Proof.
  cbv zeta. destruct l as [pls es cs cps gx gy comp tl st].
  unfold Level.update. cbv zeta.
  cbn [Level.checkpoints Level.set_collectibles Level.set_enemies
       Level.set_platforms Level.goalX Level.goalY Level.completed].
  pose proof (updateCheckpoints_rect dt p cps) as Hr.
  destruct (Level.updateCheckpoints dt p cps) as [cps1 p1].
  cbn [snd fst] in *.
  destruct (@rect_fields _ _ Hr) as (Ex & Ey & Ew & Eh).
  unfold Level.checkLevelCompletion, Player.getCenter. cbv zeta.
  cbn [fst snd Level.completed Level.set_checkpoints Level.goalX
       Level.goalY Level.set_completed].
  rewrite Ex, Ey, Ew, Eh.
  destruct comp; cbn [orb].
  - splits; try reflexivity; exact Hr.
  - destruct (distance _ _ _ _ <=? 50); splits; try reflexivity; exact Hr.
Qed.

Lemma handleCollisions_frame (now : Q) (g : Game.t) :
  let g' := Game.handleCollisions now g in
  getRect (Game.player g') = getRect (Game.player g) /\
  Game.state g' = Game.state g /\
  (Level.completed (Game.currentLevel g'),
   Level.goalX (Game.currentLevel g'), Level.goalY (Game.currentLevel g'))
  = (Level.completed (Game.currentLevel g),
     Level.goalX (Game.currentLevel g), Level.goalY (Game.currentLevel g)).
Proof.
  cbv zeta. unfold Game.handleCollisions.
  pose proof (collideEnemies_rect now
                (Level.enemies (Game.currentLevel g)) (Game.player g)) as Hr.
  destruct (Game.collideEnemies now (Level.enemies (Game.currentLevel g))
              (Game.player g)) as [es p1].
  cbn [snd] in Hr. cbv zeta.
  set (g1 := Game.set_currentLevel _ (Game.set_player p1 g)).
  assert (H1 : Game.player g1 = p1 /\ Game.state g1 = Game.state g /\
               (Level.completed (Game.currentLevel g1),
                Level.goalX (Game.currentLevel g1),
                Level.goalY (Game.currentLevel g1))
               = (Level.completed (Game.currentLevel g),
                  Level.goalX (Game.currentLevel g),
                  Level.goalY (Game.currentLevel g)))
    by (splits; reflexivity).
  clearbody g1. destruct H1 as (Hp1 & Hs1 & Hl1).
  pose proof (collideCollectibles_score
                (Level.collectibles (Game.currentLevel g1)) g1) as H.
  cbv zeta in H.
  destruct (Game.collideCollectibles
              (Level.collectibles (Game.currentLevel g1)) g1) as [cs2 g2].
  cbn [fst snd] in H. destruct H as (_ & R2 & K2 & _).
  injection K2 as _ _ F3 F4.
  cbn [Game.player Game.state Game.currentLevel Game.set_currentLevel
       Level.completed Level.goalX Level.goalY Level.set_collectibles].
  rewrite R2, Hp1, F3, Hs1, F4, Hl1. splits; [exact Hr | reflexivity..].
Qed.

Lemma checkGameConditions_incomplete (now : Q) (g : Game.t) :
  Level.completed (Game.currentLevel g) = false ->
  let g' := Game.checkGameConditions now g in
  Game.currentLevel g' = Game.currentLevel g /\
  Player.width (Game.player g') = Player.width (Game.player g) /\
  (Game.state g' = Game.state g \/ Game.state g' = Game.GameOver).
Proof.
  intros Hc. cbv zeta. destruct g as [st sc lv ts p l].
  cbn [Game.currentLevel] in Hc.
  unfold Game.checkGameConditions, Game.gameOver.
  cbn -[Level.isTimeUp Player.isDead Player.respawn Qle_bool Qminus].
  destruct (Player.isDead p);
    [destruct (lv - 1 <=? 0)|];
    cbn -[Level.isTimeUp Player.isDead Player.respawn Qle_bool Qminus];
    rewrite Hc;
    cbn -[Level.isTimeUp Player.isDead Player.respawn Qle_bool Qminus];
    destruct (Level.isTimeUp now l);
    cbn -[Level.isTimeUp Player.isDead Player.respawn Qle_bool Qminus];
    splits; try reflexivity; tauto.
Qed.

(** A frame of play on a level whose goal lies 51 or more right of
    where the centre of the player can get. *)
Lemma playingStep_far_goal {host : MathHost} (f : PlayingFrame)
    (g : Game.t) :
  sqrtAboveWholeRoots host ->
  Level.completed (Game.currentLevel g) = false ->
  2051 - Player.width (Game.player g) / 2
  <= Level.goalX (Game.currentLevel g) ->
  let g' := playingStep f g in
  Level.completed (Game.currentLevel g') = false /\
  Level.goalX (Game.currentLevel g') = Level.goalX (Game.currentLevel g) /\
  Player.width (Game.player g') = Player.width (Game.player g) /\
  (Game.state g' = Game.state g \/ Game.state g' = Game.GameOver).
Proof.
  intros Hs Hc Hg. cbv zeta. unfold playingStep, Game.updatePlaying.
  cbv zeta.
  set (g1 := Game.updatePlayerInput (playInput f) g).
  assert (H1 : Game.currentLevel g1 = Game.currentLevel g /\
               Player.width (Game.player g1) = Player.width (Game.player g)
               /\ Game.state g1 = Game.state g).
  { subst g1. unfold Game.updatePlayerInput, Player.setInput.
    splits; reflexivity. }
  clearbody g1. destruct H1 as (Hl1 & Hw1 & Hs1).
  destruct (Player_update_in_world (playNow f) (playDelta f)
              (Level.platforms (Game.currentLevel g1)) (Game.player g1))
    as (Hw2 & Hx2).
  revert Hw2 Hx2.
  generalize (Player.update (playNow f) (playDelta f)
                (Level.platforms (Game.currentLevel g1)) (Game.player g1)).
  intros p2 Hw2 Hx2.
  cbn [Game.player Game.set_player Game.currentLevel].
  change (Game.currentLevel (Game.set_player p2 g1))
    with (Game.currentLevel g1).
  destruct (Level_update_goal (playDelta f) p2 (playFresh f)
              (Game.currentLevel g1)) as (Gx & Gy & Gr & Gc).
  destruct (Level.update (playDelta f) p2 (playFresh f)
              (Game.currentLevel g1)) as [l3 p3].
  cbn [fst snd] in Gx, Gy, Gr, Gc.
  destruct (@rect_fields _ _ Gr) as (Ex3 & _ & Ew3 & _).
  rewrite Hl1, Hw2, Hw1 in Gc.
  assert (Hfar : (distance
                    (Player.x p2 + Player.width (Game.player g) / 2)
                    (Player.y p2 + Player.height p2 / 2)
                    (Level.goalX (Game.currentLevel g))
                    (Level.goalY (Game.currentLevel g)) <=? 50) = false).
  { qbool. rewrite Hw1 in Hx2.
    assert (Eh : Player.width (Game.player g)
                 == 2 * (Player.width (Game.player g) / 2)) by field.
    revert Eh Hg. generalize (Player.width (Game.player g) / 2).
    intros h Eh Hg.
    assert (Hle : Player.x p2 + h + 51
                  <= Level.goalX (Game.currentLevel g))
      by lra.
    pose proof (@distance_above_51 host (Player.x p2 + h)
                  (Player.y p2 + Player.height p2 / 2)
                  (Level.goalX (Game.currentLevel g))
                  (Level.goalY (Game.currentLevel g)) Hs Hle) as Hd.
    lra. }
  rewrite Hfar, Hc in Gc. cbn [orb] in Gc.
  set (g3 := Game.set_player p3
               (Game.set_currentLevel l3 (Game.set_player p2 g1))).
  assert (H3 : Game.currentLevel g3 = l3 /\ Game.player g3 = p3 /\
               Game.state g3 = Game.state g1)
    by (splits; reflexivity).
  clearbody g3. destruct H3 as (Hl3 & Hp3 & Hs3).
  destruct (handleCollisions_frame (playNow f) g3) as (Hr4 & Hs4 & Hl4).
  revert Hr4 Hs4 Hl4. generalize (Game.handleCollisions (playNow f) g3).
  intros g4 Hr4 Hs4 Hl4.
  injection Hl4 as Hc4 Hx4 _.
  destruct (@rect_fields _ _ Hr4) as (_ & _ & Ew4 & _).
  assert (Hc4' : Level.completed (Game.currentLevel g4) = false)
    by (rewrite Hc4, Hl3; exact Gc).
  destruct (checkGameConditions_incomplete (playNow f) g4 Hc4')
    as (Hl5 & Hw5 & Hs5).
  revert Hl5 Hw5 Hs5. generalize (Game.checkGameConditions (playNow f) g4).
  intros g5 Hl5 Hw5 Hs5.
  splits.
  - rewrite Hl5. exact Hc4'.
  - rewrite Hl5, Hx4, Hl3, Gx, Hl1. reflexivity.
  - rewrite Hw5, Ew4, Hp3, Ew3, Hw2, Hw1. reflexivity.
  - rewrite Hs4, Hs3, Hs1 in Hs5. exact Hs5.
Qed.

Lemma far_goal_frames {host : MathHost} (frames : list PlayingFrame)
    (g : Game.t) :
  sqrtAboveWholeRoots host ->
  Level.completed (Game.currentLevel g) = false ->
  Game.state g <> Game.LevelComplete ->
  2051 - Player.width (Game.player g) / 2
  <= Level.goalX (Game.currentLevel g) ->
  Level.completed (Game.currentLevel (playingFrames frames g)) = false /\
  Game.state (playingFrames frames g) <> Game.LevelComplete.
Proof.
  intros Hs. unfold playingFrames. revert g.
  induction frames as [|f frames IH]; intros g Hc Hst Hg.
  - split; [exact Hc | exact Hst].
  - rewrite fold_left_cons. cbv beta.
    destruct (playingStep_far_goal f g Hs Hc Hg) as (Hc1 & Hx1 & Hw1 & Hs1).
    revert Hc1 Hx1 Hw1 Hs1. generalize (playingStep f g).
    intros g1 Hc1 Hx1 Hw1 Hs1.
    apply IH.
    + exact Hc1.
    + destruct Hs1 as [E | E]; rewrite E; [exact Hst | discriminate].
    + rewrite Hx1, Hw1. exact Hg.
Qed.

Lemma generateLevel_procedural (n : Z) :
  (6 <= n)%Z ->
  LevelGeneration.goalX (LevelGeneration.generateLevel n)
  = 1600 + inject_Z n * 200 - 100.
Proof.
  intros Hn. destruct n as [|p|p]; try lia.
  unfold LevelGeneration.generateLevel.
  do 4 (try destruct p as [p|p|]; try lia; try reflexivity).
Qed.

(** X21.  The levels beyond the fifth cannot be completed.  The
    generator of a level of number 6 or more puts the goal 100 left of
    the right end of a level of width 1600 + 200 n, that is at 2700 or
    beyond, while the player's update keeps the player left of 2000.
    With a square root that is exact on the squares of the whole numbers
    and grows with its argument, the centre of a player of width 32
    stays more than 50 away from the goal, so that no sequence of frames
    of play completes the level or leaves the game in the state
    [LevelComplete]. *)
Theorem procedural_levels_cannot_be_completed {host : MathHost} (n : Z)
    (frames : list PlayingFrame) (g : Game.t) :
  sqrtAboveWholeRoots host -> (6 <= n)%Z ->
  Level.goalX (Game.currentLevel g)
  = LevelGeneration.goalX (LevelGeneration.generateLevel n) ->
  Player.width (Game.player g) = 32 ->
  Level.completed (Game.currentLevel g) = false ->
  Game.state g = Game.Playing ->
  let g' := playingFrames frames g in
  Level.completed (Game.currentLevel g') = false /\
  Game.state g' <> Game.LevelComplete.
Proof.
  intros Hs Hn Hx Hw Hc Hst. cbv zeta.
  apply far_goal_frames; try assumption.
  - rewrite Hst. discriminate.
  - rewrite Hx, Hw, (generateLevel_procedural Hn).
    assert (H6 : 6 <= inject_Z n)
      by (change 6 with (inject_Z 6); now rewrite <- Zle_Qle).
    assert (E : (32 : Q) / 2 == 16) by reflexivity.
    rewrite E. lra.
Qed.

(** Level 6, whose goal is at 2700, with a player that runs and jumps to
    the right for two frames. *)
Lemma procedural_levels_cannot_be_completed_witness :
  let g :=
    Game.make Game.Playing 0 3 0 (Player.new 1960 302)
      (Level.make [Platform.new 1800 350 200 40 Platform.Static] [] [] []
         2700 350 false None 0) in
  let frames :=
    [mkPlayingFrame 16 16 (Input.make false true true) (fun _ => []);
     mkPlayingFrame 32 16 (Input.make false true false) (fun _ => [])] in
  sqrtAboveWholeRoots sampleHost /\
  Level.goalX (Game.currentLevel g)
  = LevelGeneration.goalX (LevelGeneration.generateLevel 6) /\
  Level.completed
    (Game.currentLevel (playingFrames (host := sampleHost) frames g))
  = false.
Proof.
  cbv zeta.
  assert (Hx : Level.goalX
                 (Game.currentLevel
                    (Game.make Game.Playing 0 3 0 (Player.new 1960 302)
                       (Level.make
                          [Platform.new 1800 350 200 40 Platform.Static]
                          [] [] [] 2700 350 false None 0)))
               = LevelGeneration.goalX (LevelGeneration.generateLevel 6))
    by reflexivity.
  assert (Hn : (6 <= 6)%Z) by lia.
  split; [exact sampleHost_sqrtAboveWholeRoots|]. split; [exact Hx|].
  exact (proj1 (@procedural_levels_cannot_be_completed sampleHost 6
    [mkPlayingFrame 16 16 (Input.make false true true) (fun _ => []);
     mkPlayingFrame 32 16 (Input.make false true false) (fun _ => [])]
    _ sampleHost_sqrtAboveWholeRoots Hn Hx eq_refl eq_refl eq_refl)).
Defined.

(** ** The frame of the game: score, pause and keys *)

(** X22.  The score of a level is counted twice in the total.
    [levelComplete] adds the score of the level and the bonus to the
    total score and the bonus to the score; [nextLevel] then adds the
    score, bonus included, to the total once more before it clears it.
    After the two calls the total has grown by twice the score and twice
    the bonus; the game plays the next level with a score of 0 and the
    player reset at the start of that level. *)
Theorem level_score_is_counted_twice (now now' : Q) (levels : Z -> Level.t)
    (s : GameLoop.t) :
  let g := GameLoop.game s in
  let bonus :=
    Game.calculateTimeBonus now g + Math_floor (Player.health (Game.player g))
  in
  let s1 := GameLoop.set_game (Game.levelComplete now g) s in
  let s2 := GameLoop.nextLevel now' levels s1 in
  let layout :=
    LevelGeneration.generateLevel (GameLoop.currentLevelNumber s + 1) in
  Game.state (GameLoop.game s1) = Game.LevelComplete /\
  Game.score (GameLoop.game s1) = Game.score g + bonus /\
  Game.totalScore (GameLoop.game s2)
  == Game.totalScore g + 2 * (Game.score g + bonus) /\
  Game.score (GameLoop.game s2) = 0 /\
  Game.state (GameLoop.game s2) = Game.Playing /\
  GameLoop.currentLevelNumber s2 = (GameLoop.currentLevelNumber s + 1)%Z /\
  Game.currentLevel (GameLoop.game s2)
  = Level.set_startTime now'
      (levels (GameLoop.currentLevelNumber s + 1)%Z) /\
  Game.player (GameLoop.game s2)
  = Player.reset (LevelGeneration.playerStartX layout)
      (LevelGeneration.playerStartY layout) (Game.player g).
Proof.
  cbv zeta. destruct s as [g m prev n]. destruct g as [st sc lv ts p l].
  unfold GameLoop.nextLevel, GameLoop.loadLevel, Game.levelComplete.
  cbn -[Game.calculateTimeBonus Math_floor Player.reset
        LevelGeneration.generateLevel Qplus Qmult Z.add].
  change (Game.calculateTimeBonus now
            (Game.set_totalScore (ts + sc)
               (Game.set_state Game.LevelComplete
                  (Game.make st sc lv ts p l))))
    with (Game.calculateTimeBonus now (Game.make st sc lv ts p l)).
  splits; try reflexivity. ring.
Qed.

Ltac input_cases m :=
  destruct m as [[kl kr kj kc kp kx] [pl pr pj pc pp px] [ml mr mj] ta].

(** Right after [update] the previous states are the states, but for
    what the on-screen buttons have added. *)
Lemma InputManager_update_edges (action : InputManager.Action)
    (m : InputManager.t) :
  InputManager.isJustReleased action (InputManager.update m) = false /\
  InputManager.isJustPressed action (InputManager.update m)
  = match action with
    | InputManager.Left =>
        MobileControls.left (InputManager.mobileControls m)
        && negb (InputManager.isPressed InputManager.Left m)
    | InputManager.Right =>
        MobileControls.right (InputManager.mobileControls m)
        && negb (InputManager.isPressed InputManager.Right m)
    | InputManager.Jump =>
        MobileControls.jump (InputManager.mobileControls m)
        && negb (InputManager.isPressed InputManager.Jump m)
    | _ => false
    end.
Proof.
  input_cases m.
  unfold InputManager.isJustReleased, InputManager.isJustPressed,
    InputManager.isPressed, InputManager.update.
  destruct action; cbn;
    [destruct kl, ml | destruct kr, mr | destruct kj, mj
     | destruct kc | destruct kp | destruct kx];
    split; reflexivity.
Qed.

(** X23.  The frame never toggles the pause.  [Game.update] asks
    [isJustPressed('pause')] right after [inputManager.update()], which
    has just copied the states of the keys into the previous states:
    the answer is always no, as it is for every action the on-screen
    buttons do not set, and [isJustReleased] is false for every action.
    So the frame is the update of the input manager followed, in the
    playing state, by the playing update; it leaves the state it
    remembers for resuming alone, and it leaves a paused game, a finished
    level and a lost game untouched whatever keys are down. *)
Theorem frame_never_toggles_pause {host : MathHost} (now dt : Q)
    (fresh : nat -> list Particle.t) (s : GameLoop.t) :
  let m := InputManager.update (GameLoop.inputManager s) in
  let s' := GameLoop.update now dt fresh s in
  InputManager.isJustPressed InputManager.Pause m = false /\
  InputManager.isJustPressed InputManager.Confirm m = false /\
  InputManager.isJustPressed InputManager.Restart m = false /\
  (forall action, InputManager.isJustReleased action m = false) /\
  GameLoop.inputManager s' = m /\
  GameLoop.previousState s' = GameLoop.previousState s /\
  GameLoop.game s'
  = match Game.state (GameLoop.game s) with
    | Game.Playing =>
        Game.updatePlaying now dt
          (Input.make (InputManager.isPressed InputManager.Left m)
             (InputManager.isPressed InputManager.Right m)
             (InputManager.isPressed InputManager.Jump m))
          fresh (GameLoop.game s)
    | _ => GameLoop.game s
    end.
Proof.
  cbv zeta.
  pose proof (fun a => InputManager_update_edges a (GameLoop.inputManager s))
    as He.
  splits; try (apply He).
  - unfold GameLoop.update. cbv zeta.
    cbn [GameLoop.inputManager GameLoop.set_inputManager].
    rewrite (proj2 (He InputManager.Pause)).
    cbn [GameLoop.game GameLoop.set_inputManager].
    destruct (Game.state (GameLoop.game s)); reflexivity.
  - unfold GameLoop.update. cbv zeta.
    cbn [GameLoop.inputManager GameLoop.set_inputManager].
    rewrite (proj2 (He InputManager.Pause)).
    cbn [GameLoop.game GameLoop.set_inputManager].
    destruct (Game.state (GameLoop.game s)); reflexivity.
  - unfold GameLoop.update. cbv zeta.
    cbn [GameLoop.inputManager GameLoop.set_inputManager].
    rewrite (proj2 (He InputManager.Pause)).
    cbn [GameLoop.game GameLoop.set_inputManager].
    destruct (Game.state (GameLoop.game s)); reflexivity.
Qed.

(** A paused game with the pause key held down, over a frame. *)
Example paused_game_stays_paused :
  let m := InputManager.handleKeyDown InputManager.Escape InputManager.new in
  let s := GameLoop.make (Game.set_state Game.Paused woundedGame) m
             Game.Playing 1 in
  Game.state
    (GameLoop.game (GameLoop.update (host := sampleHost) 16 16
                      (fun _ => []) s))
  = Game.Paused.
Proof. reflexivity. Qed.

Lemma runInputEvent_keeps_pressed (e : InputEvent)
    (action : InputManager.Action) (m : InputManager.t) :
  clearsKeys e = false ->
  InputManager.isPressed action m = true ->
  InputManager.isPressed action (runInputEvent e m) = true.
Proof.
  intros Hc Hp. input_cases m. unfold InputManager.isPressed in *.
  destruct e as [code | code | button pressed | touches canvas
                | touches canvas | touches | |];
    try discriminate.
  - unfold runInputEvent, InputManager.handleKeyDown.
    destruct code; destruct action; cbn in *; congruence.
  - destruct button; destruct action; exact Hp.
  - unfold runInputEvent, InputManager.update.
    destruct action; cbn in *; rewrite ?Hp; reflexivity.
Qed.

(** X24.  The release of an on-screen button does not release its
    action.  [update] merges a held button into the state of its key,
    and the listeners of the button only write [mobileControls]: after a
    frame with the button held the key counts as pressed, and it still
    does after the release (a [mouseup], say) and then any sequence of
    frames, key presses and button presses or releases.  What can clear
    it is a key-up, [reset], or a touch event on the window:
    [handleTouchGestures] clears the opposite direction, and the end of
    the last touch clears the key in the frame that follows, unless, for
    a direction, the button of the other direction is held. *)
Theorem button_release_needs_touch_end (button : InputManager.Button)
    (events : list InputEvent) (m : InputManager.t) :
  Forall (fun e => clearsKeys e = false) events ->
  let held :=
    InputManager.update (InputManager.mobileButton button true m) in
  let released := InputManager.mobileButton button false held in
  InputManager.isPressed (buttonAction button) held = true /\
  InputManager.isPressed (buttonAction button) (inputTrace events released)
  = true /\
  InputManager.isPressed (buttonAction button)
    (InputManager.update (InputManager.handleTouchEnd 0 released))
  = match button with
    | InputManager.LeftBtn =>
        MobileControls.right (InputManager.mobileControls m)
    | InputManager.RightBtn =>
        MobileControls.left (InputManager.mobileControls m)
    | InputManager.JumpBtn => false
    end.
Proof.
  intros Hev. cbv zeta.
  assert (Hheld : InputManager.isPressed (buttonAction button)
                    (InputManager.update
                       (InputManager.mobileButton button true m)) = true).
  { input_cases m. destruct button; cbn; now rewrite orb_true_r. }
  split; [exact Hheld|].
  split.
  - assert (Hrel : InputManager.isPressed (buttonAction button)
                     (InputManager.mobileButton button false
                        (InputManager.update
                           (InputManager.mobileButton button true m)))
                   = true).
    { refine (@runInputEvent_keeps_pressed (EventButton button false)
                _ _ eq_refl Hheld). }
    revert Hrel.
    generalize (InputManager.mobileButton button false
                  (InputManager.update
                     (InputManager.mobileButton button true m))).
    unfold inputTrace. induction Hev as [|e events He _ IH]; intros q Hq.
    + exact Hq.
    + rewrite fold_left_cons. apply IH.
      now apply runInputEvent_keeps_pressed.
  - clear Hheld Hev. input_cases m.
    destruct button; destruct ml, mr, mj, kl, kr, kj; reflexivity.
Qed.

(** The left button, clicked and released, then two frames; a swipe to
    the right then clears the key. *)
Lemma button_release_needs_touch_end_witness :
  let events := [EventFrame; EventButton InputManager.JumpBtn true;
                 EventFrame] in
  let released :=
    InputManager.mobileButton InputManager.LeftBtn false
      (InputManager.update
         (InputManager.mobileButton InputManager.LeftBtn true
            InputManager.new)) in
  Forall (fun e => clearsKeys e = false) events /\
  InputManager.isPressed InputManager.Left (inputTrace events released)
  = true /\
  InputManager.isPressed InputManager.Left
    (inputTrace
       [EventTouchStart [Touch.make 700 500]
          (Some (Canvas.make 0 0 800 600))] released) = false.
Proof.
  cbv zeta.
  assert (Hev : Forall (fun e => clearsKeys e = false)
                  [EventFrame; EventButton InputManager.JumpBtn true;
                   EventFrame])
    by (repeat constructor).
  split; [exact Hev|].
  split; [|reflexivity].
  exact (proj1 (proj2 (@button_release_needs_touch_end InputManager.LeftBtn
                         _ InputManager.new Hev))).
Defined.

(** ** Camera: zoom, bounds and shake *)

Lemma lerp_in_range (a b f lo hi : Q) :
  0 <= f -> f <= 1 -> lo <= a -> a <= hi -> lo <= b -> b <= hi ->
  lo <= lerp a b f /\ lerp a b f <= hi.
Proof. intros. unfold lerp. split; nra. Qed.

Lemma setZoom_inRange (z : Q) (immediate : bool) (c : CameraView.t) :
  zoomInRange c -> zoomInRange (CameraView.setZoom z immediate c).
Proof.
  intros (Hm & Hmm & Hs0 & Hs1 & Hz0 & Hz1 & Ht0 & Ht1).
  destruct (@clamp_bounds z (CameraView.minZoom c) (CameraView.maxZoom c)
              Hmm) as (Hc0 & Hc1).
  unfold CameraView.setZoom, zoomInRange. cbv zeta.
  destruct immediate; cbn; splits; assumption.
Qed.

Lemma updateShake_zoomState (dt rx ry : Q) (c : CameraView.t) :
  zoomState (CameraView.updateShake dt rx ry c) = zoomState c.
Proof.
  unfold CameraView.updateShake. cbv zeta. case_ifs; reflexivity.
Qed.

Lemma updateEffects_zoomState (dt : Q) (c : CameraView.t) :
  zoomState (CameraView.updateEffects dt c) = zoomState c.
Proof.
  unfold CameraView.updateEffects. cbv zeta. case_ifs; reflexivity.
Qed.

Lemma constrainToBounds_zoomState (c : CameraView.t) :
  zoomState (CameraView.constrainToBounds c) = zoomState c.
Proof. reflexivity. Qed.

(** The update of the camera writes the zoom in [updateZoom] only. *)
Lemma CameraView_update_zoom (dt : Q) (target : option Target.t)
    (rx ry : Q) (c : CameraView.t) :
  let c' := CameraView.update dt target rx ry c in
  (CameraView.minZoom c', CameraView.maxZoom c', CameraView.zoomSpeed c',
   CameraView.targetZoom c')
  = (CameraView.minZoom c, CameraView.maxZoom c, CameraView.zoomSpeed c,
     CameraView.targetZoom c) /\
  CameraView.zoom c'
  = (if Math_abs (CameraView.zoom c - CameraView.targetZoom c) >? 0.01
     then lerp (CameraView.zoom c) (CameraView.targetZoom c)
            (CameraView.zoomSpeed c)
     else CameraView.zoom c).
Proof.
  cbv zeta. unfold CameraView.update. cbv zeta.
  set (c0 := match target with
             | Some t =>
                 CameraView.set_camera
                   (Camera.updateTargetFollowing dt t (CameraView.camera c))
                   c
             | None => c
             end).
  assert (H0 : zoomState c0 = zoomState c)
    by (subst c0; destruct target; reflexivity).
  clearbody c0.
  assert (H1 : zoomState
                 (CameraView.constrainToBounds
                    (CameraView.updateEffects dt
                       (CameraView.updateShake dt rx ry
                          (CameraView.updateZoom dt c0))))
               = zoomState (CameraView.updateZoom dt c0))
    by now rewrite constrainToBounds_zoomState, updateEffects_zoomState,
         updateShake_zoomState.
  revert H1.
  generalize (CameraView.constrainToBounds
                (CameraView.updateEffects dt
                   (CameraView.updateShake dt rx ry
                      (CameraView.updateZoom dt c0)))).
  intros c' H1.
  unfold zoomState in H0, H1. injection H0 as E1 E2 E3 E4 E5.
  unfold CameraView.updateZoom in H1. rewrite E4, E5, E3 in H1.
  destruct (Math_abs (CameraView.zoom c - CameraView.targetZoom c) >? 0.01);
    cbn [CameraView.minZoom CameraView.maxZoom CameraView.zoomSpeed
         CameraView.targetZoom CameraView.zoom CameraView.set_zoom] in H1;
    injection H1 as F1 F2 F3 F4 F5;
    rewrite F1, F2, F3, F4, F5, E1, E2, E3, E4, ?E5; split; reflexivity.
Qed.

Lemma runZoomCall_inRange (k : ZoomCall) (c : CameraView.t) :
  zoomInRange c -> zoomInRange (runZoomCall k c).
Proof.
  intros H. destruct k as [z im | f | f | | dt target rx ry];
    cbn [runZoomCall].
  - now apply setZoom_inRange.
  - now apply setZoom_inRange.
  - now apply setZoom_inRange.
  - now apply setZoom_inRange.
  - destruct (CameraView_update_zoom dt target rx ry c) as (E & Ez).
    revert E Ez. generalize (CameraView.update dt target rx ry c).
    intros c' E Ez. injection E as E1 E2 E3 E4.
    destruct H as (Hm & Hmm & Hs0 & Hs1 & Hz0 & Hz1 & Ht0 & Ht1).
    unfold zoomInRange. rewrite E1, E2, E3, E4, Ez.
    destruct (@lerp_in_range (CameraView.zoom c) (CameraView.targetZoom c)
                (CameraView.zoomSpeed c) (CameraView.minZoom c)
                (CameraView.maxZoom c) Hs0 Hs1 Hz0 Hz1 Ht0 Ht1)
      as (L0 & L1).
    destruct (Math_abs _ >? 0.01); splits; assumption.
Qed.

Lemma runZoomCall_limits (k : ZoomCall) (c : CameraView.t) :
  (CameraView.minZoom (runZoomCall k c), CameraView.maxZoom (runZoomCall k c))
  = (CameraView.minZoom c, CameraView.maxZoom c).
Proof.
  destruct k as [z im | f | f | | dt target rx ry]; cbn [runZoomCall].
  - unfold CameraView.setZoom. cbv zeta. now destruct im.
  - unfold CameraView.zoomIn, CameraView.setZoom. reflexivity.
  - unfold CameraView.zoomOut, CameraView.setZoom. reflexivity.
  - unfold CameraView.resetZoom, CameraView.setZoom. reflexivity.
  - destruct (CameraView_update_zoom dt target rx ry c) as (E & _).
    revert E. generalize (CameraView.update dt target rx ry c).
    intros c' E. injection E as E1 E2 _ _. now rewrite E1, E2.
Qed.

(** X25.  The zoom stays in its range.  If the zoom and its target
    start between the least and the greatest zoom (1 between 0.5 and 2
    for a camera as built), then after any sequence of calls of
    [setZoom], [zoomIn], [zoomOut], [resetZoom] and of camera updates
    the two limits are the ones the camera started with, the zoom and
    its target lie between them, and the zoom is positive. *)
Theorem zoom_stays_in_range (ks : list ZoomCall) (c : CameraView.t) :
  zoomInRange c ->
  let c' := zoomTrace ks c in
  zoomInRange c' /\
  CameraView.minZoom c' = CameraView.minZoom c /\
  CameraView.maxZoom c' = CameraView.maxZoom c /\
  CameraView.minZoom c <= CameraView.zoom c' <= CameraView.maxZoom c /\
  CameraView.minZoom c <= CameraView.targetZoom c' <= CameraView.maxZoom c /\
  0 < CameraView.zoom c'.
Proof.
  intros H. cbv zeta.
  assert (H' : zoomInRange (zoomTrace ks c) /\
               (CameraView.minZoom (zoomTrace ks c),
                CameraView.maxZoom (zoomTrace ks c))
               = (CameraView.minZoom c, CameraView.maxZoom c)).
  { unfold zoomTrace. revert c H.
    induction ks as [|k ks IH]; intros c H; [split; [exact H|reflexivity]|].
    rewrite fold_left_cons.
    destruct (IH (runZoomCall k c) (runZoomCall_inRange k H)) as [I1 I2].
    split; [exact I1|]. rewrite I2. apply runZoomCall_limits. }
  revert H'. generalize (zoomTrace ks c). intros c' [H' E].
  injection E as E1 E2.
  pose proof H' as (Hm & Hmm & _ & _ & Hz0 & Hz1 & Ht0 & Ht1).
  rewrite E1, E2 in *.
  splits; try assumption; try reflexivity. lra.
Qed.

(** The camera as built for a canvas of 800 by 600, zoomed in beyond the
    greatest zoom and updated. *)
Lemma zoom_stays_in_range_witness :
  let c := CameraView.new 800 600 2000 1000 in
  let ks := [CallZoomIn 5; CallCameraUpdate 16 None 0.5 0.5] in
  zoomInRange c /\
  CameraView.targetZoom (zoomTrace ks c) == 2 /\
  CameraView.zoom (zoomTrace ks c) <= CameraView.maxZoom c.
Proof.
  cbv zeta.
  assert (H : zoomInRange (CameraView.new 800 600 2000 1000))
    by (unfold zoomInRange; cbn; splits;
        try reflexivity; vm_compute; discriminate).
  split; [exact H|]. split; [reflexivity|].
  destruct (@zoom_stays_in_range
              [CallZoomIn 5; CallCameraUpdate 16 None 0.5 0.5] _ H)
    as (_ & _ & _ & [_ Hz] & _).
  exact Hz.
Defined.




